(** * AI Tutor pipeline: a shallow embedding of the orchestrator and its stages

    Sources embedded here (paths relative to the repository):
    - [server/agents/graph.js]       (state schema, [createInitialState],
                                      [routeAfterSupervisor], the graph wiring)
    - [server/agents/supervisor.js]  ([runSupervisor])
    - [server/agents/researcher.js]  ([runResearcher], [DURATION_MAP])
    - [server/agents/mediaEngine.js] ([runMediaEngine], [generateTopicSVG] and
                                      its helpers, [escapeXml])
    - [server/routes/chat.js]        (the POST handler)
    - [server/routes/topics.js]      (GET and POST /api/topics, POST
                                      /api/topics/:id/subtopic)
    - [server/knowledgeBase.js]      (the topics, [getAllTopics],
                                      [getTopicNames], [getTopicById],
                                      [addTopic], [addSubtopic],
                                      [toContextString])
    - [api/chat.js]                  (the serverless handler: [runSupervisor],
                                      [runResearcher], [runMediaEngine],
                                      [generateTopicSVG], [handler])

    JavaScript values are an inductive type.  Strings are byte strings, so
    [length] and [substring] count bytes (the UTF-16 code units of
    JavaScript on ASCII text), and white space and letter case are the
    ASCII ones, but for [parseInt], which skips the white space of
    JavaScript.  A number is an integer ([JNum], standing for the double
    nearest to it) or, when it is no integer, the numeral JavaScript prints
    for it ([JFraction]); NaN is kept apart where [parseInt] can produce
    it.  Exceptions and the two side
    effects of the stages (file writes and [console.error]) are threaded
    through a small state-and-error monad.  The replies of the language
    model, the clock, the environment and the outcome of a file write are
    inputs of the embedding; [JSON.parse], the base64 encoder and the fixed
    text of the SVG template are parameters of it. *)

From Stdlib Require Import String Ascii List ZArith Lia Bool DecimalString.
From Stdlib Require Import Permutation.
Import ListNotations.
Set Warnings "-register-all".
Open Scope list_scope.
Open Scope string_scope.

(* ================================================================== *)
(** ** JavaScript values and the built-ins the sources use *)
(* ================================================================== *)

Module JS.

(** The values of JSON, and [undefined].  [JNum n] is the number an integer
    numeral [n] stands for; a number that is no integer is given by the
    numeral JavaScript prints for it, as in [JFraction "0.5"] and
    [JFraction "6e-7"]: it is not zero, and the sources do nothing with it
    but test and print it. *)
Inductive JSValue : Type :=
| JUndefined
| JNull
| JBool (b : bool)
| JNum (n : Z)
| JFraction (numeral : string)
| JStr (s : string)
| JArr (items : list JSValue)
| JObj (fields : list (string * JSValue)).

(** Result of [parseInt]: a number or NaN. *)
Inductive JSNum : Type :=
| NaN
| Num (n : Z).

Inductive JSError : Type :=
| TypeError (msg : string)
| SyntaxError (msg : string)
| ProviderError (msg : string)
| IOError (msg : string).

Definition message (e : JSError) : string :=
  match e with
  | TypeError m | SyntaxError m | ProviderError m | IOError m => m
  end.

(** [ToBoolean]. *)
Definition truthy (v : JSValue) : bool :=
  match v with
  | JUndefined | JNull => false
  | JBool b => b
  | JNum n => negb (n =? 0)%Z
  | JFraction _ => true
  | JStr s => negb (s =? "")
  | JArr _ | JObj _ => true
  end.

(** [a || b] and [a ?? b]. *)
Definition js_or (a b : JSValue) : JSValue := if truthy a then a else b.

Definition nullish (v : JSValue) : bool :=
  match v with
  | JUndefined | JNull => true
  | _ => false
  end.

Definition js_coalesce (a b : JSValue) : JSValue := if nullish a then b else a.

(** [v === "s"] and [v !== "s"] against a string literal. *)
Definition strict_eq_str (v : JSValue) (s : string) : bool :=
  match v with
  | JStr t => t =? s
  | _ => false
  end.

Fixpoint assoc (key : string) (fields : list (string * JSValue)) : option JSValue :=
  match fields with
  | [] => None
  | (k, v) :: rest => if k =? key then Some v else assoc key rest
  end.

Definition dq : string := String (ascii_of_nat 34) "".
Definition nl : string := String (ascii_of_nat 10) "".
Definition quoted (s : string) : string := dq ++ s ++ dq.

(** Decimal numeral of an integer. *)
Definition string_of_Z (n : Z) : string := NilZero.string_of_int (Z.to_int n).

Definition rev_string (s : string) : string :=
  string_of_list_ascii (rev (list_ascii_of_string s)).

(** *** [Number::toString] on an integer

    The number an integer numeral stands for is the double nearest to it
    (ties to the even significand); it is printed with the fewest digits
    that read back as the same double, in full up to 21 digits and in
    exponent notation beyond ("1e+21"). *)

Definition nearest_double (n : Z) : Z :=
  let shift := (Z.log2 n - 52)%Z in
  if (shift <=? 0)%Z then n
  else
    let q := Z.shiftr n shift in
    let r := (n - Z.shiftl q shift)%Z in
    let half := Z.shiftl 1 (shift - 1) in
    let m := if (half <? r)%Z || ((r =? half)%Z && Z.odd q) then (q + 1)%Z else q in
    Z.shiftl m shift.

Definition reads_back (x v : Z) : bool := (nearest_double v =? x)%Z.

(** [x] rounded to a multiple of [10^p] that reads back as [x]: the nearer
    of the two neighbours, the one with the even last digit on a tie. *)
Definition rounded (x : Z) (p : Z) : option Z :=
  let unit := (10 ^ p)%Z in
  let lo := (x / unit * unit)%Z in
  let hi := (lo + unit)%Z in
  match reads_back x lo, reads_back x hi with
  | true, true =>
      Some (if (x - lo <? hi - x)%Z then lo
            else if (hi - x <? x - lo)%Z then hi
            else if Z.even (x / unit) then lo else hi)
  | true, false => Some lo
  | false, true => Some hi
  | false, false => None
  end.

(** The shortest decimal that reads back as the double [x] of [len]
    digits, trying [k], [k+1], ... significant digits; 17 always do. *)
Fixpoint shortest (x : Z) (len : Z) (k : nat) (fuel : nat) : Z :=
  match fuel with
  | O => x
  | S fuel' =>
      let p := (len - Z.of_nat k)%Z in
      if (p <=? 0)%Z then x
      else match rounded x p with
           | Some v => v
           | None => shortest x len (S k) fuel'
           end
  end.

Fixpoint strip_zeros_front (s : string) : string :=
  match s with
  | String "0" r => strip_zeros_front r
  | _ => s
  end.

Definition strip_zeros (s : string) : string :=
  rev_string (strip_zeros_front (rev_string s)).

(** The numeral of a positive decimal: in full up to 21 digits, else
    [d.ddde+NN]. *)
Definition numeral_of (v : Z) : string :=
  let all := string_of_Z v in
  let n := String.length all in
  if (n <=? 21)%nat then all
  else
    match strip_zeros all with
    | String d "" => String d "" ++ "e+" ++ string_of_Z (Z.of_nat n - 1)
    | String d rest =>
        String d "" ++ "." ++ rest ++ "e+" ++ string_of_Z (Z.of_nat n - 1)
    | "" => all
    end.

(** Up to [2^53] every integer is a double and its own numeral. *)
Definition Number_toString (n : Z) : string :=
  if (Z.abs n <=? 2 ^ 53)%Z then string_of_Z n
  else
    let x := nearest_double (Z.abs n) in
    let sign := if (n <? 0)%Z then "-" else "" in
    if (2 ^ 1024 <=? x)%Z then sign ++ "Infinity"
    else sign ++ numeral_of (shortest x (Z.of_nat (String.length (string_of_Z x))) 1 17).

(** [ToString]: what a template literal interpolates. *)
Fixpoint ToString (v : JSValue) : string :=
  match v with
  | JUndefined => "undefined"
  | JNull => "null"
  | JBool true => "true"
  | JBool false => "false"
  | JNum n => Number_toString n
  | JFraction numeral => numeral
  | JStr s => s
  | JArr items =>
      (fix join (l : list JSValue) : string :=
         match l with
         | [] => ""
         | [x] => if nullish x then "" else ToString x
         | x :: rest => (if nullish x then "" else ToString x) ++ "," ++ join rest
         end) items
  | JObj _ => "[object Object]"
  end.

(** Interpolation of a nullable string field such as [state.topic]. *)
Definition show_nullable (o : option string) : string :=
  match o with
  | Some s => s
  | None => "null"
  end.

(** *** Strings *)

Definition code (c : ascii) : nat := nat_of_ascii c.

(** White space and line terminators of [\s] and [trim] (the ASCII ones). *)
Definition is_ws (c : ascii) : bool :=
  match code c with
  | 9 | 10 | 11 | 12 | 13 | 32 => true
  | _ => false
  end.

Fixpoint trimStart (s : string) : string :=
  match s with
  | "" => ""
  | String c r => if is_ws c then trimStart r else s
  end.

Definition trimEnd (s : string) : string := rev_string (trimStart (rev_string s)).

Definition trim (s : string) : string := trimEnd (trimStart s).

Definition startsWith (s p : string) : bool := prefix p s.

Definition endsWith (s p : string) : bool := prefix (rev_string p) (rev_string s).

Fixpoint drop (n : nat) (s : string) : string :=
  match n, s with
  | O, _ => s
  | S k, "" => ""
  | S k, String _ r => drop k r
  end.

Fixpoint repeat_string (s : string) (n : nat) : string :=
  match n with
  | O => ""
  | S k => s ++ repeat_string s k
  end.

Definition upper_char (c : ascii) : ascii :=
  let n := code c in
  if ((97 <=? n) && (n <=? 122))%nat then ascii_of_nat (n - 32) else c.

Fixpoint toUpperCase (s : string) : string :=
  match s with
  | "" => ""
  | String c r => String (upper_char c) (toUpperCase r)
  end.

Definition lower_char (c : ascii) : ascii :=
  let n := code c in
  if ((65 <=? n) && (n <=? 90))%nat then ascii_of_nat (n + 32) else c.

Fixpoint toLowerCase (s : string) : string :=
  match s with
  | "" => ""
  | String c r => String (lower_char c) (toLowerCase r)
  end.

(** [s.split(sep)] for a non-empty separator: [skip] counts the characters
    of a separator just matched that are still to be passed over. *)
Fixpoint split_aux (sep : string) (skip : nat) (cur : string) (s : string)
  : list string :=
  match s with
  | "" => [cur]
  | String c r =>
      match skip with
      | S k => split_aux sep k cur r
      | O =>
          if prefix sep s
          then cur :: split_aux sep (String.length sep - 1) "" r
          else split_aux sep O (cur ++ String c "") r
      end
  end.

Definition split (s sep : string) : list string := split_aux sep O "" s.

(** [s.replace(/c/g, by)] for a one-character pattern. *)
Fixpoint replaceAll (c : ascii) (by_ : string) (s : string) : string :=
  match s with
  | "" => ""
  | String d r =>
      if Ascii.eqb d c then by_ ++ replaceAll c by_ r
      else String d (replaceAll c by_ r)
  end.

(** [arr.push(x)]. *)
Definition push {A : Type} (l : list A) (x : A) : list A := (l ++ [x])%list.

(** [arr.join(sep)]. *)
Fixpoint join (sep : string) (l : list string) : string :=
  match l with
  | [] => ""
  | [x] => x
  | x :: rest => x ++ sep ++ join sep rest
  end.

(** *** [parseInt] *)

Definition digit_value (radix : Z) (c : ascii) : option Z :=
  let n := Z.of_nat (code c) in
  let d :=
    (if (48 <=? n) && (n <=? 57) then Some (n - 48)
     else if (97 <=? n) && (n <=? 122) then Some (n - 87)
     else if (65 <=? n) && (n <=? 90) then Some (n - 55)
     else None)%Z in
  match d with
  | Some v => if (v <? radix)%Z then Some v else None
  | None => None
  end.

(** Reads the longest run of digits; [None] when there is none. *)
Fixpoint read_digits (radix : Z) (acc : option Z) (s : string) : option Z :=
  match s with
  | "" => acc
  | String c r =>
      match digit_value radix c with
      | Some d =>
          read_digits radix
            (Some (match acc with Some a => a * radix + d | None => d end)%Z) r
      | None => acc
      end
  end.

(** The white space [parseInt] skips before the sign: the code points of
    WhiteSpace and LineTerminator, the wide ones by the three bytes of
    their UTF-8 form (U+1680, U+2000 to U+200A, U+2028, U+2029, U+202F,
    U+205F, U+3000, U+FEFF) and U+00A0 by its two. *)
Definition wide_space (a b c : nat) : bool :=
  ((a =? 225) && (b =? 154) && (c =? 128))%nat
  || ((a =? 226) && (b =? 128)
      && (((128 <=? c) && (c <=? 138)) || (c =? 168) || (c =? 169) || (c =? 175)))%nat
  || ((a =? 226) && (b =? 129) && (c =? 159))%nat
  || ((a =? 227) && (b =? 128) && (c =? 128))%nat
  || ((a =? 239) && (b =? 187) && (c =? 191))%nat.

Fixpoint skip_white_space (s : string) : string :=
  match s with
  | "" => ""
  | String a r =>
      if is_ws a then skip_white_space r
      else
        match r with
        | "" => s
        | String b r' =>
            if ((code a =? 194) && (code b =? 160))%nat then skip_white_space r'
            else
              match r' with
              | "" => s
              | String c r'' =>
                  if wide_space (code a) (code b) (code c) then skip_white_space r''
                  else s
              end
        end
  end.

Definition parseInt_string (s : string) : JSNum :=
  let s1 := skip_white_space s in
  let '(sign, s2) :=
    match s1 with
    | String "-" r => ((-1)%Z, r)
    | String "+" r => (1%Z, r)
    | _ => (1%Z, s1)
    end in
  let '(radix, s3) :=
    if prefix "0x" s2 || prefix "0X" s2 then (16%Z, drop 2 s2) else (10%Z, s2) in
  match read_digits radix None s3 with
  | Some n => Num (sign * n)
  | None => NaN
  end.

(** [x || d] on a number: NaN and 0 are falsy. *)
Definition num_or (x : JSNum) (d : Z) : Z :=
  match x with
  | NaN => d
  | Num n => if (n =? 0)%Z then d else n
  end.

End JS.

(* ================================================================== *)
(** ** Completion of a computation: normal or abrupt *)
(* ================================================================== *)

Module Outcome.
Import JS.

Inductive Outcome (A : Type) : Type :=
| Returned (a : A)
| Thrown (e : JSError).

Arguments Returned {A} a.
Arguments Thrown {A} e.

Definition bind {A B : Type} (m : Outcome A) (k : A -> Outcome B) : Outcome B :=
  match m with
  | Returned a => k a
  | Thrown e => Thrown e
  end.

Definition is_thrown {A : Type} (m : Outcome A) : bool :=
  match m with
  | Returned _ => false
  | Thrown _ => true
  end.

End Outcome.

Import Outcome.

Notation "'let?' x ':=' m 'in' k" := (Outcome.bind m (fun x => k))
  (at level 10, x name, m at level 100, k at level 200).

(* ================================================================== *)
(** ** Conversion to a string by the built-ins, and [parseInt] *)
(* ================================================================== *)

Module Conversion.
Import JS.

(** [ToString] as [parseInt] and [Array.prototype.join] apply it to a value
    read from JSON.  Such a value holds no function: an object with an own
    [toString] member has no callable [toString], [valueOf] of
    [Object.prototype] gives back the object, and the conversion throws a
    TypeError.  Any other object is "[object Object]"; an array is the join
    of its elements, each converted the same way ([null] and [undefined]
    as the empty string). *)
Fixpoint to_text (v : JSValue) : Outcome string :=
  match v with
  | JObj fields =>
      match assoc "toString" fields with
      | Some _ => Thrown (TypeError "Cannot convert object to primitive value")
      | None => Returned "[object Object]"
      end
  | JArr items =>
      (fix join (l : list JSValue) : Outcome string :=
         match l with
         | [] => Returned ""
         | [x] => if nullish x then Returned "" else to_text x
         | x :: rest =>
             let? a := (if nullish x then Returned "" else to_text x) in
             let? b := join rest in
             Returned (a ++ "," ++ b)
         end) items
  | _ => Returned (ToString v)
  end.

(** [parseInt(v)] reads the leading integer of [ToString(v)], and throws
    when the conversion throws.  Below 1e21 the numeral of an integer is the
    decimal one, which reads back as the same number; from 1e21 on it is in
    exponent notation, of which [parseInt] reads the digits before the
    point or the [e]. *)
Definition parseInt (v : JSValue) : Outcome JSNum :=
  match v with
  | JNum n =>
      Returned (if (Z.abs n <? 10 ^ 21)%Z then Num n
                else parseInt_string (Number_toString n))
  | _ => let? s := to_text v in Returned (parseInt_string s)
  end.

End Conversion.

(* ================================================================== *)
(** ** Property access and method calls that can throw *)
(* ================================================================== *)

Module Access.
Import JS.

(** [v.key] for the keys the sources read ( [classification], [reason],
    [detectedTopic], [title], ... ): none of them is a member of a
    prototype, so they are found on an object's own fields only.  Reading a
    property of [null] or [undefined] throws. *)
Definition get (v : JSValue) (key : string) : Outcome JSValue :=
  match v with
  | JUndefined | JNull =>
      Thrown (TypeError ("Cannot read properties of " ++ ToString v))
  | JObj fields =>
      Returned (match assoc key fields with Some x => x | None => JUndefined end)
  | JBool _ | JNum _ | JFraction _ | JStr _ | JArr _ => Returned JUndefined
  end.

(** The receiver of a string method ([trim], [replace], [substring],
    [toUpperCase]): anything but a string has no such method. *)
Definition as_string (v : JSValue) (method : string) : Outcome string :=
  match v with
  | JStr s => Returned s
  | JUndefined | JNull =>
      Thrown (TypeError ("Cannot read properties of " ++ ToString v))
  | _ => Thrown (TypeError (method ++ " is not a function"))
  end.

(** The receiver of [map]. *)
Definition as_array (v : JSValue) : Outcome (list JSValue) :=
  match v with
  | JArr items => Returned items
  | JUndefined | JNull =>
      Thrown (TypeError ("Cannot read properties of " ++ ToString v))
  | _ => Thrown (TypeError "map is not a function")
  end.

(** [items.map(f)] for a callback that can throw. *)
Fixpoint map_outcome {A B : Type} (f : A -> Outcome B) (l : list A)
  : Outcome (list B) :=
  match l with
  | [] => Returned []
  | x :: rest =>
      let? y := f x in
      let? ys := map_outcome f rest in
      Returned (y :: ys)
  end.

End Access.

(* ================================================================== *)
(** ** The template renderer of [mediaEngine.js] *)
(* ================================================================== *)

Module Renderer.
Import JS Access.

Record Theme : Type := {
  gradient : string * string * string;
  accent : string;
  accentAlt : string;
  icon : string;
  visualType : string
}.

Definition theme_dsa : Theme :=
  {| gradient := ("#0f0c29", "#302b63", "#24243e");
     accent := "#7c5dfa"; accentAlt := "#a78bfa";
     icon := "🌳"; visualType := "tree" |}.

Definition theme_web : Theme :=
  {| gradient := ("#0c1220", "#1a365d", "#1e3a5f");
     accent := "#3b82f6"; accentAlt := "#06b6d4";
     icon := "🌐"; visualType := "stack" |}.

Definition theme_system_design : Theme :=
  {| gradient := ("#0c0c1d", "#1b1b4b", "#2d1b69");
     accent := "#e879f9"; accentAlt := "#a855f7";
     icon := "🏗️"; visualType := "architecture" |}.

Definition theme_database : Theme :=
  {| gradient := ("#0c1a0c", "#1a3a2a", "#0d2818");
     accent := "#10b981"; accentAlt := "#34d399";
     icon := "🗄️"; visualType := "table" |}.

Definition theme_os : Theme :=
  {| gradient := ("#1a0c0c", "#3a1a1a", "#2d1420");
     accent := "#f59e0b"; accentAlt := "#fbbf24";
     icon := "⚙️"; visualType := "process" |}.

Definition theme_networking : Theme :=
  {| gradient := ("#0c1a20", "#1a2d3d", "#0d2d3a");
     accent := "#06b6d4"; accentAlt := "#22d3ee";
     icon := "🔗"; visualType := "network" |}.

Definition theme_oop : Theme :=
  {| gradient := ("#1a0c20", "#2d1b40", "#3a1c5a");
     accent := "#c084fc"; accentAlt := "#e879f9";
     icon := "🔷"; visualType := "class" |}.

Definition theme_general : Theme :=
  {| gradient := ("#0c0c1d", "#1a1040", "#1e1050");
     accent := "#7c5dfa"; accentAlt := "#e879f9";
     icon := "💡"; visualType := "general" |}.

(** What [CATEGORY_THEMES[key]] evaluates to: one of the eight themes, a
    member inherited from [Object.prototype] (truthy, and no theme), or
    [undefined]. *)
Inductive ThemeSlot : Type :=
| OwnTheme (t : Theme)
| PrototypeMember
| NoProperty.

Definition object_prototype_keys : list string :=
  [ "constructor"; "hasOwnProperty"; "isPrototypeOf"; "propertyIsEnumerable";
    "toLocaleString"; "toString"; "valueOf"; "__proto__";
    "__defineGetter__"; "__defineSetter__"; "__lookupGetter__";
    "__lookupSetter__" ].

Definition CATEGORY_THEMES (key : string) : ThemeSlot :=
  if key =? "dsa" then OwnTheme theme_dsa
  else if key =? "web" then OwnTheme theme_web
  else if key =? "system-design" then OwnTheme theme_system_design
  else if key =? "database" then OwnTheme theme_database
  else if key =? "os" then OwnTheme theme_os
  else if key =? "networking" then OwnTheme theme_networking
  else if key =? "oop" then OwnTheme theme_oop
  else if key =? "general" then OwnTheme theme_general
  else if existsb (String.eqb key) object_prototype_keys then PrototypeMember
  else NoProperty.

(** [escapeXml]: the five replacements in the order of the source. *)
Definition escapeXml (str : string) : string :=
  replaceAll "'" "&apos;"
    (replaceAll (ascii_of_nat 34) "&quot;"
       (replaceAll ">" "&gt;"
          (replaceAll "<" "&lt;"
             (replaceAll "&" "&amp;" str)))).

(** [escapeXml(v)] on an arbitrary value: [str.replace] exists on strings only. *)
Definition escapeXml_value (v : JSValue) : Outcome string :=
  let? str := as_string v "str.replace" in
  Returned (escapeXml str).

(** The decorative fragment chosen by [generateVisualElements]. *)
Inductive Motif : Type :=
| MotifTree | MotifStack | MotifArchitecture | MotifTable
| MotifNetwork | MotifProcess | MotifClass | MotifGeneric.

Definition generateVisualElements (theme : Theme) : Motif :=
  let v := visualType theme in
  if v =? "tree" then MotifTree
  else if v =? "stack" then MotifStack
  else if v =? "architecture" then MotifArchitecture
  else if v =? "table" then MotifTable
  else if v =? "network" then MotifNetwork
  else if v =? "process" then MotifProcess
  else if v =? "class" then MotifClass
  else MotifGeneric.

(** The centres of the dot grid: x and y run from 40 in steps of 40 below
    700 and 560. *)
Definition generateDotGrid : list (Z * Z) :=
  flat_map (fun x => map (fun y => (x, y)) (map (fun j => 40 * Z.of_nat j)%Z (seq 1 13)))
           (map (fun i => 40 * Z.of_nat i)%Z (seq 1 17)).

Record ConceptCard : Type := {
  card_x : Z;
  card_y : Z;
  card_width : Z;
  card_color : string;
  card_label : string;      (* the text of the first <text> element *)
  card_caption : Z          (* "Concept ${i + 1}" *)
}.

Fixpoint mapi_from {A B : Type} (i : nat) (f : nat -> A -> B) (l : list A) : list B :=
  match l with
  | [] => []
  | x :: rest => f i x :: mapi_from (S i) f rest
  end.

Definition mapi {A B : Type} (f : nat -> A -> B) (l : list A) : list B :=
  mapi_from 0 f l.

Definition generateConceptCards (concepts : list string) (theme : Theme)
  : list ConceptCard :=
  let cardWidth := 145%Z in
  let startX := 36%Z in
  let y := 152%Z in
  let gap := 8%Z in
  mapi (fun i concept =>
          let x := (startX + Z.of_nat i * (cardWidth + gap))%Z in
          let chipColors := [accent theme; accentAlt theme; "#10b981"; "#f59e0b"] in
          let color := nth (i mod List.length chipColors) chipColors "" in
          {| card_x := x; card_y := y; card_width := cardWidth;
             card_color := color;
             card_label := substring 0 18 concept;
             card_caption := Z.of_nat i + 1 |})
       concepts.

(** *** The code block *)

Definition nonblank (l : string) : bool := (0 <? String.length (trim l))%nat.

(** [s.replace(/;\s*/g, ";\n")]: [eating] is set while the white space
    after a semicolon is being consumed. *)
Fixpoint break_after_semicolons (eating : bool) (s : string) : string :=
  match s with
  | "" => ""
  | String c r =>
      if eating && is_ws c then break_after_semicolons true r
      else if Ascii.eqb c ";" then ";" ++ nl ++ break_after_semicolons true r
      else String c (break_after_semicolons false r)
  end.

(** One turn of the indentation loop over [parts]. *)
Definition indent_step (st : list string * nat) (part : string) : list string * nat :=
  let '(codeLines, indent) := st in
  let trimmed := trim part in
  let indent := if startsWith trimmed "}" then Nat.pred indent else indent in
  let codeLines := push codeLines (repeat_string "  " indent ++ trimmed) in
  let indent := if endsWith trimmed "{" then S indent else indent in
  (codeLines, indent).

(** One turn of the word-wrapping loop over [words]. *)
Definition wrap_step (st : list string * string) (word : string) : list string * string :=
  let '(codeLines, currentLine) := st in
  if ((50 <? String.length (currentLine ++ " " ++ word))
      && (0 <? String.length currentLine))%nat
  then (push codeLines currentLine, "  " ++ word)
  else (codeLines,
        if (currentLine =? "") then word else currentLine ++ " " ++ word).

Definition split_code_lines (codeLine : string) : list string :=
  let codeLines := filter nonblank (split codeLine "\n") in
  let codeLines :=
    if ((List.length codeLines <=? 1) && (50 <? String.length codeLine))%nat then
      let singleLine := match codeLines with l :: _ => l | [] => codeLine end in
      let parts :=
        filter nonblank
          (split
             (break_after_semicolons false
                (replaceAll "}" (nl ++ "}" ++ nl)
                   (replaceAll "{" ("{" ++ nl) singleLine)))
             nl) in
      if (1 <? List.length parts)%nat then
        fst (fold_left indent_step parts ([], O))
      else
        let words := split singleLine " " in
        let '(codeLines, currentLine) := fold_left wrap_step words ([], "") in
        if currentLine =? "" then codeLines else push codeLines currentLine
    else codeLines in
  firstn 10 codeLines.

Record CodeBlock : Type := {
  panel_height : Z;
  line_numbers : list (Z * Z);      (* y and the number printed *)
  code_lines : list (Z * string)    (* y and the text of the line *)
}.

Definition generateCodeBlock (codeLine : string) (theme : Theme) : CodeBlock :=
  let codeLines := split_code_lines codeLine in
  {| panel_height := 24 + Z.of_nat (List.length codeLines) * 18;
     line_numbers := mapi (fun i _ => (274 + Z.of_nat i * 18, Z.of_nat i + 1)%Z) codeLines;
     code_lines := mapi (fun i line => (274 + Z.of_nat i * 18, line)%Z) codeLines |}.

(** [generateTipSection]: the callout's text. *)
Definition generateTipSection (tip : string) : string := tip.

(** The document [generateTopicSVG] returns, as the values that fill the
    holes of its template (the template's fixed text is the same for every
    input). *)
Record SvgDoc : Type := {
  doc_theme : Theme;
  doc_dots : list (Z * Z);
  doc_visual : Motif;
  doc_category_label : string;
  doc_title : string;
  doc_subtitle : string;
  doc_cards : list ConceptCard;
  doc_code : option CodeBlock;
  doc_tip : option string
}.

Definition generateTopicSVG (meta : JSValue) : Outcome SvgDoc :=
  let? category := get meta "category" in
  let slot := CATEGORY_THEMES (ToString category) in
  let? title := get meta "title" in
  let? safeTitle := escapeXml_value (js_or title (JStr "Topic")) in
  let? subtitle := get meta "subtitle" in
  let? safeSubtitle := escapeXml_value (js_or subtitle (JStr "")) in
  let? keyConcepts := get meta "keyConcepts" in
  let? items := as_array (js_or keyConcepts (JArr [])) in
  let? concepts := map_outcome escapeXml_value items in
  let? codeSnippet := get meta "codeSnippet" in
  let? snippet := as_string (js_or codeSnippet (JStr "")) "substring" in
  let codeLine := escapeXml (substring 0 300 snippet) in
  let? interviewTip := get meta "interviewTip" in
  let? tipText := as_string (js_or interviewTip (JStr "")) "substring" in
  let tip := escapeXml (substring 0 80 tipText) in
  (* [theme.gradient[0]] is read when the template is filled: a member of
     the prototype has no gradient *)
  let? theme :=
    match slot with
    | OwnTheme t => Returned t
    | NoProperty => Returned theme_general
    | PrototypeMember => Thrown (TypeError "Cannot read properties of undefined")
    end in
  let visualElements := generateVisualElements theme in
  let conceptCards := generateConceptCards concepts theme in
  let codeBlock := if codeLine =? "" then None else Some (generateCodeBlock codeLine theme) in
  let tipSection := if tip =? "" then None else Some (generateTipSection tip) in
  let? label := as_string (js_or category (JStr "general")) "toUpperCase" in
  Returned
    {| doc_theme := theme;
       doc_dots := generateDotGrid;
       doc_visual := visualElements;
       doc_category_label := escapeXml (toUpperCase label);
       doc_title := safeTitle;
       doc_subtitle := safeSubtitle;
       doc_cards := conceptCards;
       doc_code := codeBlock;
       doc_tip := tipSection |}.

(** The free-text values embedded in the document, in document order. *)
Definition text_slots (doc : SvgDoc) : list string :=
  ([doc_category_label doc; doc_title doc; doc_subtitle doc]
   ++ map card_label (doc_cards doc)
   ++ match doc_code doc with
      | Some b => map snd (code_lines b)
      | None => []
      end
   ++ match doc_tip doc with
      | Some t => [t]
      | None => []
      end)%list.

(** *** Character data that needs no further escaping

    A text is well escaped when it holds none of [<], [>], the double quote
    and the apostrophe, and every [&] in it starts one of the five entity
    references. *)
Definition entities : list string :=
  ["&amp;"; "&lt;"; "&gt;"; "&quot;"; "&apos;"].

Fixpoint well_escaped (s : string) : bool :=
  match s with
  | "" => true
  | String c r =>
      (if Ascii.eqb c "&" then existsb (fun e => prefix e s) entities
       else negb (Ascii.eqb c "<" || Ascii.eqb c ">"
                  || Ascii.eqb c (ascii_of_nat 34) || Ascii.eqb c "'"))
      && well_escaped r
  end.

(** Characters that occur inside an entity reference after its ampersand. *)
Definition interior (c : ascii) : bool :=
  existsb (Ascii.eqb c) (list_ascii_of_string "amp;ltgquos").

(** A text before which another text can be cut off without cutting an
    entity reference: it is empty or starts outside one. *)
Definition cut_safe (b : string) : Prop :=
  match b with
  | "" => True
  | String c _ => interior c = false
  end.

Definition all_well_escaped (l : list string) : Prop :=
  Forall (fun p => well_escaped p = true) l.

End Renderer.

(* ================================================================== *)
(** ** The world outside the stages *)
(* ================================================================== *)

Module Env.
Import JS Renderer.

(** Library functions of the runtime.  [JSON_parse] answers [None] where
    [JSON.parse] throws a [SyntaxError]; [base64] is
    [Buffer.from(s).toString('base64')]; [svg_text] is the fixed text of the
    template of [generateTopicSVG] around the values of an [SvgDoc]. *)
Record Runtime : Type := {
  JSON_parse : string -> option JSValue;
  base64 : string -> string;
  svg_text : SvgDoc -> string
}.

(** What a [ChatGroq] model call does: it throws, or it returns a message
    whose [content] is the given value. *)
Inductive ModelReply : Type :=
| ModelThrows (e : JSError)
| ModelReturns (content : JSValue).

(** A chat completion of the Groq SDK, as far as
    [completion.choices[0]?.message?.content] looks into it: [choices] is
    missing, or the chain yields the given value ([JUndefined] when a link
    is absent). *)
Inductive ChatCompletion : Type :=
| ChoicesMissing
| FirstContent (content : JSValue).

Inductive GroqReply : Type :=
| GroqThrows (e : JSError)
| GroqReturns (c : ChatCompletion).

(** The variable parts of the prompts. *)
Record WalkthroughRequest : Type := {
  req_words : Z;
  req_label : string;
  req_minutes : Z;
  req_subject : string
}.

Record NarrationRequest : Type := {
  nar_minutes : Z;
  nar_words : Z;
  nar_content : string
}.

Record World : Type := {
  classifier : string -> ModelReply;              (* user turn: the query *)
  teacher : WalkthroughRequest -> ModelReply;
  illustrator : string -> GroqReply;              (* the topic interpolated *)
  narrator : NarrationRequest -> GroqReply;
  VERCEL : bool;                                  (* process.env.VERCEL is set *)
  Date_now : Z;
  publicDir : string;
  writeFileSync : string -> string -> option JSError   (* [None]: written *)
}.

(** What a run leaves behind: files written and lines sent to
    [console.error]. *)
Record Sys : Type := {
  files : list (string * string);
  console : list string
}.

Definition fresh : Sys := {| files := []; console := [] |}.

End Env.

(* ================================================================== *)
(** ** Computations with effects *)
(* ================================================================== *)

Module Eff.
Import JS Env.

Definition M (A : Type) : Type := Sys -> Outcome A * Sys.

Definition ret {A : Type} (a : A) : M A := fun s => (Returned a, s).

Definition throw {A : Type} (e : JSError) : M A := fun s => (Thrown e, s).

Definition bind {A B : Type} (m : M A) (k : A -> M B) : M B :=
  fun s =>
    match m s with
    | (Returned a, s') => k a s'
    | (Thrown e, s') => (Thrown e, s')
    end.

Definition lift {A : Type} (o : Outcome A) : M A := fun s => (o, s).

(** [try { body } catch (error) { handler }]. *)
Definition try_catch {A : Type} (body : M A) (handler : JSError -> M A) : M A :=
  fun s =>
    match body s with
    | (Returned a, s') => (Returned a, s')
    | (Thrown e, s') => handler e s'
    end.

Definition console_error (line : string) : M unit :=
  fun s => (Returned tt, {| files := files s; console := push (console s) line |}).

Definition fs_writeFileSync (w : World) (path content : string) : M unit :=
  fun s =>
    match writeFileSync w path content with
    | Some e => (Thrown e, s)
    | None =>
        (Returned tt, {| files := push (files s) (path, content); console := console s |})
    end.

Definition await_model (r : ModelReply) : M JSValue :=
  match r with
  | ModelThrows e => throw e
  | ModelReturns content => ret content
  end.

Definition await_groq (r : GroqReply) : M ChatCompletion :=
  match r with
  | GroqThrows e => throw e
  | GroqReturns c => ret c
  end.

End Eff.

Import Eff.

Notation "x <- m ;; k" := (Eff.bind m (fun x => k))
  (at level 61, m at next level, right associativity).
Notation "m ;;; k" := (Eff.bind m (fun _ => k))
  (at level 61, right associativity).

(* ================================================================== *)
(** ** The shared state ([graph.js], "Shared State Schema") *)
(* ================================================================== *)

Module State.
Import JS.

(** [null] is [None].  [classification] holds whatever the supervisor
    copied out of the model's answer, hence a [JSValue]. *)
Record PipelineState : Type := {
  query : string;
  duration : Z;
  topic : option string;
  rejected : bool;
  rejectionReason : option string;
  classification : JSValue;
  markdown : option string;
  imageUrl : option string;
  audioText : option string;
  mediaFailed : bool
}.

(** [{ ...state, rejected, rejectionReason, classification }] *)
Definition with_rejection (st : PipelineState) (reason : string) (c : JSValue)
  : PipelineState :=
  {| query := query st; duration := duration st; topic := topic st;
     rejected := true; rejectionReason := Some reason; classification := c;
     markdown := markdown st; imageUrl := imageUrl st;
     audioText := audioText st; mediaFailed := mediaFailed st |}.

(** [{ ...state, rejected: false, topic, classification }] *)
Definition with_acceptance (st : PipelineState) (t : string) (c : JSValue)
  : PipelineState :=
  {| query := query st; duration := duration st; topic := Some t;
     rejected := false; rejectionReason := rejectionReason st;
     classification := c;
     markdown := markdown st; imageUrl := imageUrl st;
     audioText := audioText st; mediaFailed := mediaFailed st |}.

(** [{ ...state, markdown }] *)
Definition with_markdown (st : PipelineState) (md : string) : PipelineState :=
  {| query := query st; duration := duration st; topic := topic st;
     rejected := rejected st; rejectionReason := rejectionReason st;
     classification := classification st;
     markdown := Some md; imageUrl := imageUrl st;
     audioText := audioText st; mediaFailed := mediaFailed st |}.

(** [{ ...state, imageUrl, audioText, mediaFailed }] *)
Definition with_media (st : PipelineState) (img aud : option string) (failed : bool)
  : PipelineState :=
  {| query := query st; duration := duration st; topic := topic st;
     rejected := rejected st; rejectionReason := rejectionReason st;
     classification := classification st;
     markdown := markdown st; imageUrl := img;
     audioText := aud; mediaFailed := failed |}.

(** Truthiness of a nullable string: [null] and the empty string are falsy. *)
Definition present (o : option string) : bool :=
  match o with
  | Some s => negb (s =? "")
  | None => false
  end.

End State.

(* ================================================================== *)
(** ** [supervisor.js] *)
(* ================================================================== *)

Module Supervisor.
Import JS Access Env State.

(** [text.replace(/^```(?:json)?\s*/i, "")] *)
Definition strip_leading_fence (text : string) : string :=
  if prefix "```" text then
    let rest := drop 3 text in
    let rest := if prefix "json" (toLowerCase (substring 0 4 rest)) then drop 4 rest else rest in
    trimStart rest
  else text.

(** [text.replace(/\s*```$/i, "")] *)
Definition strip_trailing_fence (text : string) : string :=
  if endsWith text "```" then
    trimEnd (substring 0 (String.length text - 3) text)
  else text.

(** The text handed to [JSON.parse]: trimmed, code fences stripped. *)
Definition unfenced (content : string) : string :=
  strip_trailing_fence (strip_leading_fence (trim content)).

Definition parse (rt : Runtime) (text : string) : Outcome JSValue :=
  match JSON_parse rt text with
  | Some v => Returned v
  | None => Thrown (SyntaxError "Unexpected token")
  end.

Definition harmful_notice (reason : JSValue) : string :=
  "⚠️ This query was flagged as harmful: " ++ ToString reason.

Definition irrelevant_notice (reason : JSValue) : string :=
  "🚫 This query is not related to placement preparation: " ++ ToString reason.

Definition runSupervisor (rt : Runtime) (w : World) (state : PipelineState)
  : M PipelineState :=
  try_catch
    (content <- await_model (classifier w (query state)) ;;
     text <- lift (as_string content "response.content.trim") ;;
     let text := unfenced text in
     result <- lift (parse rt text) ;;
     cls <- lift (get result "classification") ;;
     if negb (strict_eq_str cls "placement_topic") then
       reason <- lift (get result "reason") ;;
       ret (with_rejection state
              (if strict_eq_str cls "harmful"
               then harmful_notice reason
               else irrelevant_notice reason)
              cls)
     else
       ret (with_acceptance state (query state) cls))
    (fun error =>
       console_error ("Supervisor agent error: " ++ message error) ;;;
       ret (with_acceptance state (query state) (JStr "placement_topic"))).

End Supervisor.

(* ================================================================== *)
(** ** [researcher.js] *)
(* ================================================================== *)

Module Researcher.
Import JS Access Env State.

Record Config : Type := { words : Z; label : string }.

Definition DURATION_MAP (minutes : Z) : option Config :=
  if (minutes =? 2)%Z then Some {| words := 300; label := "concise" |}
  else if (minutes =? 3)%Z then Some {| words := 450; label := "moderate" |}
  else if (minutes =? 4)%Z then Some {| words := 600; label := "detailed" |}
  else if (minutes =? 5)%Z then Some {| words := 750; label := "comprehensive" |}
  else None.

Definition moderate : Config := {| words := 450; label := "moderate" |}.

(** The fragment substituted when the model call fails. *)
Definition apology (state : PipelineState) (error : JSError) : string :=
  "## ⚠️ Content Generation Error" ++ nl ++ nl
  ++ "We encountered an issue generating content for "
  ++ quoted (show_nullable (topic state)) ++ ". Please try again."
  ++ nl ++ nl ++ "*Error: " ++ message error ++ "*".

Definition runResearcher (rt : Runtime) (w : World) (state : PipelineState)
  : M PipelineState :=
  if rejected state then ret state
  else
    try_catch
      (let duration := num_or (Num (duration state)) 3 in
       let config := match DURATION_MAP duration with
                     | Some c => c
                     | None => moderate
                     end in
       content <- await_model
                    (teacher w
                       {| req_words := words config;
                          req_label := label config;
                          req_minutes := duration;
                          req_subject := if present (topic state)
                                         then show_nullable (topic state)
                                         else query state |}) ;;
       text <- lift (as_string content "response.content.trim") ;;
       ret (with_markdown state (trim text)))
      (fun error =>
         console_error ("Researcher agent error: " ++ message error) ;;;
         ret (with_markdown state (apology state error))).

End Researcher.

(* ================================================================== *)
(** ** [mediaEngine.js]: the stage *)
(* ================================================================== *)

Module MediaEngine.
Import JS Access Env State Renderer.

(** [completion.choices[0]?.message?.content?.trim()] *)
Definition first_content_trimmed (c : ChatCompletion) : Outcome JSValue :=
  match c with
  | ChoicesMissing => Thrown (TypeError "Cannot read properties of undefined")
  | FirstContent v =>
      if nullish v then Returned JUndefined
      else
        let? s := as_string v "trim" in
        Returned (JStr (trim s))
  end.

Fixpoint from_char (c : ascii) (s : string) : option string :=
  match s with
  | "" => None
  | String d r => if Ascii.eqb d c then Some s else from_char c r
  end.

(** [raw.match(/\{[\s\S]*\}/)]: from the first opening brace to the last
    closing brace after it. *)
Definition match_braces (raw : string) : option string :=
  match from_char "{" raw with
  | None => None
  | Some s =>
      match from_char "}" (rev_string s) with
      | None => None
      | Some t => Some (rev_string t)
      end
  end.

(** The object of the inner [catch]. *)
Definition default_metadata (state : PipelineState) : JSValue :=
  JObj
    [ ("title", match topic state with Some t => JStr t | None => JNull end);
      ("subtitle", JStr "CSE Placement Preparation");
      ("keyConcepts",
       JArr [JStr "Concept 1"; JStr "Concept 2"; JStr "Concept 3"; JStr "Concept 4"]);
      ("category", JStr "general");
      ("codeSnippet", JStr "");
      ("interviewTip", JStr "Understand the fundamentals thoroughly.") ].

(** The body of the inner [try]. *)
Definition parse_metadata (rt : Runtime) (completion : ChatCompletion)
  : Outcome JSValue :=
  let? trimmed := first_content_trimmed completion in
  let? raw := as_string (js_or trimmed (JStr "{}")) "match" in
  let jsonMatch := match_braces raw in
  Supervisor.parse rt (match jsonMatch with Some m => m | None => raw end).

(** The inner [try ... catch]. *)
Definition read_metadata (rt : Runtime) (state : PipelineState)
  (completion : ChatCompletion) : JSValue :=
  match parse_metadata rt completion with
  | Returned meta => meta
  | Thrown _ => default_metadata state
  end.

(** The three variables the stage declares with [let]. *)
Record Locals : Type := {
  l_imageUrl : option string;
  l_audioText : option string;
  l_mediaFailed : bool
}.

(** [let imageUrl = null; let audioText = null; let mediaFailed = false;] *)
Definition initial_locals : Locals :=
  {| l_imageUrl := None; l_audioText := None; l_mediaFailed := false |}.

Definition data_url (rt : Runtime) (svgContent : string) : string :=
  "data:image/svg+xml;base64," ++ base64 rt svgContent.

(** The body of the first [try] block. *)
Definition image_try (rt : Runtime) (w : World) (state : PipelineState)
  (l : Locals) : M Locals :=
  completion <- await_groq (illustrator w (show_nullable (topic state))) ;;
  let imageMetadata := read_metadata rt state completion in
  doc <- lift (generateTopicSVG imageMetadata) ;;
  let svgContent := svg_text rt doc in
  if VERCEL w then
    ret {| l_imageUrl := Some (data_url rt svgContent);
           l_audioText := l_audioText l;
           l_mediaFailed := l_mediaFailed l |}
  else
    let imageFileName := "topic-" ++ string_of_Z (Date_now w) ++ ".svg" in
    let imagePath := publicDir w ++ "/" ++ imageFileName in
    fs_writeFileSync w imagePath svgContent ;;;
    ret {| l_imageUrl := Some ("/public/" ++ imageFileName);
           l_audioText := l_audioText l;
           l_mediaFailed := l_mediaFailed l |}.

(** The first [try] block with its [catch]. *)
Definition image_block (rt : Runtime) (w : World) (state : PipelineState)
  (l : Locals) : M Locals :=
  try_catch
    (image_try rt w state l)
    (fun error =>
       console_error ("Image generation error: " ++ message error) ;;;
       ret {| l_imageUrl := l_imageUrl l;
              l_audioText := l_audioText l;
              l_mediaFailed := true |}).

(** [x || null] on the narration: a non-empty string, or [null]. *)
Definition or_null (v : JSValue) : option string :=
  match v with
  | JStr s => if s =? "" then None else Some s
  | _ => None
  end.

(** The body of the second [try] block. *)
Definition audio_try (w : World) (state : PipelineState) (l : Locals) : M Locals :=
  let minutes := num_or (Num (duration state)) 3 in
  md <- lift (match markdown state with
              | Some md => Returned md
              | None => Thrown (TypeError "Cannot read properties of null")
              end) ;;
  completion <- await_groq
                  (narrator w
                     {| nar_minutes := minutes;
                        nar_words := minutes * 150;
                        nar_content := substring 0 3000 md |}) ;;
  trimmed <- lift (first_content_trimmed completion) ;;
  ret {| l_imageUrl := l_imageUrl l;
         l_audioText := or_null trimmed;
         l_mediaFailed := l_mediaFailed l |}.

(** The second [try] block with its [catch]. *)
Definition audio_block (w : World) (state : PipelineState) (l : Locals) : M Locals :=
  try_catch
    (audio_try w state l)
    (fun error =>
       console_error ("Audio script generation error: " ++ message error) ;;;
       ret {| l_imageUrl := l_imageUrl l;
              l_audioText := l_audioText l;
              l_mediaFailed := true |}).

Definition runMediaEngine (rt : Runtime) (w : World) (state : PipelineState)
  : M PipelineState :=
  if rejected state || negb (present (markdown state)) then ret state
  else
    l1 <- image_block rt w state initial_locals ;;
    l2 <- audio_block w state l1 ;;
    ret (with_media state (l_imageUrl l2) (l_audioText l2) (l_mediaFailed l2)).

End MediaEngine.

(* ================================================================== *)
(** ** [graph.js]: initial state, routing, and the compiled graph *)
(* ================================================================== *)

Module Graph.
Import JS Access Env State.

Definition createInitialState (query : string) (duration : JSNum) : PipelineState :=
  {| query := query;
     duration := Z.min 5 (Z.max 2 (num_or duration 3));
     topic := None;
     rejected := false;
     rejectionReason := None;
     classification := JNull;
     markdown := None;
     imageUrl := None;
     audioText := None;
     mediaFailed := false |}.

Definition routeAfterSupervisor (state : PipelineState) : string :=
  if rejected state then "end" else "researcher".

Inductive Node : Type :=
| supervisor
| researcher
| mediaEngine
| END.

(** The stage a node runs. *)
Definition node_action (rt : Runtime) (w : World) (n : Node)
  : PipelineState -> M PipelineState :=
  match n with
  | supervisor => Supervisor.runSupervisor rt w
  | researcher => Researcher.runResearcher rt w
  | mediaEngine => MediaEngine.runMediaEngine rt w
  | END => ret
  end.

(** The mapping given to [addConditionalEdges]. *)
Definition conditional_edges (key : string) : option Node :=
  if key =? "researcher" then Some researcher
  else if key =? "end" then Some END
  else None.

(** The edges: conditional after the supervisor, linear after that. *)
Definition next_node (n : Node) (state : PipelineState) : Outcome Node :=
  match n with
  | supervisor =>
      match conditional_edges (routeAfterSupervisor state) with
      | Some target => Returned target
      | None => Thrown (TypeError "unknown branch")
      end
  | researcher => Returned mediaEngine
  | mediaEngine => Returned END
  | END => Returned END
  end.

(** The reducer of every channel, [(a, b) => b ?? a], at the three kinds of
    field: never null, nullable string, and arbitrary value. *)
Definition keep {A : Type} (a b : A) : A := b.

Definition coalesce_opt {A : Type} (a b : option A) : option A :=
  match b with
  | Some _ => b
  | None => a
  end.

Definition coalesce_value (a b : JSValue) : JSValue := js_coalesce b a.

(** The channels after a node's return value [b] has been written on top
    of the values [a]. *)
Definition apply_update (a b : PipelineState) : PipelineState :=
  {| query := keep (query a) (query b);
     duration := keep (duration a) (duration b);
     topic := coalesce_opt (topic a) (topic b);
     rejected := keep (rejected a) (rejected b);
     rejectionReason := coalesce_opt (rejectionReason a) (rejectionReason b);
     classification := coalesce_value (classification a) (classification b);
     markdown := coalesce_opt (markdown a) (markdown b);
     imageUrl := coalesce_opt (imageUrl a) (imageUrl b);
     audioText := coalesce_opt (audioText a) (audioText b);
     mediaFailed := keep (mediaFailed a) (mediaFailed b) |}.

(** The [default] of every channel. *)
Definition channel_defaults : PipelineState :=
  {| query := ""; duration := 3; topic := None; rejected := false;
     rejectionReason := None; classification := JNull; markdown := None;
     imageUrl := None; audioText := None; mediaFailed := false |}.

(** The executor: run the node, write its update, follow the edge.  [fuel]
    is the step limit of the executor. *)
Fixpoint run (rt : Runtime) (w : World) (fuel : nat) (n : Node)
  (state : PipelineState) : M PipelineState :=
  match n with
  | END => ret state
  | _ =>
      match fuel with
      | O => throw (TypeError "Recursion limit reached")
      | S fuel' =>
          update <- node_action rt w n state ;;
          let state' := apply_update state update in
          target <- lift (next_node n state') ;;
          run rt w fuel' target state'
      end
  end.

Definition recursion_limit : nat := 25.

(** [graph.invoke(initialState)] on the graph of [buildAgentGraph]: entry
    point [supervisor]. *)
Definition invoke (rt : Runtime) (w : World) (initialState : PipelineState)
  : M PipelineState :=
  run rt w recursion_limit supervisor (apply_update channel_defaults initialState).

End Graph.

(* ================================================================== *)
(** ** [routes/chat.js]: POST /api/chat *)
(* ================================================================== *)

Module Route.
Import JS Conversion Access Env State Graph.

Inductive Response : Type :=
| Status400 (error : string)
| Status500 (error details : string)
| Status200 (body : PipelineState).

(** [durationVal]: [parseInt(duration) || 3]. *)
Definition durationVal (duration : JSValue) : Outcome Z :=
  let? n := parseInt duration in
  Returned (num_or n 3).

(** The handler, on the [query] and [duration] members of the request body
    ([JUndefined] for a member that is absent). *)
Definition post (rt : Runtime) (w : World) (query duration : JSValue) : M Response :=
  try_catch
    (match query with
     | JStr q =>
         if (q =? "") || (String.length (trim q) =? 0)%nat
         then ret (Status400 "Query is required")
         else
           durationVal <- lift (durationVal duration) ;;
           let initialState := createInitialState (trim q) (Num durationVal) in
           result <- invoke rt w initialState ;;
           ret (Status200 result)
     | _ => ret (Status400 "Query is required")
     end)
    (fun error =>
       console_error ("Chat route error: " ++ message error) ;;;
       ret (Status500 "An error occurred while processing your query" (message error))).

(** The [duration] of the state the handler hands to the graph for a given
    [duration] member, or the exception that keeps it from building one. *)
Definition stored_duration (duration : JSValue) : Outcome Z :=
  let? durationVal := durationVal duration in
  Returned (State.duration (createInitialState "" (Num durationVal))).

End Route.

(* ================================================================== *)
(** ** [api/chat.js]: the supervisor of the serverless handler *)
(* ================================================================== *)

Module Api.
Import JS Access Env.

Record SupervisorResult : Type := {
  rejected : bool;
  rejectionReason : option string;
  classification : JSValue;
  topic : JSValue
}.

(** No [try] here: a failure of the call or of the parse reaches the
    handler. *)
Definition runSupervisor (rt : Runtime) (w : World) (query : string)
  : M SupervisorResult :=
  content <- await_model (classifier w query) ;;
  text <- lift (as_string content "response.content.trim") ;;
  let text := trim text in
  result <- lift (Supervisor.parse rt text) ;;
  cls <- lift (get result "classification") ;;
  if negb (strict_eq_str cls "placement_topic") then
    reason <- lift (get result "reason") ;;
    ret {| rejected := true;
           rejectionReason :=
             Some (if strict_eq_str cls "harmful"
                   then Supervisor.harmful_notice reason
                   else Supervisor.irrelevant_notice reason);
           classification := cls;
           topic := JNull |}
  else
    detectedTopic <- lift (get result "detectedTopic") ;;
    ret {| rejected := false;
           rejectionReason := None;
           classification := cls;
           topic := js_or detectedTopic (JStr query) |}.

End Api.

(* ================================================================== *)
(** ** Concrete runtimes and worlds for the examples *)
(* ================================================================== *)

Module Sample.
Import JS Access Env State Renderer.

(** *** Base64, as [Buffer.from(s).toString('base64')] computes it *)

Definition alphabet : string :=
  "ABCDEFGHIJKLMNOPQRSTUVWXYZabcdefghijklmnopqrstuvwxyz0123456789+/".

Definition sextet (n : nat) : string :=
  match String.get n alphabet with
  | Some c => String c ""
  | None => "="
  end.

Fixpoint encode (bytes : list nat) : string :=
  match bytes with
  | [] => ""
  | [a] =>
      sextet (a / 4) ++ sextet ((a mod 4) * 16) ++ "=="
  | [a; b] =>
      sextet (a / 4) ++ sextet ((a mod 4) * 16 + b / 16)
      ++ sextet ((b mod 16) * 4) ++ "="
  | a :: b :: c :: rest =>
      sextet (a / 4) ++ sextet ((a mod 4) * 16 + b / 16)
      ++ sextet ((b mod 16) * 4 + c / 64) ++ sextet (c mod 64)
      ++ encode rest
  end.

Definition base64_encode (s : string) : string :=
  encode (map nat_of_ascii (list_ascii_of_string s)).

(** *** An abridged template: the elements that carry the values *)

Definition text_element (s : string) : string := "<text>" ++ s ++ "</text>".

Definition abridged_svg (doc : SvgDoc) : string :=
  "<svg>" ++ JS.join "" (map text_element (text_slots doc)) ++ "</svg>".

(** *** [JSON.parse] on the texts the examples use *)

Definition member (key value : string) : string := quoted key ++ ":" ++ value.

Definition object_text (members : list string) : string :=
  "{" ++ JS.join "," members ++ "}".

Definition accepted_text : string :=
  object_text [ member "classification" (quoted "placement_topic");
                member "reason" (quoted "REST is part of the MERN stack");
                member "detectedTopic" (quoted "REST API Design") ].

Definition accepted_value : JSValue :=
  JObj [ ("classification", JStr "placement_topic");
         ("reason", JStr "REST is part of the MERN stack");
         ("detectedTopic", JStr "REST API Design") ].

Definition unsure_text : string :=
  object_text [ member "classification" (quoted "maybe");
                member "reason" (quoted "unsure");
                member "detectedTopic" "null" ].

Definition unsure_value : JSValue :=
  JObj [ ("classification", JStr "maybe");
         ("reason", JStr "unsure");
         ("detectedTopic", JNull) ].

Definition numeric_title_text : string := object_text [ member "title" "42" ].

Definition numeric_title_value : JSValue := JObj [ ("title", JNum 42) ].

Definition concepts_text : string :=
  object_text [ member "title" (quoted "Graphs");
                member "keyConcepts" ("[" ++ quoted "Trees, Graphs & DFS" ++ "]");
                member "interviewTip" (quoted "Draw the graph first") ].

Definition concepts_value : JSValue :=
  JObj [ ("title", JStr "Graphs");
         ("keyConcepts", JArr [JStr "Trees, Graphs & DFS"]);
         ("interviewTip", JStr "Draw the graph first") ].

(** [JSON.parse] restricted to the texts above and to texts that are no
    JSON at all. *)
Definition parse_table (text : string) : option JSValue :=
  if text =? accepted_text then Some accepted_value
  else if text =? unsure_text then Some unsure_value
  else if text =? numeric_title_text then Some numeric_title_value
  else if text =? concepts_text then Some concepts_value
  else None.

Definition runtime : Runtime :=
  {| JSON_parse := parse_table;
     base64 := base64_encode;
     svg_text := abridged_svg |}.



(** *** Worlds *)

Definition timeout : JSError := ProviderError "Request timed out".

Definition read_only : JSError := IOError "EROFS: read-only file system".

Definition says (text : string) : GroqReply := GroqReturns (FirstContent (JStr text)).

Definition world (c t : ModelReply) (i n : GroqReply) (vercel : bool)
  (disk : option JSError) : World :=
  {| classifier := fun _ => c;
     teacher := fun _ => t;
     illustrator := fun _ => i;
     narrator := fun _ => n;
     VERCEL := vercel;
     Date_now := 1700000000000;
     publicDir := "/srv/app/server/public";
     writeFileSync := fun _ _ => disk |}.

Definition lesson : ModelReply := ModelReturns (JStr "## REST APIs").

Definition state0 : PipelineState :=
  Graph.createInitialState "Explain REST APIs in MERN Stack" (Num 3).

(** A state as the researcher leaves it after an accepted query. *)
Definition taught : PipelineState :=
  with_markdown
    (with_acceptance state0 "Explain REST APIs in MERN Stack" (JStr "placement_topic"))
    "## REST APIs".

End Sample.

(* ================================================================== *)
(** ** The two sub-tasks of the media stage, each on its own *)
(* ================================================================== *)

Module Subtask.
Import JS Access Env State Renderer MediaEngine.

(** The body of the first [try] run from the initial locals in a fresh
    system: the image URL it assigns, or the exception it ends with. *)
Definition visual (rt : Runtime) (w : World) (state : PipelineState)
  : Outcome (option string) :=
  match fst (image_try rt w state initial_locals fresh) with
  | Returned l => Returned (l_imageUrl l)
  | Thrown e => Thrown e
  end.

(** The files the first [try] writes. *)
Definition visual_files (rt : Runtime) (w : World) (state : PipelineState)
  : list (string * string) :=
  files (snd (image_try rt w state initial_locals fresh)).

(** The body of the second [try] run the same way: the narration it
    assigns, or the exception it ends with. *)
Definition narration (w : World) (state : PipelineState) : Outcome (option string) :=
  match fst (audio_try w state initial_locals fresh) with
  | Returned l => Returned (l_audioText l)
  | Thrown e => Thrown e
  end.

(** What is left in a variable declared [null] after its [try] block. *)
Definition assigned (o : Outcome (option string)) : option string :=
  match o with
  | Returned v => v
  | Thrown _ => None
  end.

(** The name and the path of the file of the local deployment. *)
Definition imageFileName (w : World) : string :=
  "topic-" ++ string_of_Z (Date_now w) ++ ".svg".

Definition imagePath (w : World) : string := publicDir w ++ "/" ++ imageFileName w.

(** What the renderer makes of the metadata of the inner [catch]. *)
Definition default_doc (state : PipelineState) : SvgDoc :=
  {| doc_theme := theme_general;
     doc_dots := generateDotGrid;
     doc_visual := MotifGeneric;
     doc_category_label := "GENERAL";
     doc_title := escapeXml (if present (topic state)
                             then show_nullable (topic state)
                             else "Topic");
     doc_subtitle := "CSE Placement Preparation";
     doc_cards :=
       generateConceptCards ["Concept 1"; "Concept 2"; "Concept 3"; "Concept 4"]
         theme_general;
     doc_code := None;
     doc_tip := Some "Understand the fundamentals thoroughly." |}.

End Subtask.

(* ================================================================== *)
(** ** Vocabulary of the statements about the renderer and the stages *)
(* ================================================================== *)

(** The fixed numbers of the template of [generateTopicSVG] in
    [mediaEngine.js]: the size of the canvas ([width="700" height="560"]),
    the top of the code panel ([<rect x="36" y="234" ...>] in
    [generateCodeBlock]) and the top of the tip callout
    ([<rect x="36" y="460" ...>] in [generateTipSection]). *)
Module Layout.

Definition canvas_width : Z := 700.
Definition canvas_height : Z := 560.
Definition code_panel_y : Z := 234.
Definition tip_panel_y : Z := 460.

End Layout.

Module Text.

(** The five characters [escapeXml] replaces. *)
Definition reserved (c : ascii) : bool :=
  Ascii.eqb c "&" || Ascii.eqb c "<" || Ascii.eqb c ">"
  || Ascii.eqb c (ascii_of_nat 34) || Ascii.eqb c "'".

(** No character of [s] is [c]. *)
Definition lacks (c : ascii) (s : string) : bool :=
  forallb (fun d => negb (Ascii.eqb d c)) (list_ascii_of_string s).

(** Every byte of [s] is an ASCII character.  In such a text the white
    space that [trim] and [\s] of JavaScript match is the ASCII one of
    [is_ws]. *)
Definition is_ascii (s : string) : bool :=
  forallb (fun c => (nat_of_ascii c <? 128)%nat) (list_ascii_of_string s).

End Text.

(** The metadata [generateTopicSVG] of [mediaEngine.js] can render. *)
Module Shape.
Import JS Access Renderer.

(** [meta.key] once [meta] is known not to be [null] or [undefined]. *)
Definition field (meta : JSValue) (key : string) : JSValue :=
  match meta with
  | JObj fields => match assoc key fields with Some x => x | None => JUndefined end
  | _ => JUndefined
  end.

Definition is_text (v : JSValue) : bool :=
  match v with
  | JStr _ => true
  | _ => false
  end.

(** A string, or a value that [||] replaces by the default. *)
Definition text_or_falsy (v : JSValue) : bool := is_text v || negb (truthy v).

(** An array of strings, or a value that [||] replaces by [[]]. *)
Definition texts_or_falsy (v : JSValue) : bool :=
  match v with
  | JArr items => forallb is_text items
  | _ => negb (truthy v)
  end.

Definition renderable (meta : JSValue) : bool :=
  negb (nullish meta)
  && text_or_falsy (field meta "title")
  && text_or_falsy (field meta "subtitle")
  && texts_or_falsy (field meta "keyConcepts")
  && text_or_falsy (field meta "codeSnippet")
  && text_or_falsy (field meta "interviewTip")
  && text_or_falsy (field meta "category")
  && negb (existsb (String.eqb (ToString (field meta "category"))) object_prototype_keys).

End Shape.

(** The reading time and the word count the prompts of [researcher.js] and
    [mediaEngine.js] name. *)
Module Budget.
Import JS State.

(** [state.duration || 3] *)
Definition minutes (state : PipelineState) : Z := num_or (Num (duration state)) 3.

(** The words of [DURATION_MAP] for a reading time, 450 where it has no
    entry. *)
Definition words (minutes : Z) : Z :=
  if ((2 <=? minutes) && (minutes <=? 5))%Z then (150 * minutes)%Z else 450%Z.

End Budget.

(* ================================================================== *)
(** ** [knowledgeBase.js]: the topics and their methods *)
(* ================================================================== *)

Module KnowledgeBase.
Import JS Conversion Access.

(** A topic as the built-in data and the route of [routes/topics.js]
    store it: the name and the description are strings, the subtopics an
    array. *)
Record Topic : Type := {
  name : string;
  description : string;
  subtopics : list JSValue
}.

(** The own properties of [knowledgeBase.topics], in the order of their
    creation. *)
Definition Topics : Type := list (string * Topic).

Definition topics : Topics :=
  [
    ("mern-stack",
     {| name := "MERN Stack";
        description := "MongoDB, Express.js, React, Node.js full-stack development";
        subtopics :=
          [ JStr "MongoDB Schema Design";
            JStr "Express.js Middleware";
            JStr "React Hooks & State Management";
            JStr "Node.js Event Loop";
            JStr "REST API Design";
            JStr "Authentication with JWT";
            JStr "Deployment & DevOps" ] |});
    ("system-design",
     {| name := "System Design";
        description := "Designing scalable, reliable, and efficient software systems";
        subtopics :=
          [ JStr "Load Balancing";
            JStr "Database Sharding";
            JStr "Caching Strategies";
            JStr "Microservices Architecture";
            JStr "Message Queues";
            JStr "CAP Theorem";
            JStr "API Gateway Design" ] |});
    ("aptitude",
     {| name := "Aptitude";
        description := "Quantitative aptitude, logical reasoning, and verbal ability for placements";
        subtopics :=
          [ JStr "Probability & Permutations";
            JStr "Time & Work Problems";
            JStr "Profit & Loss";
            JStr "Number Series";
            JStr "Logical Puzzles";
            JStr "Data Interpretation";
            JStr "Verbal Reasoning" ] |});
    ("data-structures",
     {| name := "Data Structures";
        description := "Core data structures used in coding interviews";
        subtopics :=
          [ JStr "Arrays & Strings";
            JStr "Linked Lists";
            JStr "Stacks & Queues";
            JStr "Trees & Binary Search Trees";
            JStr "Graphs & Traversals";
            JStr "Hash Maps";
            JStr "Heaps & Priority Queues" ] |});
    ("oop",
     {| name := "Object-Oriented Programming";
        description := "OOP principles and design patterns for interviews";
        subtopics :=
          [ JStr "Encapsulation & Abstraction";
            JStr "Inheritance & Polymorphism";
            JStr "SOLID Principles";
            JStr "Design Patterns (Singleton, Factory, Observer)";
            JStr "UML Diagrams";
            JStr "Composition vs Inheritance" ] |});
    ("dbms",
     {| name := "Database Management Systems";
        description := "Relational databases, SQL, normalization, and transactions";
        subtopics :=
          [ JStr "ER Diagrams";
            JStr "Normalization (1NF–BCNF)";
            JStr "SQL Queries & Joins";
            JStr "Transactions & ACID";
            JStr "Indexing & Optimization";
            JStr "NoSQL vs SQL" ] |});
    ("os",
     {| name := "Operating Systems";
        description := "OS concepts frequently asked in placement interviews";
        subtopics :=
          [ JStr "Process Scheduling";
            JStr "Memory Management";
            JStr "Deadlocks";
            JStr "Virtual Memory & Paging";
            JStr "File Systems";
            JStr "Threads & Concurrency" ] |});
    ("cn",
     {| name := "Computer Networks";
        description := "Networking fundamentals and protocols for placements";
        subtopics :=
          [ JStr "OSI & TCP/IP Models";
            JStr "HTTP/HTTPS Protocol";
            JStr "DNS & DHCP";
            JStr "Subnetting & IP Addressing";
            JStr "TCP vs UDP";
            JStr "Network Security Basics" ] |});
    ("ml",
     {| name := "Machine Learning & AI";
        description := "Machine learning algorithms, AI concepts, and data science for placements";
        subtopics :=
          [ JStr "Decision Trees & Random Forest";
            JStr "Linear & Logistic Regression";
            JStr "Support Vector Machines (SVM)";
            JStr "Neural Networks & Deep Learning";
            JStr "K-Means Clustering";
            JStr "K-Nearest Neighbors (KNN)";
            JStr "Natural Language Processing (NLP)";
            JStr "Model Evaluation & Metrics" ] |}) ].

Fixpoint own (id : string) (ts : Topics) : option Topic :=
  match ts with
  | [] => None
  | (k, t) :: rest => if k =? id then Some t else own id rest
  end.

(** What [this.topics[id]] evaluates to: a topic, a member inherited from
    [Object.prototype] (truthy, and no topic), or [undefined]. *)
Inductive Slot : Type :=
| Own (t : Topic)
| Inherited
| Missing.

Definition member (ts : Topics) (id : string) : Slot :=
  match own id ts with
  | Some t => Own t
  | None =>
      if existsb (String.eqb id) Renderer.object_prototype_keys then Inherited
      else Missing
  end.

(** [this.topics[id] || null]; [Missing] is [null]. *)
Definition getTopicById (ts : Topics) (id : string) : Slot := member ts id.

(** [this.topics[id] = value]: an existing property keeps its place, a new
    one comes last.  (For [id = "__proto__"] the assignment would replace
    the prototype instead; no caller passes that id, see [Topics.slug].) *)
Fixpoint assign (id : string) (value : Topic) (ts : Topics) : Topics :=
  match ts with
  | [] => [(id, value)]
  | (k, t) :: rest =>
      if k =? id then (k, value) :: rest else (k, t) :: assign id value rest
  end.

(** [addTopic]: the topics afterwards and the object returned. *)
Definition addTopic (ts : Topics) (id name description : string)
  (subtopics : list JSValue) : Topics * Topic :=
  let t := {| name := name; description := description; subtopics := subtopics |} in
  (assign id t ts, t).

(** [addSubtopic]: [subtopics.push] on a topic; on an inherited member
    [subtopics] is [undefined] and the call throws. *)
Definition addSubtopic (ts : Topics) (topicId : string) (subtopic : string)
  : Outcome bool * Topics :=
  match member ts topicId with
  | Own t =>
      (Returned true,
       assign topicId
         {| name := name t; description := description t;
            subtopics := push (subtopics t) (JStr subtopic) |} ts)
  | Inherited => (Thrown (TypeError "Cannot read properties of undefined"), ts)
  | Missing => (Returned false, ts)
  end.

(** *** The order of [Object.entries]: array indices first, ascending, then
    the other keys in the order of their creation *)

Definition is_digit (c : ascii) : bool := ((48 <=? code c) && (code c <=? 57))%nat.

Definition decimal (s : string) : N :=
  fold_left (fun acc c => (10 * acc + N.of_nat (code c - 48))%N)
    (list_ascii_of_string s) 0%N.

(** A canonical numeral below 2^32 - 1. *)
Definition array_index (k : string) : option N :=
  if negb (k =? "")
     && forallb is_digit (list_ascii_of_string k)
     && ((k =? "0") || negb (prefix "0" k))
     && (decimal k <? 4294967295)%N
  then Some (decimal k)
  else None.

Definition is_index (e : string * Topic) : bool :=
  match array_index (fst e) with
  | Some _ => true
  | None => false
  end.

Fixpoint insert_by_index (e : string * Topic) (l : Topics) : Topics :=
  match l with
  | [] => [e]
  | x :: rest =>
      if (decimal (fst e) <=? decimal (fst x))%N then e :: l
      else x :: insert_by_index e rest
  end.

Definition entries (ts : Topics) : Topics :=
  (fold_right insert_by_index [] (filter is_index ts)
   ++ filter (fun e => negb (is_index e)) ts)%list.

(** [getAllTopics]: each entry is [{ id, name, description, subtopics }]. *)
Definition getAllTopics (ts : Topics) : list (string * Topic) := entries ts.

Definition getTopicNames (ts : Topics) : list string :=
  map (fun e => name (snd e)) (entries ts).

(** [items.join(sep)] on arbitrary values: [null] and [undefined] give the
    empty string, any other element is converted to a string, and the call
    throws at the first element that cannot be converted. *)
Definition join_values (sep : string) (items : list JSValue) : Outcome string :=
  let? texts := map_outcome (fun v => if nullish v then Returned "" else to_text v) items in
  Returned (join sep texts).

(** The line of one topic. *)
Definition context_line (t : Topic) : Outcome string :=
  let? listed := join_values ", " (subtopics t) in
  Returned ("• " ++ name t ++ ": " ++ listed).

Definition toContextString (ts : Topics) : Outcome string :=
  let? lines := map_outcome (fun e => context_line (snd e)) (entries ts) in
  Returned (join nl lines).

End KnowledgeBase.

(* ================================================================== *)
(** ** [routes/topics.js]: GET and POST /api/topics *)
(* ================================================================== *)

Module Topics.
Import JS Access KnowledgeBase.

Inductive Response : Type :=
| Status200 (topics : list (string * Topic))          (* GET *)
| Status201 (id : string) (topic : Topic)             (* { topic: { id, ...topic } } *)
| Status200_added (message : string) (topic : Slot)
| Status400 (error : string)
| Status404 (error : string)
| Status409 (error : string).

(** A handler: the response, or the exception that leaves it, and the
    topics afterwards. *)
Definition Handler : Type := KnowledgeBase.Topics -> Outcome Response * KnowledgeBase.Topics.

Definition alnum (c : ascii) : bool :=
  ((97 <=? code c) && (code c <=? 122) || (48 <=? code c) && (code c <=? 57))%nat.

(** [s.replace(/[^a-z0-9]+/g, "-")]: [in_run] is set while a run of other
    characters is being passed over. *)
Fixpoint dash_runs (in_run : bool) (s : string) : string :=
  match s with
  | "" => ""
  | String c r =>
      if alnum c then String c (dash_runs false r)
      else if in_run then dash_runs true r
      else String "-" (dash_runs true r)
  end.

(** [s.replace(/^-|-$/g, "")] *)
Definition strip_dashes (s : string) : string :=
  let s1 := match s with
            | String "-" r => r
            | _ => s
            end in
  if endsWith s1 "-" then substring 0 (String.length s1 - 1) s1 else s1.

(** The [id] of a topic of the given name. *)
Definition slug (name : string) : string :=
  strip_dashes (dash_runs false (toLowerCase name)).

(** GET / *)
Definition list_topics : Handler :=
  fun ts => (Returned (Status200 (getAllTopics ts)), ts).

(** [description?.trim()] *)
Definition trimmed_description (description : JSValue) : Outcome JSValue :=
  match description with
  | JUndefined | JNull => Returned JUndefined
  | JStr d => Returned (JStr (trim d))
  | _ => Thrown (TypeError "description?.trim is not a function")
  end.

(** POST /, on the [name], [description] and [subtopics] members of the
    request body ([JUndefined] for a member that is absent). *)
Definition post (name description subtopics : JSValue) : Handler :=
  fun ts =>
    match name with
    | JStr n =>
        if (n =? "") || (String.length (trim n) =? 0)%nat
        then (Returned (Status400 "Topic name is required"), ts)
        else
          let id := slug n in
          match getTopicById ts id with
          | Own _ | Inherited => (Returned (Status409 "Topic already exists"), ts)
          | Missing =>
              match trimmed_description description with
              | Thrown e => (Thrown e, ts)
              | Returned d =>
                  let text :=
                    match js_or d (JStr (trim n ++ " — placement preparation topic")) with
                    | JStr s => s
                    | _ => ""
                    end in
                  let items := match subtopics with
                               | JArr items => items
                               | _ => []
                               end in
                  let '(ts', topic) := addTopic ts id (trim n) text items in
                  (Returned (Status201 id topic), ts')
              end
          end
    | _ => (Returned (Status400 "Topic name is required"), ts)
    end.

(** POST /:id/subtopic *)
Definition post_subtopic (id : string) (subtopic : JSValue) : Handler :=
  fun ts =>
    match subtopic with
    | JStr s =>
        if s =? "" then (Returned (Status400 "Subtopic name is required"), ts)
        else
          match addSubtopic ts id (trim s) with
          | (Thrown e, ts') => (Thrown e, ts')
          | (Returned false, ts') => (Returned (Status404 "Topic not found"), ts')
          | (Returned true, ts') =>
              (Returned (Status200_added "Subtopic added" (getTopicById ts' id)), ts')
          end
    | _ => (Returned (Status400 "Subtopic name is required"), ts)
    end.

(** The requests that change the topics. *)
Inductive Request : Type :=
| PostTopic (name description subtopics : JSValue)
| PostSubtopic (id : string) (subtopic : JSValue).

Definition serve (r : Request) : Handler :=
  match r with
  | PostTopic name description subtopics => post name description subtopics
  | PostSubtopic id subtopic => post_subtopic id subtopic
  end.

(** The topics after a sequence of requests to a freshly started server. *)
Definition after (requests : list Request) : KnowledgeBase.Topics :=
  fold_left (fun ts r => snd (serve r ts)) requests KnowledgeBase.topics.

(** The characters of an [id]. *)
Definition slug_char (c : ascii) : bool := alnum c || Ascii.eqb c "-".

(** Every character is a lower-case letter, a digit or a dash, and no dash
    follows a dash ([prev] tells whether a dash stands before the text). *)
Fixpoint tidy (prev : bool) (s : string) : bool :=
  match s with
  | "" => true
  | String c r =>
      slug_char c && negb (prev && Ascii.eqb c "-") && tidy (Ascii.eqb c "-") r
  end.

End Topics.

(* ================================================================== *)
(** ** [api/chat.js]: the serverless handler and its three stages *)
(* ================================================================== *)

Module Serverless.
Import JS Access Renderer Env MediaEngine.

(** The values that fill the holes of the template of this file's
    [generateTopicSVG]: the title and the lines of the description. *)
Record Svg : Type := {
  svg_title : string;
  svg_lines : list string
}.

(** The world of the handler: what the model calls of [runResearcher] and
    [runMediaEngine] answer, by the values their prompts interpolate (the
    topic and the duration; the topic; the duration and the first 3000
    characters of the markdown); whether [process.env.GROQ_API_KEY] is set
    and not empty; the fixed text of the template around an [Svg]. *)
Record Provider : Type := {
  teach : JSValue -> JSValue -> ModelReply;
  illustrate : JSValue -> GroqReply;
  narrate : JSValue -> string -> GroqReply;
  GROQ_API_KEY : bool;
  svg_text : Svg -> string
}.

Definition runResearcher (p : Provider) (topic duration : JSValue) : M string :=
  content <- await_model (teach p topic duration) ;;
  text <- lift (as_string content "response.content.trim") ;;
  ret (trim text).

(** One turn of the loop over [words]. *)
Definition wrap_step (st : list string * string) (word : string) : list string * string :=
  let '(lines, currentLine) := st in
  if (45 <? String.length (currentLine ++ " " ++ word))%nat
  then (push lines (trim currentLine), word)
  else (lines, currentLine ++ " " ++ word).

Definition generateTopicSVG (topic description : JSValue) : Outcome Svg :=
  let? safeTitle := escapeXml_value (js_or topic (JStr "Topic")) in
  let? text := as_string (js_or description (JStr "")) "substring" in
  let safeDesc := escapeXml (substring 0 120 text) in
  let words := split safeDesc " " in
  let '(lines, currentLine) := fold_left wrap_step words ([], "") in
  let lines := if trim currentLine =? "" then lines else push lines (trim currentLine) in
  Returned {| svg_title := safeTitle; svg_lines := firstn 4 lines |}.

(** The body of the first [try] block of [runMediaEngine]. *)
Definition image_try (rt : Runtime) (p : Provider) (topic : JSValue) (l : Locals)
  : M Locals :=
  completion <- await_groq (illustrate p topic) ;;
  trimmed <- lift (first_content_trimmed completion) ;;
  let desc := js_or trimmed topic in
  svg <- lift (generateTopicSVG topic desc) ;;
  ret {| l_imageUrl := Some (data_url rt (svg_text p svg));
         l_audioText := l_audioText l;
         l_mediaFailed := l_mediaFailed l |}.

(** The body of the second [try] block. *)
Definition audio_try (p : Provider) (markdown : string) (duration : JSValue)
  (l : Locals) : M Locals :=
  completion <- await_groq (narrate p duration (substring 0 3000 markdown)) ;;
  trimmed <- lift (first_content_trimmed completion) ;;
  ret {| l_imageUrl := l_imageUrl l;
         l_audioText := or_null trimmed;
         l_mediaFailed := l_mediaFailed l |}.

(** [runMediaEngine]: the object [{ imageUrl, audioText, mediaFailed }]. *)
Definition runMediaEngine (rt : Runtime) (p : Provider) (topic : JSValue)
  (markdown : string) (duration : JSValue) : M Locals :=
  l1 <- try_catch
          (image_try rt p topic initial_locals)
          (fun e =>
             console_error ("Image error: " ++ message e) ;;;
             ret {| l_imageUrl := None; l_audioText := None; l_mediaFailed := true |}) ;;
  try_catch
    (audio_try p markdown duration l1)
    (fun e =>
       console_error ("Audio error: " ++ message e) ;;;
       ret {| l_imageUrl := l_imageUrl l1;
              l_audioText := l_audioText l1;
              l_mediaFailed := true |}).

(** The body of a 200 response. *)
Record Result : Type := {
  query : string;
  topic : JSValue;
  duration : JSValue;
  rejected : bool;
  rejectionReason : option string;
  classification : JSValue;
  markdown : option string;
  imageUrl : option string;
  audioText : option string;
  mediaFailed : bool
}.

Inductive Reply : Type :=
| Ended (status : Z)                       (* [res.status(n).end()] *)
| Failed (status : Z) (error : string)     (* [res.status(n).json({ error })] *)
| Answered (status : Z) (body : Result).

Definition key_missing : string :=
  "GROQ_API_KEY is missing in Vercel. Please add it in project settings and redeploy.".

(** The handler, on [req.method] and [req.body]. *)
Definition handler (rt : Runtime) (w : World) (p : Provider)
  (method : string) (body : JSValue) : M Reply :=
  if method =? "OPTIONS" then ret (Ended 200)
  else if negb (method =? "POST") then ret (Failed 405 "Method not allowed")
  else
    try_catch
      (query <- lift (get body "query") ;;
       given <- lift (get body "duration") ;;
       let duration := match given with
                       | JUndefined => JNum 3
                       | _ => given
                       end in
       match query with
       | JUndefined | JNull => ret (Failed 400 "Query is required")
       | JStr q =>
           if trim q =? "" then ret (Failed 400 "Query is required")
           else if negb (GROQ_API_KEY p) then ret (Failed 500 key_missing)
           else
             supervisorResult <- Api.runSupervisor rt w (trim q) ;;
             if Api.rejected supervisorResult then
               ret (Answered 200
                      {| query := trim q;
                         topic := JNull;
                         duration := duration;
                         rejected := true;
                         rejectionReason := Api.rejectionReason supervisorResult;
                         classification := Api.classification supervisorResult;
                         markdown := None;
                         imageUrl := None;
                         audioText := None;
                         mediaFailed := false |})
             else
               markdown <- runResearcher p (Api.topic supervisorResult) duration ;;
               media <- runMediaEngine rt p (Api.topic supervisorResult) markdown duration ;;
               ret (Answered 200
                      {| query := trim q;
                         topic := Api.topic supervisorResult;
                         duration := duration;
                         rejected := false;
                         rejectionReason := None;
                         classification := Api.classification supervisorResult;
                         markdown := Some markdown;
                         imageUrl := l_imageUrl media;
                         audioText := l_audioText media;
                         mediaFailed := l_mediaFailed media |})
       | _ => throw (TypeError "query?.trim is not a function")
       end)
      (fun error =>
         console_error ("Chat API error: " ++ message error) ;;;
         ret (Failed 500 ("AI processing failed: " ++ message error))).

End Serverless.

(* ================================================================== *)
(** * Properties *)
(* ================================================================== *)

Import JS Conversion Access Renderer Env State.

Ltac run_monad :=
  unfold await_model, await_groq, console_error, fs_writeFileSync,
    try_catch, Eff.bind, Eff.lift, Eff.ret, Eff.throw.

(** ** The supervisor *)

Lemma strict_eq_str_true (v : JSValue) (s : string) :
  strict_eq_str v s = true -> v = JStr s.
Proof.
  destruct v; simpl; try discriminate.
  intros H. apply String.eqb_eq in H. now subst.
Qed.

(** Every run of the supervisor returns, writes no file, and leaves either
    an acceptance with the query as topic or a rejection. *)
Lemma runSupervisor_cases (rt : Runtime) (w : World) (st : PipelineState) (sys : Sys) :
  exists st' sys',
    Supervisor.runSupervisor rt w st sys = (Returned st', sys')
    /\ files sys' = files sys
    /\ (st' = with_acceptance st (query st) (JStr "placement_topic")
        \/ exists reason cls,
             st' = with_rejection st reason cls
             /\ strict_eq_str cls "placement_topic" = false).
Proof.
  unfold Supervisor.runSupervisor. run_monad.
  destruct (classifier w (query st)) as [e | content]; simpl.
  - eauto 6.
  - destruct (as_string content _) as [text | e]; simpl; [ | eauto 6 ].
    unfold Supervisor.parse.
    destruct (JSON_parse rt _) as [result | ]; simpl; [ | eauto 6 ].
    destruct (get result "classification") as [cls | e] eqn:Hcls; simpl; [ | eauto 6 ].
    destruct (strict_eq_str cls "placement_topic") eqn:Hacc; simpl.
    + apply strict_eq_str_true in Hacc. subst cls. eauto 6.
    + destruct (get result "reason") as [reason | e] eqn:Hreason; simpl.
      * do 2 eexists. split; [ reflexivity | ]. split; [ reflexivity | ].
        right. do 2 eexists. split; [ reflexivity | exact Hacc ].
      * eauto 6.
Qed.

(** An answer classified ["placement_topic"]: the supervisor of the graph
    accepts with the query as the topic, whatever else the answer holds. *)
Lemma accepted_answer_keeps_query
  (rt : Runtime) (w : World) (st : PipelineState) (sys : Sys)
  (content : string) (result : JSValue) :
  classifier w (query st) = ModelReturns (JStr content) ->
  JSON_parse rt (Supervisor.unfenced content) = Some result ->
  get result "classification" = Returned (JStr "placement_topic") ->
  Supervisor.runSupervisor rt w st sys
  = (Returned (with_acceptance st (query st) (JStr "placement_topic")), sys).
Proof.
  intros Hc Hp Hcls.
  unfold Supervisor.runSupervisor. rewrite Hc. cbn [await_model]. run_monad.
  cbv beta iota zeta. cbn [as_string]. cbv beta iota zeta.
  unfold Supervisor.parse. rewrite Hp. cbv beta iota zeta. rewrite Hcls.
  reflexivity.
Qed.

(** The same answer in the supervisor of the serverless handler: the topic
    is [result.detectedTopic || query]. *)
Lemma api_accepted_answer
  (rt : Runtime) (w : World) (q : string) (sys : Sys)
  (content : string) (result detected : JSValue) :
  classifier w q = ModelReturns (JStr content) ->
  JSON_parse rt (trim content) = Some result ->
  get result "classification" = Returned (JStr "placement_topic") ->
  get result "detectedTopic" = Returned detected ->
  Api.runSupervisor rt w q sys
  = (Returned {| Api.rejected := false;
                 Api.rejectionReason := None;
                 Api.classification := JStr "placement_topic";
                 Api.topic := js_or detected (JStr q) |}, sys).
Proof.
  intros Hc Hp Hcls Hd.
  unfold Api.runSupervisor. rewrite Hc. cbn [await_model]. run_monad.
  cbv beta iota zeta. cbn [as_string]. cbv beta iota zeta.
  unfold Supervisor.parse. rewrite Hp. cbv beta iota zeta. rewrite Hcls.
  cbv beta iota zeta.
  change (negb (strict_eq_str (JStr "placement_topic") "placement_topic")) with false.
  cbv beta iota zeta. rewrite Hd. reflexivity.
Qed.


(** C1.  On an accepted query whose answer names a non-empty detected
    topic other than the query, the supervisor of the graph stores the raw
    query as the topic and not the detected topic, while the supervisor of
    the serverless handler, given the same answer, stores the detected
    topic. *)
Theorem supervisor_ignores_detectedTopic
  (rt : Runtime) (w : World) (st : PipelineState) (sys : Sys)
  (content : string) (result : JSValue) (detected : string) :
  classifier w (query st) = ModelReturns (JStr content) ->
  JSON_parse rt (Supervisor.unfenced content) = Some result ->
  JSON_parse rt (trim content) = Some result ->
  get result "classification" = Returned (JStr "placement_topic") ->
  get result "detectedTopic" = Returned (JStr detected) ->
  detected <> "" ->
  detected <> query st ->
  (exists st',
     Supervisor.runSupervisor rt w st sys = (Returned st', sys)
     /\ rejected st' = false
     /\ topic st' = Some (query st)
     /\ topic st' <> Some detected)
  /\ (exists r,
        Api.runSupervisor rt w (query st) sys = (Returned r, sys)
        /\ Api.rejected r = false
        /\ Api.topic r = JStr detected).
Proof.
  intros Hc Hp Hp' Hcls Hd Hne Hq. split.
  - eexists. split; [ now apply (accepted_answer_keeps_query rt w st sys content result) | ].
    cbn [rejected topic with_acceptance].
    repeat split. intros H. injection H as H. congruence.
  - eexists.
    split; [ now apply (api_accepted_answer rt w (query st) sys content result (JStr detected)) | ].
    cbn [Api.rejected Api.topic]. split; [ reflexivity | ].
    unfold js_or. cbn [truthy].
    destruct (detected =? "") eqn:E; [ apply String.eqb_eq in E; contradiction | reflexivity ].
Qed.

(** The query "Explain REST APIs in MERN Stack" with the detected topic
    "REST API Design". *)
Lemma supervisor_ignores_detectedTopic_example :
  let w := Sample.world (ModelReturns (JStr Sample.accepted_text)) Sample.lesson
             (Sample.says "x") (Sample.says "y") true None in
  (exists st',
     Supervisor.runSupervisor Sample.runtime w Sample.state0 fresh = (Returned st', fresh)
     /\ rejected st' = false
     /\ topic st' = Some "Explain REST APIs in MERN Stack"
     /\ topic st' <> Some "REST API Design")
  /\ (exists r,
        Api.runSupervisor Sample.runtime w "Explain REST APIs in MERN Stack" fresh
        = (Returned r, fresh)
        /\ Api.rejected r = false
        /\ Api.topic r = JStr "REST API Design").
Proof.
  cbv zeta.
  apply (supervisor_ignores_detectedTopic Sample.runtime _ Sample.state0 fresh
           Sample.accepted_text Sample.accepted_value "REST API Design");
    try reflexivity; discriminate.
Defined.




(** ** The later stages on a rejected state *)

(** C9.  A state with [rejected = true] that enters the content stage or
    the media stage comes back as it went in, and the stage has no effect:
    [markdown], [imageUrl] and [audioText] are what they were. *)
Theorem rejected_state_passes_through
  (rt : Runtime) (w : World) (st : PipelineState) (sys : Sys) :
  rejected st = true ->
  Researcher.runResearcher rt w st sys = (Returned st, sys)
  /\ MediaEngine.runMediaEngine rt w st sys = (Returned st, sys).
Proof.
  intros H. unfold Researcher.runResearcher, MediaEngine.runMediaEngine.
  rewrite H. simpl. split; reflexivity.
Qed.

(** A rejected state whose media fields are already filled. *)
Lemma rejected_state_passes_through_example :
  let st := with_media
              (with_rejection Sample.taught "off topic" (JStr "irrelevant"))
              (Some "/public/topic-1.svg") (Some "old narration") false in
  let w := Sample.world Sample.lesson Sample.lesson
             (Sample.says "x") (Sample.says "y") false None in
  Researcher.runResearcher Sample.runtime w st fresh = (Returned st, fresh)
  /\ MediaEngine.runMediaEngine Sample.runtime w st fresh = (Returned st, fresh).
Proof.
  cbv zeta. apply rejected_state_passes_through. reflexivity.
Defined.

(** ** The pipeline *)

Lemma runResearcher_cases (rt : Runtime) (w : World) (st : PipelineState) (sys : Sys) :
  rejected st = false ->
  exists md sys',
    Researcher.runResearcher rt w st sys = (Returned (with_markdown st md), sys')
    /\ files sys' = files sys
    /\ ((exists text, md = trim text)
        \/ (exists e, md = Researcher.apology st e)).
Proof.
  intros H. unfold Researcher.runResearcher. rewrite H. run_monad.
  destruct (teacher w _) as [e | content]; simpl; [ eauto 8 | ].
  destruct (as_string content _) as [text | e]; simpl; eauto 8.
Qed.

Lemma image_block_returns (rt : Runtime) (w : World) (st : PipelineState)
  (l : MediaEngine.Locals) (sys : Sys) :
  exists l' sys', MediaEngine.image_block rt w st l sys = (Returned l', sys').
Proof.
  unfold MediaEngine.image_block, try_catch.
  destruct (MediaEngine.image_try rt w st l sys) as [[l' | e] sys'];
    run_monad; simpl; eauto.
Qed.

Lemma audio_block_returns (w : World) (st : PipelineState)
  (l : MediaEngine.Locals) (sys : Sys) :
  exists l' sys', MediaEngine.audio_block w st l sys = (Returned l', sys').
Proof.
  unfold MediaEngine.audio_block, try_catch.
  destruct (MediaEngine.audio_try w st l sys) as [[l' | e] sys'];
    run_monad; simpl; eauto.
Qed.

Lemma runMediaEngine_cases (rt : Runtime) (w : World) (st : PipelineState) (sys : Sys) :
  exists st' sys',
    MediaEngine.runMediaEngine rt w st sys = (Returned st', sys')
    /\ (st' = st \/ exists img aud failed, st' = with_media st img aud failed).
Proof.
  unfold MediaEngine.runMediaEngine.
  destruct (rejected st || negb (present (markdown st))).
  - exists st, sys. split; [ reflexivity | now left ].
  - unfold Eff.bind.
    destruct (image_block_returns rt w st MediaEngine.initial_locals sys) as [l1 [sys1 H1]].
    rewrite H1.
    destruct (audio_block_returns w st l1 sys1) as [l2 [sys2 H2]].
    rewrite H2. unfold Eff.ret.
    do 2 eexists. split; [ reflexivity | right; eauto ].
Qed.

(** One step of the executor. *)
Lemma run_step (rt : Runtime) (w : World) (fuel : nat) (n : Graph.Node)
  (st : PipelineState) :
  Graph.run rt w (S fuel) n st =
  match n with
  | Graph.END => Eff.ret st
  | _ =>
      update <- Graph.node_action rt w n st ;;
      target <- Eff.lift (Graph.next_node n (Graph.apply_update st update)) ;;
      Graph.run rt w fuel target (Graph.apply_update st update)
  end.
Proof. destruct n; reflexivity. Qed.

(** C3.  Every run of the graph from an initial state returns (no
    exception leaves it, and the step limit is not reached), and in the
    final state either [rejected] is true and [markdown] (as well as
    [imageUrl] and [audioText]) is [null], or [rejected] is false and
    [markdown] is set, to the trimmed answer of the model or to the apology
    of the researcher's [catch]. *)
Theorem pipeline_rejected_xor_markdown
  (rt : Runtime) (w : World) (q : string) (d : JSNum) (sys : Sys) :
  exists final sys',
    Graph.invoke rt w (Graph.createInitialState q d) sys = (Returned final, sys')
    /\ ((rejected final = true
         /\ markdown final = None
         /\ imageUrl final = None
         /\ audioText final = None)
        \/ (rejected final = false
            /\ exists md,
                 markdown final = Some md
                 /\ ((exists text, md = trim text)
                     \/ (exists st e, md = Researcher.apology st e)))).
Proof.
  unfold Graph.invoke, Graph.recursion_limit.
  set (s0 := Graph.apply_update Graph.channel_defaults (Graph.createInitialState q d)).
  rewrite run_step. cbv beta iota. unfold Graph.node_action at 1.
  unfold Eff.bind at 1.
  destruct (runSupervisor_cases rt w s0 sys) as [u1 [sys1 [Hrun1 [_ Hu1]]]].
  rewrite Hrun1.
  destruct Hu1 as [Hacc | [reason [cls [Hrej _]]]]; subst u1.
  - (* accepted: researcher, then media engine *)
    unfold Eff.bind at 1, Eff.lift.
    cbn [Graph.next_node Graph.routeAfterSupervisor Graph.apply_update rejected
           with_acceptance Graph.keep].
    change (Graph.conditional_edges "researcher") with (Some Graph.researcher).
    cbv iota.
    set (s1 := Graph.apply_update s0 _).
    assert (Hrej1 : rejected s1 = false) by reflexivity.
    rewrite run_step. cbv beta iota. unfold Graph.node_action at 1.
    unfold Eff.bind at 1.
    destruct (runResearcher_cases rt w s1 sys1 Hrej1) as [md [sys2 [Hrun2 [_ Hmd]]]].
    rewrite Hrun2.
    unfold Eff.bind at 1, Eff.lift. cbn [Graph.next_node].
    set (s2 := Graph.apply_update s1 _).
    rewrite run_step. cbv beta iota. unfold Graph.node_action at 1.
    unfold Eff.bind at 1.
    destruct (runMediaEngine_cases rt w s2 sys2) as [u3 [sys3 [Hrun3 Hu3]]].
    rewrite Hrun3.
    unfold Eff.bind at 1, Eff.lift. cbn [Graph.next_node].
    rewrite run_step. unfold Eff.ret.
    do 2 eexists. split; [ reflexivity | ].
    right.
    assert (Hmd' : (exists text, md = trim text)
                   \/ (exists st e, md = Researcher.apology st e)).
    { destruct Hmd as [Ht | [e He]]; [ now left | right; eauto ]. }
    destruct Hu3 as [-> | [img [aud [failed ->]]]].
    + split; [ reflexivity | ]. exists md. split; [ reflexivity | exact Hmd' ].
    + split; [ reflexivity | ]. exists md. split; [ reflexivity | exact Hmd' ].
  - (* rejected: the run ends after the supervisor *)
    unfold Eff.bind at 1, Eff.lift.
    cbn [Graph.next_node Graph.routeAfterSupervisor Graph.apply_update rejected
           with_rejection Graph.keep].
    change (Graph.conditional_edges "end") with (Some Graph.END).
    cbv iota.
    rewrite run_step. unfold Eff.ret.
    do 2 eexists. split; [ reflexivity | ].
    left. repeat split.
Qed.



(** ** The duration *)






(** The route on a query that passes the check and a [duration] that
    [parseInt] cannot convert. *)
Lemma post_on_unconvertible_duration
  (rt : Runtime) (w : World) (q : string) (v : JSValue) (e : JSError) (sys : Sys) :
  trim q <> "" ->
  parseInt v = Thrown e ->
  Route.post rt w (JStr q) v sys
  = (Returned (Route.Status500 "An error occurred while processing your query" (message e)),
     {| files := files sys;
        console := push (console sys) ("Chat route error: " ++ message e) |}).
Proof.
  intros Hq Hv. unfold Route.post.
  assert (Hlen : (String.length (trim q) =? 0)%nat = false).
  { destruct (trim q); [ contradiction | reflexivity ]. }
  assert (Hne : (q =? "") = false).
  { destruct (q =? "") eqn:E; [ | reflexivity ].
    apply String.eqb_eq in E. subst q. discriminate Hlen. }
  rewrite Hne, Hlen. cbn [orb].
  unfold Route.durationVal. rewrite Hv. reflexivity.
Qed.




(** ** The media stage *)

Import MediaEngine.

(** The first [try] body from any locals and any system, in terms of the
    visual sub-task on its own. *)
Lemma image_try_frame (rt : Runtime) (w : World) (st : PipelineState)
  (l : Locals) (sys : Sys) :
  image_try rt w st l sys =
  match Subtask.visual rt w st with
  | Returned url =>
      (Returned {| l_imageUrl := url; l_audioText := l_audioText l;
                   l_mediaFailed := l_mediaFailed l |},
       {| files := (files sys ++ Subtask.visual_files rt w st)%list;
          console := console sys |})
  | Thrown e => (Thrown e, sys)
  end.
Proof.
  unfold Subtask.visual, Subtask.visual_files, image_try. run_monad.
  destruct (illustrator w _) as [e | c]; simpl; [ reflexivity | ].
  destruct (generateTopicSVG _) as [doc | e]; simpl; [ | reflexivity ].
  destruct (VERCEL w); simpl.
  - rewrite app_nil_r. destruct sys; reflexivity.
  - destruct (writeFileSync w _ _); simpl; reflexivity.
Qed.

(** The second [try] body likewise. *)
Lemma audio_try_frame (w : World) (st : PipelineState) (l : Locals) (sys : Sys) :
  audio_try w st l sys =
  match Subtask.narration w st with
  | Returned text =>
      (Returned {| l_imageUrl := l_imageUrl l; l_audioText := text;
                   l_mediaFailed := l_mediaFailed l |}, sys)
  | Thrown e => (Thrown e, sys)
  end.
Proof.
  unfold Subtask.narration, audio_try. run_monad.
  destruct (markdown st) as [md | ]; simpl; [ | reflexivity ].
  destruct (narrator w _) as [e | c]; simpl; [ reflexivity | ].
  destruct (first_content_trimmed c); simpl; reflexivity.
Qed.

Lemma visual_unfold (rt : Runtime) (w : World) (st : PipelineState) :
  Subtask.visual rt w st =
  match illustrator w (show_nullable (topic st)) with
  | GroqThrows e => Thrown e
  | GroqReturns c =>
      match generateTopicSVG (read_metadata rt st c) with
      | Thrown e => Thrown e
      | Returned doc =>
          if VERCEL w then Returned (Some (data_url rt (svg_text rt doc)))
          else
            match writeFileSync w (Subtask.imagePath w) (svg_text rt doc) with
            | Some e => Thrown e
            | None => Returned (Some ("/public/" ++ Subtask.imageFileName w))
            end
      end
  end.
Proof.
  unfold Subtask.visual, image_try. run_monad.
  destruct (illustrator w _) as [e | c]; simpl; [ reflexivity | ].
  destruct (generateTopicSVG _) as [doc | e]; simpl; [ | reflexivity ].
  destruct (VERCEL w); simpl; [ reflexivity | ].
  unfold Subtask.imagePath, Subtask.imageFileName.
  destruct (writeFileSync w _ _); reflexivity.
Qed.

Lemma visual_files_unfold (rt : Runtime) (w : World) (st : PipelineState) :
  Subtask.visual_files rt w st =
  match illustrator w (show_nullable (topic st)) with
  | GroqThrows e => []
  | GroqReturns c =>
      match generateTopicSVG (read_metadata rt st c) with
      | Thrown e => []
      | Returned doc =>
          if VERCEL w then []
          else
            match writeFileSync w (Subtask.imagePath w) (svg_text rt doc) with
            | Some e => []
            | None => [(Subtask.imagePath w, svg_text rt doc)]
            end
      end
  end.
Proof.
  unfold Subtask.visual_files, image_try. run_monad.
  destruct (illustrator w _) as [e | c]; simpl; [ reflexivity | ].
  destruct (generateTopicSVG _) as [doc | e]; simpl; [ | reflexivity ].
  destruct (VERCEL w); simpl; [ reflexivity | ].
  unfold Subtask.imagePath, Subtask.imageFileName.
  destruct (writeFileSync w _ _); reflexivity.
Qed.

Lemma visual_returns_url (rt : Runtime) (w : World) (st : PipelineState)
  (url : option string) :
  Subtask.visual rt w st = Returned url -> exists u, url = Some u.
Proof.
  rewrite visual_unfold.
  destruct (illustrator w _) as [e | c]; [ discriminate | ].
  destruct (generateTopicSVG _) as [doc | e]; [ | discriminate ].
  destruct (VERCEL w).
  - intros H. injection H as <-. eauto.
  - destruct (writeFileSync w _ _); [ discriminate | ].
    intros H. injection H as <-. eauto.
Qed.

(** The stage, once it runs, in terms of its two sub-tasks. *)
Lemma runMediaEngine_decomposed (rt : Runtime) (w : World) (st : PipelineState)
  (sys : Sys) :
  rejected st = false ->
  present (markdown st) = true ->
  exists out,
    runMediaEngine rt w st sys
    = (Returned
         (with_media st
            (Subtask.assigned (Subtask.visual rt w st))
            (Subtask.assigned (Subtask.narration w st))
            (is_thrown (Subtask.visual rt w st)
             || is_thrown (Subtask.narration w st))),
       out)
    /\ files out = (files sys ++ Subtask.visual_files rt w st)%list.
Proof.
  intros Hrej Hmd. unfold runMediaEngine. rewrite Hrej, Hmd. simpl.
  unfold Eff.bind at 1. unfold image_block, try_catch.
  rewrite image_try_frame.
  assert (Hfiles : is_thrown (Subtask.visual rt w st) = true ->
                   Subtask.visual_files rt w st = []).
  { rewrite visual_unfold, visual_files_unfold.
    destruct (illustrator w _) as [e | c]; [ reflexivity | ].
    destruct (generateTopicSVG _) as [doc | e]; [ | reflexivity ].
    destruct (VERCEL w); [ reflexivity | ].
    destruct (writeFileSync w _ _); [ reflexivity | discriminate ]. }
  destruct (Subtask.visual rt w st) as [url | e]; simpl.
  - unfold Eff.bind at 1. unfold audio_block, try_catch.
    rewrite audio_try_frame.
    destruct (Subtask.narration w st) as [text | e]; run_monad; simpl.
    + eexists. split; reflexivity.
    + eexists. split; reflexivity.
  - rewrite (Hfiles eq_refl), app_nil_r.
    run_monad. simpl. unfold audio_block, try_catch.
    rewrite audio_try_frame.
    destruct (Subtask.narration w st) as [text | e']; run_monad; simpl.
    + eexists. split; reflexivity.
    + eexists. split; reflexivity.
Qed.

(** C5.  When the media stage runs, the final [mediaFailed] is the
    disjunction of the failures of its two sub-tasks, and each of
    [imageUrl] and [audioText] is what its own sub-task assigns, whatever
    the other one does.  If the visual sub-task throws while the narration
    sub-task produces a text, the stage returns [mediaFailed = true],
    [audioText] that text and [imageUrl = null]; if the narration sub-task
    throws while the visual one returns, it returns [mediaFailed = true],
    [imageUrl] set and [audioText = null]. *)
Theorem media_subtasks_fail_independently
  (rt : Runtime) (w : World) (st : PipelineState) (sys : Sys) :
  rejected st = false ->
  present (markdown st) = true ->
  exists final out,
    runMediaEngine rt w st sys = (Returned final, out)
    /\ mediaFailed final
       = is_thrown (Subtask.visual rt w st) || is_thrown (Subtask.narration w st)
    /\ imageUrl final = Subtask.assigned (Subtask.visual rt w st)
    /\ audioText final = Subtask.assigned (Subtask.narration w st)
    /\ (forall e text,
          Subtask.visual rt w st = Thrown e ->
          Subtask.narration w st = Returned (Some text) ->
          mediaFailed final = true
          /\ audioText final = Some text
          /\ imageUrl final = None)
    /\ (forall e url,
          Subtask.narration w st = Thrown e ->
          Subtask.visual rt w st = Returned url ->
          mediaFailed final = true
          /\ (exists u, imageUrl final = Some u)
          /\ audioText final = None).
Proof.
  intros Hrej Hmd.
  destruct (runMediaEngine_decomposed rt w st sys Hrej Hmd) as [out [Hrun _]].
  do 2 eexists. split; [ exact Hrun | ].
  cbn [mediaFailed imageUrl audioText with_media].
  split; [ reflexivity | ]. split; [ reflexivity | ]. split; [ reflexivity | ].
  split.
  - intros e text Hv Hn. rewrite Hv, Hn. repeat split.
  - intros e url Hn Hv. rewrite Hn, Hv.
    destruct (visual_returns_url rt w st url Hv) as [u ->].
    split; [ reflexivity | ]. split; [ exists u; reflexivity | reflexivity ].
Qed.

(** The model call of the visual sub-task times out; the narration is
    produced. *)
Lemma visual_timeout_leaves_narration :
  let w := Sample.world Sample.lesson Sample.lesson
             (GroqThrows Sample.timeout) (Sample.says " Today we look at REST. ")
             true None in
  exists final out,
    runMediaEngine Sample.runtime w Sample.taught fresh = (Returned final, out)
    /\ mediaFailed final = true
    /\ audioText final = Some "Today we look at REST."
    /\ imageUrl final = None.
Proof.
  cbv zeta.
  destruct (media_subtasks_fail_independently Sample.runtime
              (Sample.world Sample.lesson Sample.lesson
                 (GroqThrows Sample.timeout) (Sample.says " Today we look at REST. ")
                 true None)
              Sample.taught fresh eq_refl eq_refl)
    as [final [out [Hrun [_ [_ [_ [Hvisual _]]]]]]].
  exists final, out. split; [ exact Hrun | ].
  apply (Hvisual Sample.timeout "Today we look at REST."); reflexivity.
Defined.

Lemma default_metadata_renders (st : PipelineState) :
  generateTopicSVG (default_metadata st) = Returned (Subtask.default_doc st).
Proof.
  unfold Subtask.default_doc, default_metadata, present.
  destruct (topic st) as [t | ].
  - destruct (t =? "") eqn:E.
    + apply String.eqb_eq in E. subst t. reflexivity.
    + unfold generateTopicSVG.
      cbn [get assoc Outcome.bind String.eqb Ascii.eqb Bool.eqb].
      unfold js_or at 1. cbn [truthy]. rewrite E. reflexivity.
  - reflexivity.
Qed.

(** The exceptions that make the visual sub-task fail: the model call, the
    renderer, and the file write of the local deployment. *)
Lemma visual_failure_sources (rt : Runtime) (w : World) (st : PipelineState) :
  is_thrown (Subtask.visual rt w st) = true
  <-> (exists e, illustrator w (show_nullable (topic st)) = GroqThrows e)
      \/ (exists c e,
            illustrator w (show_nullable (topic st)) = GroqReturns c
            /\ generateTopicSVG (read_metadata rt st c) = Thrown e)
      \/ (exists c doc e,
            illustrator w (show_nullable (topic st)) = GroqReturns c
            /\ generateTopicSVG (read_metadata rt st c) = Returned doc
            /\ VERCEL w = false
            /\ writeFileSync w (Subtask.imagePath w) (svg_text rt doc) = Some e).
Proof.
  rewrite visual_unfold.
  destruct (illustrator w _) as [e | c] eqn:Hi.
  { split; [ intros _; left; eauto | reflexivity ]. }
  destruct (generateTopicSVG _) as [doc | e] eqn:Hr.
  2:{ split; [ intros _; right; left; eauto | reflexivity ]. }
  destruct (VERCEL w) eqn:Hv.
  { split; [ discriminate | ].
    intros [[e H] | [[c' [e [H H']]] | [c' [doc' [e [_ [_ [H _]]]]]]]].
    - discriminate.
    - injection H as <-. rewrite Hr in H'. discriminate.
    - discriminate. }
  destruct (writeFileSync w _ _) as [e | ] eqn:Hw.
  { split; [ intros _; right; right; exists c, doc, e; auto | reflexivity ]. }
  split; [ discriminate | ].
  intros [[e H] | [[c' [e [H H']]] | [c' [doc' [e [H [H' [_ H'']]]]]]]].
  - discriminate.
  - injection H as <-. rewrite Hr in H'. discriminate.
  - injection H as <-. rewrite Hr in H'. injection H' as <-.
    rewrite Hw in H''. discriminate.
Qed.

(** C6, as stated.  In the first world the model call of the visual
    sub-task returns and its text parses, the title it carries is a number,
    the renderer throws on it, and the stage ends with [mediaFailed = true]
    although neither model call threw.  In the second world (local
    deployment, read-only disk) the text does not parse, the default
    metadata is rendered, the file write throws, and the stage again ends
    with [mediaFailed = true] although neither model call threw. *)
Lemma renderer_exception_marks_media_failed :
  let w := Sample.world Sample.lesson Sample.lesson
             (Sample.says Sample.numeric_title_text) (Sample.says "y") true None in
  let w' := Sample.world Sample.lesson Sample.lesson
              (Sample.says "I am not JSON") (Sample.says "y") false
              (Some Sample.read_only) in
  (illustrator w (show_nullable (topic Sample.taught))
   = GroqReturns (FirstContent (JStr Sample.numeric_title_text))
   /\ parse_metadata Sample.runtime (FirstContent (JStr Sample.numeric_title_text))
      = Returned Sample.numeric_title_value
   /\ is_thrown (generateTopicSVG Sample.numeric_title_value) = true
   /\ Subtask.narration w Sample.taught = Returned (Some "y")
   /\ fst (runMediaEngine Sample.runtime w Sample.taught fresh)
      = Returned (with_media Sample.taught None (Some "y") true))
  /\ (illustrator w' (show_nullable (topic Sample.taught))
      = GroqReturns (FirstContent (JStr "I am not JSON"))
      /\ is_thrown (parse_metadata Sample.runtime (FirstContent (JStr "I am not JSON")))
         = true
      /\ Subtask.narration w' Sample.taught = Returned (Some "y")
      /\ fst (runMediaEngine Sample.runtime w' Sample.taught fresh)
         = Returned (with_media Sample.taught None (Some "y") true)).
Proof. vm_compute. repeat split. Qed.

(** C6, amended.  When the model call of the visual sub-task returns a
    completion whose text does not parse (the inner [try] throws), the
    metadata is the default object, the renderer returns a document for
    it, and the sub-task fails only if the file write of the local
    deployment throws; so the parse failure does not set [mediaFailed].
    In general the visual sub-task sets [mediaFailed] exactly when an
    exception leaves its [try] block: from the model call, from the
    renderer, or from that file write. *)
Theorem unparsed_metadata_falls_back
  (rt : Runtime) (w : World) (st : PipelineState) (c : ChatCompletion) (e : JSError) :
  illustrator w (show_nullable (topic st)) = GroqReturns c ->
  parse_metadata rt c = Thrown e ->
  read_metadata rt st c = default_metadata st
  /\ generateTopicSVG (default_metadata st) = Returned (Subtask.default_doc st)
  /\ Subtask.visual rt w st
     = (if VERCEL w
        then Returned (Some (data_url rt (svg_text rt (Subtask.default_doc st))))
        else
          match writeFileSync w (Subtask.imagePath w)
                  (svg_text rt (Subtask.default_doc st)) with
          | Some e' => Thrown e'
          | None => Returned (Some ("/public/" ++ Subtask.imageFileName w))
          end)
  /\ (forall sys,
        rejected st = false ->
        present (markdown st) = true ->
        exists final out,
          runMediaEngine rt w st sys = (Returned final, out)
          /\ mediaFailed final
             = (negb (VERCEL w)
                && match writeFileSync w (Subtask.imagePath w)
                           (svg_text rt (Subtask.default_doc st)) with
                   | Some _ => true
                   | None => false
                   end)
               || is_thrown (Subtask.narration w st))
  /\ (forall (w' : World) (st' : PipelineState),
        is_thrown (Subtask.visual rt w' st') = true
        <-> (exists e', illustrator w' (show_nullable (topic st')) = GroqThrows e')
            \/ (exists c' e',
                  illustrator w' (show_nullable (topic st')) = GroqReturns c'
                  /\ generateTopicSVG (read_metadata rt st' c') = Thrown e')
            \/ (exists c' doc e',
                  illustrator w' (show_nullable (topic st')) = GroqReturns c'
                  /\ generateTopicSVG (read_metadata rt st' c') = Returned doc
                  /\ VERCEL w' = false
                  /\ writeFileSync w' (Subtask.imagePath w') (svg_text rt doc)
                     = Some e')).
Proof.
  intros Hi Hp.
  assert (Hmeta : read_metadata rt st c = default_metadata st).
  { unfold read_metadata. rewrite Hp. reflexivity. }
  assert (Hvis : Subtask.visual rt w st
                 = (if VERCEL w
                    then Returned (Some (data_url rt (svg_text rt (Subtask.default_doc st))))
                    else
                      match writeFileSync w (Subtask.imagePath w)
                              (svg_text rt (Subtask.default_doc st)) with
                      | Some e' => Thrown e'
                      | None => Returned (Some ("/public/" ++ Subtask.imageFileName w))
                      end)).
  { rewrite visual_unfold, Hi, Hmeta, default_metadata_renders. reflexivity. }
  split; [ exact Hmeta | ].
  split; [ apply default_metadata_renders | ].
  split; [ exact Hvis | ].
  split; [ | intros w' st'; apply visual_failure_sources ].
  intros sys Hrej Hmd.
  destruct (runMediaEngine_decomposed rt w st sys Hrej Hmd) as [out [Hrun _]].
  do 2 eexists. split; [ exact Hrun | ].
  cbn [mediaFailed with_media]. rewrite Hvis.
  destruct (VERCEL w); [ reflexivity | ].
  destruct (writeFileSync w _ _); reflexivity.
Qed.

(** The model answers in prose: the default metadata is rendered and the
    stage ends with [mediaFailed = false]. *)
Lemma prose_answer_falls_back :
  let w := Sample.world Sample.lesson Sample.lesson
             (Sample.says "I am not JSON") (Sample.says "y") true None in
  read_metadata Sample.runtime Sample.taught (FirstContent (JStr "I am not JSON"))
  = default_metadata Sample.taught
  /\ exists final out,
       runMediaEngine Sample.runtime w Sample.taught fresh = (Returned final, out)
       /\ mediaFailed final = false.
Proof.
  cbv zeta.
  destruct (unparsed_metadata_falls_back Sample.runtime
              (Sample.world Sample.lesson Sample.lesson
                 (Sample.says "I am not JSON") (Sample.says "y") true None)
              Sample.taught (FirstContent (JStr "I am not JSON"))
              (SyntaxError "Unexpected token") eq_refl eq_refl)
    as [Hmeta [_ [_ [Hrun _]]]].
  split; [ exact Hmeta | ].
  destruct (Hrun fresh eq_refl eq_refl) as [final [out [H Hfailed]]].
  exists final, out. split; [ exact H | exact Hfailed ].
Defined.

(** C8, as stated: in the local deployment ([VERCEL] unset) the visual
    sub-task succeeds, the markup is written to a file under the public
    directory, and [imageUrl] is the path of that file, not a data URI. *)
Lemma local_deployment_writes_the_markup :
  let w := Sample.world Sample.lesson Sample.lesson
             (Sample.says "I am not JSON") (Sample.says "y") false None in
  Subtask.visual Sample.runtime w Sample.taught
  = Returned (Some "/public/topic-1700000000000.svg")
  /\ exists final out,
       runMediaEngine Sample.runtime w Sample.taught fresh = (Returned final, out)
       /\ imageUrl final = Some "/public/topic-1700000000000.svg"
       /\ prefix "data:" "/public/topic-1700000000000.svg" = false
       /\ files out
          = [ ("/srv/app/server/public/topic-1700000000000.svg",
               svg_text Sample.runtime (Subtask.default_doc Sample.taught)) ].
Proof.
  cbv zeta. split; [ vm_compute; reflexivity | ].
  do 2 eexists. split; [ vm_compute; reflexivity | ].
  vm_compute. repeat split.
Qed.

(** C8, amended.  Whenever the visual sub-task of a media stage run
    succeeds, [imageUrl] is what it assigned.  With [VERCEL] set that is the
    data URI holding the base64 encoding of the rendered markup, and the
    stage writes no file; with [VERCEL] unset the stage writes the markup to
    [topic-<Date.now()>.svg] under the public directory, once, and
    [imageUrl] is the [/public/] path of that file. *)
Theorem image_emission_by_deployment
  (rt : Runtime) (w : World) (st : PipelineState) (sys : Sys) (url : option string) :
  rejected st = false ->
  present (markdown st) = true ->
  Subtask.visual rt w st = Returned url ->
  exists final out c doc,
    runMediaEngine rt w st sys = (Returned final, out)
    /\ imageUrl final = url
    /\ illustrator w (show_nullable (topic st)) = GroqReturns c
    /\ generateTopicSVG (read_metadata rt st c) = Returned doc
    /\ (VERCEL w = true ->
        url = Some ("data:image/svg+xml;base64," ++ base64 rt (svg_text rt doc))
        /\ files out = files sys)
    /\ (VERCEL w = false ->
        url = Some ("/public/" ++ Subtask.imageFileName w)
        /\ files out = push (files sys) (Subtask.imagePath w, svg_text rt doc)).
Proof.
  intros Hrej Hmd Hvis.
  destruct (runMediaEngine_decomposed rt w st sys Hrej Hmd) as [out [Hrun Hfiles]].
  rewrite Hvis in Hrun. cbn [Subtask.assigned] in Hrun.
  rewrite visual_files_unfold in Hfiles.
  rewrite visual_unfold in Hvis.
  destruct (illustrator w _) as [e | c] eqn:Hi; [ discriminate | ].
  destruct (generateTopicSVG _) as [doc | e] eqn:Hr; [ | discriminate ].
  eexists _, out, c, doc.
  split; [ exact Hrun | ].
  split; [ reflexivity | ].
  split; [ reflexivity | ].
  split; [ exact Hr | ].
  destruct (VERCEL w).
  - split; [ | discriminate ].
    intros _. injection Hvis as <-.
    rewrite app_nil_r in Hfiles. split; [ reflexivity | exact Hfiles ].
  - split; [ discriminate | ].
    intros _.
    destruct (writeFileSync w _ _); [ discriminate | ].
    injection Hvis as <-. split; [ reflexivity | exact Hfiles ].
Qed.

(** The serverless deployment: a data URI and no file. *)
Lemma serverless_deployment_returns_data_uri :
  let w := Sample.world Sample.lesson Sample.lesson
             (Sample.says "I am not JSON") (Sample.says "y") true None in
  exists final out,
    runMediaEngine Sample.runtime w Sample.taught fresh = (Returned final, out)
    /\ imageUrl final
       = Some ("data:image/svg+xml;base64,"
               ++ base64 Sample.runtime
                    (svg_text Sample.runtime (Subtask.default_doc Sample.taught)))
    /\ files out = [].
Proof.
  cbv zeta.
  destruct (image_emission_by_deployment Sample.runtime
              (Sample.world Sample.lesson Sample.lesson
                 (Sample.says "I am not JSON") (Sample.says "y") true None)
              Sample.taught fresh
              (Some ("data:image/svg+xml;base64,"
                     ++ base64 Sample.runtime
                          (svg_text Sample.runtime (Subtask.default_doc Sample.taught))))
              eq_refl eq_refl eq_refl)
    as [final [out [c [doc [Hrun [Hurl [_ [_ [Hdata _]]]]]]]]].
  exists final, out. split; [ exact Hrun | ].
  split; [ exact Hurl | exact (proj2 (Hdata eq_refl)) ].
Defined.

(** ** Escaping *)

Lemma string_app_assoc (a b c : string) : a ++ (b ++ c) = (a ++ b) ++ c.
Proof.
  induction a as [ | x a IH]; [ reflexivity | ].
  cbn [append]. now rewrite IH.
Qed.

Lemma replaceAll_app (c : ascii) (b s1 s2 : string) :
  replaceAll c b (s1 ++ s2) = replaceAll c b s1 ++ replaceAll c b s2.
Proof.
  induction s1 as [ | d r IH]; [ reflexivity | ].
  cbn [append replaceAll]. rewrite IH.
  destruct (Ascii.eqb d c); [ apply string_app_assoc | reflexivity ].
Qed.

Lemma escapeXml_app (s1 s2 : string) :
  escapeXml (s1 ++ s2) = escapeXml s1 ++ escapeXml s2.
Proof. unfold escapeXml. now rewrite !replaceAll_app. Qed.

Lemma escapeXml_cons (c : ascii) (r : string) :
  escapeXml (String c r) = escapeXml (String c "") ++ escapeXml r.
Proof. exact (escapeXml_app (String c "") r). Qed.

Lemma prefix_app_r (e s t : string) :
  prefix e s = true -> prefix e (s ++ t) = true.
Proof.
  revert s.
  induction e as [ | x e IH]; intros s H.
  - destruct (s ++ t); reflexivity.
  - destruct s as [ | y s]; [ discriminate | ].
    cbn [append prefix] in *.
    destruct (ascii_dec x y); [ now apply IH | discriminate ].
Qed.

Lemma well_escaped_app (s1 s2 : string) :
  well_escaped s1 = true -> well_escaped s2 = true ->
  well_escaped (s1 ++ s2) = true.
Proof.
  intros H1 H2. induction s1 as [ | c r IH]; [ exact H2 | ].
  cbn [append well_escaped] in *.
  apply andb_true_iff in H1 as [Hc Hr].
  apply andb_true_iff. split; [ | now apply IH ].
  destruct (Ascii.eqb c "&"); [ | exact Hc ].
  apply existsb_exists in Hc as [e [Hin He]].
  apply existsb_exists. exists e. split; [ exact Hin | ].
  exact (prefix_app_r e (String c r) s2 He).
Qed.

Lemma escapeXml_char_well_escaped (c : ascii) :
  well_escaped (escapeXml (String c "")) = true.
Proof.
  destruct c as [[] [] [] [] [] [] [] []]; vm_compute; reflexivity.
Qed.

(** What [escapeXml] returns needs no further escaping. *)
Lemma escapeXml_well_escaped (s : string) : well_escaped (escapeXml s) = true.
Proof.
  induction s as [ | c r IH]; [ reflexivity | ].
  rewrite escapeXml_cons.
  apply well_escaped_app; [ apply escapeXml_char_well_escaped | exact IH ].
Qed.

(** A suffix of a well-escaped text is well escaped, and so is what is
    left of one when its end is cut off before a character that lies
    outside every entity reference. *)
Lemma well_escaped_suffix (a b : string) :
  well_escaped (a ++ b) = true -> well_escaped b = true.
Proof.
  induction a as [ | c a IH]; [ auto | ].
  cbn [append well_escaped]. intros H.
  apply andb_true_iff in H as [_ H]. auto.
Qed.

Lemma prefix_cut (e s b : string) :
  forallb interior (list_ascii_of_string e) = true ->
  cut_safe b ->
  prefix e (s ++ b) = true -> prefix e s = true.
Proof.
  revert s. induction e as [ | y e IH]; intros s He Hb H.
  - destruct s; reflexivity.
  - cbn [list_ascii_of_string forallb] in He.
    apply andb_true_iff in He as [Hy He].
    destruct s as [ | z s].
    + cbn [append] in H. destruct b as [ | c b]; [ discriminate | ].
      cbn [prefix] in H. destruct (ascii_dec y c); [ subst; congruence | discriminate ].
    + cbn [append prefix] in *.
      destruct (ascii_dec y z); [ now apply IH | discriminate ].
Qed.

Lemma entity_tail_interior (e : string) :
  In e entities ->
  exists t, e = String "&" t /\ forallb interior (list_ascii_of_string t) = true.
Proof.
  intros H. cbn in H.
  repeat (destruct H as [<- | H]; [ eexists; split; reflexivity | ]).
  destruct H.
Qed.

Lemma well_escaped_cut (a b : string) :
  cut_safe b ->
  well_escaped (a ++ b) = true -> well_escaped a = true.
Proof.
  intros Hb. induction a as [ | c a IH]; [ reflexivity | ].
  cbn [append well_escaped]. intros H.
  apply andb_true_iff in H as [Hc H].
  apply andb_true_iff. split; [ | auto ].
  destruct (Ascii.eqb c "&") eqn:E; [ | exact Hc ].
  apply Ascii.eqb_eq in E. subst c.
  apply existsb_exists in Hc as [e [Hin He]].
  apply existsb_exists. exists e. split; [ exact Hin | ].
  destruct (entity_tail_interior e Hin) as [t [-> Ht]].
  cbn [prefix] in *.
  destruct (ascii_dec "&" "&"); [ | congruence ].
  exact (prefix_cut t a b Ht Hb He).
Qed.

Lemma string_app_assoc' (a b c : string) : (a ++ b) ++ c = a ++ (b ++ c).
Proof. symmetry. apply string_app_assoc. Qed.

Lemma drop_is_suffix (n : nat) (s : string) : exists a, s = a ++ drop n s.
Proof.
  revert s. induction n as [ | n IH]; intros s.
  - exists "". reflexivity.
  - destruct s as [ | c s]; [ exists ""; reflexivity | ].
    destruct (IH s) as [a Ha]. exists (String c a). cbn [drop append]. now rewrite <- Ha.
Qed.

(** Splitting at a separator that starts outside every entity reference
    leaves well-escaped pieces. *)
Section Splitting.

Variables (c0 : ascii) (sep' : string).
Hypothesis separator_starts_outside : interior c0 = false.

Lemma split_aux_well_escaped :
  forall s skip cur,
    (skip = O -> well_escaped (cur ++ s) = true) ->
    (skip <> O -> cur = "" /\ well_escaped (drop skip s) = true) ->
    all_well_escaped (split_aux (String c0 sep') skip cur s).
Proof.
  induction s as [ | d r IH]; intros skip cur H0 Hk.
  - cbn [split_aux]. constructor; [ | constructor ].
    destruct skip as [ | k].
    + apply (well_escaped_cut cur ""); [ exact I | auto ].
    + destruct (Hk (Nat.neq_succ_0 k)) as [-> _]. reflexivity.
  - cbn [split_aux]. destruct skip as [ | k].
    + specialize (H0 eq_refl).
      destruct (prefix (String c0 sep') (String d r)) eqn:Hp.
      * assert (d = c0) as ->.
        { cbn [prefix] in Hp. destruct (ascii_dec c0 d); [ auto | discriminate ]. }
        constructor.
        -- apply (well_escaped_cut cur (String c0 r));
             [ exact separator_starts_outside | exact H0 ].
        -- assert (Hr : well_escaped r = true).
           { apply (well_escaped_suffix (cur ++ String c0 "")).
             now rewrite string_app_assoc'. }
           apply IH.
           ++ intros _. exact Hr.
           ++ intros _. split; [ reflexivity | ].
              destruct (drop_is_suffix (String.length (String c0 sep') - 1) r) as [a Ha].
              apply (well_escaped_suffix a). now rewrite <- Ha.
      * apply IH.
        -- intros _. now rewrite string_app_assoc'.
        -- intros Hne. now destruct Hne.
    + destruct (Hk (Nat.neq_succ_0 k)) as [-> Hd]. cbn [drop] in Hd.
      apply IH.
      * intros ->. exact Hd.
      * intros _. split; [ reflexivity | exact Hd ].
Qed.

Lemma split_well_escaped (s : string) :
  well_escaped s = true ->
  all_well_escaped (split s (String c0 sep')).
Proof.
  intros Hs. unfold split. apply split_aux_well_escaped.
  - intros _. exact Hs.
  - intros H. now destruct H.
Qed.

End Splitting.

Lemma Forall_filter {A : Type} (P : A -> Prop) (f : A -> bool) (l : list A) :
  Forall P l -> Forall P (filter f l).
Proof.
  induction 1 as [ | x l Hx Hl IH]; cbn [filter]; [ constructor | ].
  destruct (f x); [ constructor; assumption | assumption ].
Qed.

Lemma Forall_firstn {A : Type} (P : A -> Prop) (n : nat) (l : list A) :
  Forall P l -> Forall P (firstn n l).
Proof.
  revert l. induction n as [ | n IH]; intros l H; [ constructor | ].
  destruct H; cbn [firstn]; [ constructor | constructor; auto ].
Qed.

(** Trimming keeps a text well escaped. *)

Lemma trimStart_is_suffix (s : string) :
  exists a, s = a ++ trimStart s /\ forallb is_ws (list_ascii_of_string a) = true.
Proof.
  induction s as [ | c s [a [Ha Hws]]].
  - exists "". split; reflexivity.
  - cbn [trimStart]. destruct (is_ws c) eqn:E.
    + exists (String c a). cbn [append list_ascii_of_string forallb].
      rewrite E, Hws. split; [ now rewrite <- Ha | reflexivity ].
    + exists "". split; reflexivity.
Qed.

Lemma list_ascii_app (a b : string) :
  list_ascii_of_string (a ++ b)
  = (list_ascii_of_string a ++ list_ascii_of_string b)%list.
Proof.
  induction a as [ | c a IH]; [ reflexivity | ].
  cbn [append list_ascii_of_string]. now rewrite IH.
Qed.

Lemma string_of_list_app (l1 l2 : list ascii) :
  string_of_list_ascii (l1 ++ l2)
  = string_of_list_ascii l1 ++ string_of_list_ascii l2.
Proof.
  induction l1 as [ | c l1 IH]; [ reflexivity | ].
  cbn [List.app string_of_list_ascii append]. now rewrite IH.
Qed.

Lemma rev_string_app (a b : string) :
  rev_string (a ++ b) = rev_string b ++ rev_string a.
Proof.
  unfold rev_string. now rewrite list_ascii_app, rev_app_distr, string_of_list_app.
Qed.

Lemma rev_string_involutive (s : string) : rev_string (rev_string s) = s.
Proof.
  unfold rev_string.
  now rewrite list_ascii_of_string_of_list_ascii, rev_involutive,
    string_of_list_ascii_of_string.
Qed.

Lemma ws_not_interior (c : ascii) : is_ws c = true -> interior c = false.
Proof.
  destruct c as [[] [] [] [] [] [] [] []]; vm_compute; congruence.
Qed.

Lemma all_ws_cut_safe (a : string) :
  forallb is_ws (list_ascii_of_string a) = true -> cut_safe a.
Proof.
  destruct a as [ | c a]; [ exact (fun _ => I) | ].
  cbn [list_ascii_of_string forallb cut_safe]. intros H.
  apply andb_true_iff in H as [H _]. now apply ws_not_interior.
Qed.

Lemma all_ws_rev (a : string) :
  forallb is_ws (list_ascii_of_string a) = true ->
  forallb is_ws (list_ascii_of_string (rev_string a)) = true.
Proof.
  unfold rev_string. rewrite list_ascii_of_string_of_list_ascii.
  rewrite !forallb_forall. intros H x Hx. apply H. now apply in_rev.
Qed.

Lemma trimStart_well_escaped (s : string) :
  well_escaped s = true -> well_escaped (trimStart s) = true.
Proof.
  intros H. destruct (trimStart_is_suffix s) as [a [Ha _]].
  apply (well_escaped_suffix a). now rewrite <- Ha.
Qed.

Lemma trimEnd_well_escaped (s : string) :
  well_escaped s = true -> well_escaped (trimEnd s) = true.
Proof.
  intros H. unfold trimEnd.
  destruct (trimStart_is_suffix (rev_string s)) as [a [Ha Hws]].
  assert (Hs : s = rev_string (trimStart (rev_string s)) ++ rev_string a).
  { rewrite <- rev_string_app, <- Ha. symmetry. apply rev_string_involutive. }
  apply (well_escaped_cut _ (rev_string a)).
  - apply all_ws_cut_safe. now apply all_ws_rev.
  - now rewrite <- Hs.
Qed.

Lemma trim_well_escaped (s : string) :
  well_escaped s = true -> well_escaped (trim s) = true.
Proof.
  intros H. unfold trim. now apply trimEnd_well_escaped, trimStart_well_escaped.
Qed.

(** So do the replacements of the code block. *)

Lemma prefix_replaceAll (c : ascii) (b t r : string) :
  interior c = false ->
  forallb interior (list_ascii_of_string t) = true ->
  prefix t r = true -> prefix t (replaceAll c b r) = true.
Proof.
  intros Hc. revert r. induction t as [ | y t IH]; intros r Ht H.
  - destruct (replaceAll c b r); reflexivity.
  - cbn [list_ascii_of_string forallb] in Ht.
    apply andb_true_iff in Ht as [Hy Ht].
    destruct r as [ | z r]; [ discriminate | ].
    cbn [prefix] in H. destruct (ascii_dec y z) as [<- | ]; [ | discriminate ].
    cbn [replaceAll].
    destruct (Ascii.eqb y c) eqn:E.
    + apply Ascii.eqb_eq in E. subst. congruence.
    + cbn [prefix]. destruct (ascii_dec y y); [ now apply IH | congruence ].
Qed.

Lemma replaceAll_well_escaped (c : ascii) (b s : string) :
  interior c = false ->
  Ascii.eqb c "&" = false ->
  well_escaped b = true ->
  well_escaped s = true ->
  well_escaped (replaceAll c b s) = true.
Proof.
  intros Hc Hamp Hb. induction s as [ | d r IH]; [ reflexivity | ].
  cbn [well_escaped replaceAll]. intros H.
  apply andb_true_iff in H as [Hd Hr].
  destruct (Ascii.eqb d c) eqn:E.
  - apply well_escaped_app; auto.
  - cbn [well_escaped]. apply andb_true_iff. split; [ | auto ].
    destruct (Ascii.eqb d "&") eqn:E'; [ | exact Hd ].
    apply Ascii.eqb_eq in E'. subst d.
    apply existsb_exists in Hd as [e [Hin He]].
    apply existsb_exists. exists e. split; [ exact Hin | ].
    destruct (entity_tail_interior e Hin) as [t [-> Ht]].
    cbn [prefix] in *.
    destruct (ascii_dec "&" "&"); [ | congruence ].
    now apply prefix_replaceAll.
Qed.

Lemma prefix_inv (e s : string) :
  prefix e s = true -> exists r, s = e ++ r.
Proof.
  revert s. induction e as [ | y e IH]; intros s H.
  - exists s. reflexivity.
  - destruct s as [ | z s]; [ discriminate | ].
    cbn [prefix] in H. destruct (ascii_dec y z) as [<- | ]; [ | discriminate ].
    destruct (IH s H) as [r ->]. exists r. reflexivity.
Qed.

Lemma entity_survives_break (e r : string) :
  In e entities ->
  existsb (fun e' => prefix e' (break_after_semicolons false (e ++ r))) entities = true.
Proof.
  intros [<- | [<- | [<- | [<- | [<- | []]]]]]; reflexivity.
Qed.

Lemma break_well_escaped (s : string) :
  forall eating,
    well_escaped s = true ->
    well_escaped (break_after_semicolons eating s) = true.
Proof.
  induction s as [ | d r IH]; intros eating H; [ reflexivity | ].
  pose proof H as Hs.
  cbn [well_escaped] in H. apply andb_true_iff in H as [Hd Hr].
  cbn [break_after_semicolons].
  destruct (eating && is_ws d); [ now apply IH | ].
  destruct (Ascii.eqb d ";") eqn:E.
  - cbn. now apply IH.
  - cbn [well_escaped]. apply andb_true_iff. split; [ | now apply IH ].
    destruct (Ascii.eqb d "&") eqn:E'; [ | exact Hd ].
    apply Ascii.eqb_eq in E'. subst d.
    apply existsb_exists in Hd as [e [Hin He]].
    destruct (prefix_inv e _ He) as [r' Hr'].
    pose proof (entity_survives_break e r' Hin) as Hb.
    rewrite <- Hr' in Hb. cbn [break_after_semicolons] in Hb.
    destruct (false && is_ws "&") eqn:F; [ discriminate | ].
    exact Hb.
Qed.

(** The loops of [generateCodeBlock]. *)

Lemma Forall_push {A : Type} (P : A -> Prop) (l : list A) (x : A) :
  Forall P l -> P x -> Forall P (push l x).
Proof.
  intros Hl Hx. unfold push. apply Forall_app. split; [ exact Hl | ].
  constructor; [ exact Hx | constructor ].
Qed.

Lemma all_well_escaped_push (l : list string) (x : string) :
  all_well_escaped l -> well_escaped x = true -> all_well_escaped (push l x).
Proof. exact (Forall_push (fun p => well_escaped p = true) l x). Qed.

Lemma repeat_spaces_well_escaped (n : nat) :
  well_escaped (repeat_string "  " n) = true.
Proof. induction n as [ | n IH]; [ reflexivity | exact IH ]. Qed.

Create HintDb escaped.

#[local] Hint Resolve escapeXml_well_escaped well_escaped_app trim_well_escaped
  repeat_spaces_well_escaped all_well_escaped_push : escaped.

Lemma indent_loop_well_escaped (parts : list string) :
  all_well_escaped parts ->
  forall codeLines indent,
    all_well_escaped codeLines ->
    all_well_escaped (fst (fold_left indent_step parts (codeLines, indent))).
Proof.
  induction 1 as [ | part parts Hpart Hparts IH]; intros codeLines indent Hl.
  - exact Hl.
  - cbn [fold_left]. unfold indent_step at 2. apply IH.
    auto with escaped.
Qed.

Lemma wrap_loop_well_escaped (words : list string) :
  all_well_escaped words ->
  forall codeLines currentLine,
    all_well_escaped codeLines ->
    well_escaped currentLine = true ->
    all_well_escaped (fst (fold_left wrap_step words (codeLines, currentLine)))
    /\ well_escaped (snd (fold_left wrap_step words (codeLines, currentLine))) = true.
Proof.
  induction 1 as [ | word words Hword Hwords IH]; intros codeLines currentLine Hl Hc.
  - split; assumption.
  - cbn [fold_left]. unfold wrap_step at 2 4.
    destruct ((50 <? String.length (currentLine ++ " " ++ word))%nat
              && (0 <? String.length currentLine)%nat).
    + apply IH; auto with escaped.
    + apply IH; [ exact Hl | ].
      destruct (currentLine =? ""); auto with escaped.
Qed.

(** Every line of the code block is well escaped when the snippet handed to
    [generateCodeBlock] is. *)
Lemma split_code_lines_well_escaped (codeLine : string) :
  well_escaped codeLine = true ->
  all_well_escaped (split_code_lines codeLine).
Proof.
  intros H. unfold split_code_lines.
  apply Forall_firstn.
  assert (Hlines : all_well_escaped (filter nonblank (split codeLine "\n"))).
  { apply Forall_filter. apply split_well_escaped; [ reflexivity | exact H ]. }
  destruct ((List.length (filter nonblank (split codeLine "\n")) <=? 1)%nat
            && (50 <? String.length codeLine)%nat); [ | exact Hlines ].
  set (singleLine := match filter nonblank (split codeLine "\n") with
                     | l :: _ => l
                     | [] => codeLine
                     end).
  assert (Hsingle : well_escaped singleLine = true).
  { subst singleLine. destruct Hlines; assumption. }
  match goal with
  | |- context [filter nonblank (split ?t nl)] => set (broken := t)
  end.
  assert (Hparts : all_well_escaped (filter nonblank (split broken nl))).
  { apply Forall_filter. apply split_well_escaped; [ reflexivity | ].
    subst broken. apply break_well_escaped.
    apply replaceAll_well_escaped; try reflexivity.
    apply replaceAll_well_escaped; try reflexivity. exact Hsingle. }
  destruct (1 <? List.length (filter nonblank (split broken nl)))%nat.
  - apply indent_loop_well_escaped; [ exact Hparts | constructor ].
  - assert (Hwords : all_well_escaped (split singleLine " ")).
    { apply split_well_escaped; [ reflexivity | exact Hsingle ]. }
    destruct (wrap_loop_well_escaped _ Hwords [] "" (Forall_nil _) eq_refl)
      as [Hl Hc].
    destruct (fold_left wrap_step (split singleLine " ") ([], "")) as [codeLines currentLine].
    cbn [fst snd] in Hl, Hc.
    destruct (currentLine =? ""); [ exact Hl | now apply Forall_push ].
Qed.

Lemma map_snd_mapi_from {A B : Type} (f : nat -> A -> B) (l : list A) (i : nat) :
  map snd (mapi_from i (fun j x => (f j x, x)) l) = l.
Proof.
  revert i. induction l as [ | x l IH]; intros i; [ reflexivity | ].
  cbn [mapi_from map snd]. now rewrite IH.
Qed.

Lemma code_lines_of_block (codeLine : string) (theme : Theme) :
  map snd (code_lines (generateCodeBlock codeLine theme)) = split_code_lines codeLine.
Proof.
  unfold generateCodeBlock, mapi. cbn [code_lines].
  apply (map_snd_mapi_from (fun i _ => (274 + Z.of_nat i * 18)%Z)).
Qed.

Lemma map_outcome_escape (items : list JSValue) (concepts : list string) :
  map_outcome escapeXml_value items = Returned concepts ->
  Forall (fun c => exists raw, c = escapeXml raw) concepts.
Proof.
  revert concepts. induction items as [ | v items IH]; intros concepts H.
  - injection H as <-. constructor.
  - cbn [map_outcome] in H. unfold escapeXml_value at 1 in H.
    destruct (as_string v _) as [raw | ]; [ | discriminate ].
    cbn [Outcome.bind] in H.
    destruct (map_outcome escapeXml_value items) as [rest | ]; [ | discriminate ].
    cbn [Outcome.bind] in H. injection H as <-.
    constructor; [ eauto | now apply IH ].
Qed.

Lemma mapi_from_labels (concepts : list string) (i : nat)
  (f : nat -> string -> ConceptCard) :
  (forall j c, card_label (f j c) = substring 0 18 c) ->
  map card_label (mapi_from i f concepts) = map (substring 0 18) concepts.
Proof.
  intros Hf. revert i. induction concepts as [ | c l IH]; intros i; [ reflexivity | ].
  cbn [mapi_from map]. now rewrite Hf, IH.
Qed.

Lemma card_labels (concepts : list string) (theme : Theme) :
  map card_label (generateConceptCards concepts theme)
  = map (substring 0 18) concepts.
Proof.
  unfold generateConceptCards, mapi.
  apply mapi_from_labels. reflexivity.
Qed.

Ltac bind_inv H :=
  match type of H with
  | Outcome.bind ?m _ = Returned _ =>
      let E := fresh "E" in
      destruct m eqn:E; [ cbn [Outcome.bind] in H | discriminate H ]
  end.

Lemma escapeXml_value_inv (v : JSValue) (s : string) :
  escapeXml_value v = Returned s -> exists raw, s = escapeXml raw.
Proof.
  unfold escapeXml_value. intros H. bind_inv H. injection H as <-. eauto.
Qed.

(** X2.  Whenever the renderer returns a document, the category label,
    the title, the subtitle, every line of the code block and the tip are
    well escaped; each card label is the first 18 characters of an escaped
    concept. *)
Theorem rendered_text_outside_cards_is_escaped (meta : JSValue) (doc : SvgDoc) :
  generateTopicSVG meta = Returned doc ->
  well_escaped (doc_category_label doc) = true
  /\ well_escaped (doc_title doc) = true
  /\ well_escaped (doc_subtitle doc) = true
  /\ (forall b, doc_code doc = Some b ->
        all_well_escaped (map snd (code_lines b)))
  /\ (forall t, doc_tip doc = Some t -> well_escaped t = true)
  /\ (exists concepts,
        map card_label (doc_cards doc) = map (substring 0 18) concepts
        /\ Forall (fun c => exists raw, c = escapeXml raw) concepts).
Proof.
  intros H. unfold generateTopicSVG in H.
  repeat bind_inv H.
  injection H as <-. cbn [doc_category_label doc_title doc_subtitle doc_code
                            doc_tip doc_cards].
  split; [ apply escapeXml_well_escaped | ].
  split.
  { match goal with
    | E : escapeXml_value _ = Returned ?s |- well_escaped ?s = true =>
        destruct (escapeXml_value_inv _ _ E) as [raw ->]
    end. apply escapeXml_well_escaped. }
  split.
  { match goal with
    | E : escapeXml_value _ = Returned ?s |- well_escaped ?s = true =>
        destruct (escapeXml_value_inv _ _ E) as [raw ->]
    end. apply escapeXml_well_escaped. }
  split.
  { intros b Hb.
    match type of Hb with
    | (if ?c then _ else _) = _ => destruct c; [ discriminate | ]
    end.
    injection Hb as <-. rewrite code_lines_of_block.
    apply split_code_lines_well_escaped, escapeXml_well_escaped. }
  split.
  { intros t Ht.
    match type of Ht with
    | (if ?c then _ else _) = _ => destruct c; [ discriminate | ]
    end.
    injection Ht as <-. apply escapeXml_well_escaped. }
  eexists. split; [ apply card_labels | ].
  eapply map_outcome_escape; eassumption.
Qed.

(** The document of the default metadata for a topic with reserved
    characters. *)
Lemma rendered_text_of_the_default_metadata :
  let st := with_acceptance Sample.state0 "Templates <T> & traits in C++"
              (JStr "placement_topic") in
  let doc := Subtask.default_doc st in
  well_escaped (doc_category_label doc) = true
  /\ well_escaped (doc_title doc) = true
  /\ well_escaped (doc_subtitle doc) = true
  /\ (forall b, doc_code doc = Some b ->
        all_well_escaped (map snd (code_lines b)))
  /\ (forall t, doc_tip doc = Some t -> well_escaped t = true)
  /\ (exists concepts,
        map card_label (doc_cards doc) = map (substring 0 18) concepts
        /\ Forall (fun c => exists raw, c = escapeXml raw) concepts).
Proof.
  cbv zeta.
  apply (rendered_text_outside_cards_is_escaped
           (default_metadata
              (with_acceptance Sample.state0 "Templates <T> & traits in C++"
                 (JStr "placement_topic")))).
  reflexivity.
Defined.

(** C7.  The metadata carries the key concept ["Trees, Graphs & DFS"].  It
    is escaped to ["Trees, Graphs &amp; DFS"] and then cut to 18
    characters by [generateConceptCards], which leaves ["Trees, Graphs
    &amp"]: an ampersand that starts no entity reference stands in the text
    of the card.  The tip, cut before it is escaped, is embedded whole. *)
Theorem concept_label_is_cut_inside_an_entity :
  exists doc,
    generateTopicSVG Sample.concepts_value = Returned doc
    /\ escapeXml "Trees, Graphs & DFS" = "Trees, Graphs &amp; DFS"
    /\ map card_label (doc_cards doc) = ["Trees, Graphs &amp"]
    /\ map well_escaped (map card_label (doc_cards doc)) = [false]
    /\ forallb well_escaped (text_slots doc) = false
    /\ doc_tip doc = Some "Draw the graph first".
Proof.
  eexists. split; [ vm_compute; reflexivity | ].
  vm_compute. repeat split.
Qed.


(** ** More on the renderer *)

Lemma escapeXml_char_cases (c : ascii) :
  (Text.reserved c = false /\ escapeXml (String c "") = String c "")
  \/ (c = "&"%char /\ escapeXml (String c "") = "&amp;")
  \/ (c = "<"%char /\ escapeXml (String c "") = "&lt;")
  \/ (c = ">"%char /\ escapeXml (String c "") = "&gt;")
  \/ (c = ascii_of_nat 34 /\ escapeXml (String c "") = "&quot;")
  \/ (c = "'"%char /\ escapeXml (String c "") = "&apos;").
Proof.
  destruct c as [[] [] [] [] [] [] [] []]; vm_compute; auto 10.
Qed.

Lemma escapeXml_injective (a : string) :
  forall b, escapeXml a = escapeXml b -> a = b.
Proof.
  induction a as [ | c a IH]; intros [ | d b] H.
  - reflexivity.
  - exfalso. rewrite escapeXml_cons in H.
    destruct (escapeXml_char_cases d) as [[_ E] | [[_ E] | [[_ E] | [[_ E] | [[_ E] | [_ E]]]]]];
      rewrite E in H; discriminate H.
  - exfalso. rewrite escapeXml_cons in H.
    destruct (escapeXml_char_cases c) as [[_ E] | [[_ E] | [[_ E] | [[_ E] | [[_ E] | [_ E]]]]]];
      rewrite E in H; discriminate H.
  - rewrite (escapeXml_cons c), (escapeXml_cons d) in H.
    destruct (escapeXml_char_cases c) as [[Rc Ec] | [[Rc Ec] | [[Rc Ec] | [[Rc Ec] | [[Rc Ec] | [Rc Ec]]]]]];
    destruct (escapeXml_char_cases d) as [[Rd Ed] | [[Rd Ed] | [[Rd Ed] | [[Rd Ed] | [[Rd Ed] | [Rd Ed]]]]]];
      rewrite Ec, Ed in H; subst;
      try discriminate H;
      try (cbn in H; injection H as H; f_equal; now apply IH);
      try (cbn in H; injection H as Hc H; subst; f_equal; now apply IH);
      try (cbn in H; injection H as Hc H; subst; discriminate).
Qed.

Lemma escapeXml_plain (s : string) :
  forallb (fun c => negb (Text.reserved c)) (list_ascii_of_string s) = true ->
  escapeXml s = s.
Proof.
  induction s as [ | c r IH]; [ reflexivity | ].
  cbn [list_ascii_of_string forallb]. intros H.
  apply andb_prop in H as [Hc Hr].
  rewrite escapeXml_cons, (IH Hr).
  destruct (escapeXml_char_cases c)
    as [[_ E] | [[-> _] | [[-> _] | [[-> _] | [[-> _] | [-> _]]]]]];
    [ now rewrite E | discriminate Hc .. ].
Qed.

(** X1.  [escapeXml] is sound and loses nothing: its result is well
    escaped for every string, a string without any of the five reserved
    characters is returned as it is, the escape of a concatenation is the
    concatenation of the escapes, and two strings with the same escape are
    the same string. *)
Theorem escapeXml_is_sound_and_lossless (a b : string) :
  well_escaped (escapeXml a) = true
  /\ (forallb (fun c => negb (Text.reserved c)) (list_ascii_of_string a) = true ->
      escapeXml a = a)
  /\ escapeXml (a ++ b) = escapeXml a ++ escapeXml b
  /\ (escapeXml a = escapeXml b -> a = b).
Proof.
  split; [ apply escapeXml_well_escaped | ].
  split; [ apply escapeXml_plain | ].
  split; [ apply escapeXml_app | apply escapeXml_injective ].
Qed.

Lemma mapi_from_length {A B : Type} (f : nat -> A -> B) (l : list A) :
  forall i, List.length (mapi_from i f l) = List.length l.
Proof.
  induction l as [ | x l IH]; intros i; [ reflexivity | ].
  cbn [mapi_from List.length]. now rewrite IH.
Qed.

Lemma mapi_from_nth_error {A B : Type} (f : nat -> A -> B) (l : list A) :
  forall i k, nth_error (mapi_from i f l) k = option_map (f (i + k)%nat) (nth_error l k).
Proof.
  induction l as [ | x l IH]; intros i k.
  - destruct k; reflexivity.
  - destruct k as [ | k]; cbn [mapi_from nth_error option_map].
    + now rewrite Nat.add_0_r.
    + rewrite IH. now replace (S i + k)%nat with (i + S k)%nat by lia.
Qed.

Lemma substring_length_le (n : nat) :
  forall s, (String.length (substring 0 n s) <= n)%nat.
Proof.
  induction n as [ | n IH]; intros [ | c s]; simpl; try lia.
  specialize (IH s). lia.
Qed.

Lemma substring_is_prefix (n : nat) :
  forall s, exists r, s = substring 0 n s ++ r.
Proof.
  induction n as [ | n IH]; intros [ | c s]; simpl.
  - now exists "".
  - now exists (String c s).
  - now exists "".
  - destruct (IH s) as [r Hr]. exists r. now rewrite <- Hr.
Qed.

(** X4.  The code block holds at most ten lines, the lines of
    [split_code_lines] in their order, numbered from 1; line [i] is drawn
    at y = 274 + 18 i, inside the panel, whose height is 24 + 18 n for [n]
    lines; the panel ends above the tip callout. *)
Theorem code_block_fits_its_panel (codeLine : string) (theme : Theme) :
  let b := generateCodeBlock codeLine theme in
  let n := List.length (code_lines b) in
  (n <= 10)%nat
  /\ List.length (line_numbers b) = n
  /\ map snd (code_lines b) = split_code_lines codeLine
  /\ panel_height b = (24 + 18 * Z.of_nat n)%Z
  /\ (Layout.code_panel_y + panel_height b < Layout.tip_panel_y)%Z
  /\ (forall i, (i < n)%nat ->
        exists line,
          nth_error (code_lines b) i = Some ((274 + 18 * Z.of_nat i)%Z, line)
          /\ nth_error (line_numbers b) i
             = Some ((274 + 18 * Z.of_nat i)%Z, (Z.of_nat i + 1)%Z)
          /\ (Layout.code_panel_y < 274 + 18 * Z.of_nat i
              < Layout.code_panel_y + panel_height b)%Z).
Proof.
  cbv zeta. unfold generateCodeBlock, mapi.
  cbn [code_lines line_numbers panel_height].
  rewrite !mapi_from_length.
  assert (Hn : (List.length (split_code_lines codeLine) <= 10)%nat).
  { unfold split_code_lines. rewrite length_firstn. lia. }
  split; [ exact Hn | ].
  split; [ reflexivity | ].
  split; [ apply (map_snd_mapi_from (fun i _ => (274 + Z.of_nat i * 18)%Z)) | ].
  split; [ lia | ].
  unfold Layout.code_panel_y, Layout.tip_panel_y.
  split; [ lia | ].
  intros i Hi.
  destruct (nth_error (split_code_lines codeLine) i) as [line | ] eqn:E.
  - exists line. rewrite !mapi_from_nth_error, E. cbn [option_map Nat.add].
    repeat split; try (do 2 f_equal; lia); lia.
  - apply nth_error_None in E. lia.
Qed.

(** X5.  [generateConceptCards] makes one card for every concept, however
    many there are: the card of concept [i] stands at x = 36 + 153 i, is
    145 wide, is captioned "Concept i+1", takes the colour [i mod 4] of the
    four chip colours, and is labelled with the first 18 characters of the
    concept; it lies within the width of the canvas exactly when [i < 4]. *)
Theorem concept_card_layout
  (concepts : list string) (theme : Theme) (i : nat) (c : string) :
  nth_error concepts i = Some c ->
  List.length (generateConceptCards concepts theme) = List.length concepts
  /\ exists card,
       nth_error (generateConceptCards concepts theme) i = Some card
       /\ card_x card = (36 + 153 * Z.of_nat i)%Z
       /\ card_y card = 152%Z
       /\ card_width card = 145%Z
       /\ card_caption card = (Z.of_nat i + 1)%Z
       /\ card_color card
          = nth (i mod 4) [accent theme; accentAlt theme; "#10b981"; "#f59e0b"] ""
       /\ card_label card = substring 0 18 c
       /\ (String.length (card_label card) <= 18)%nat
       /\ ((card_x card + card_width card <= Layout.canvas_width)%Z <-> (i < 4)%nat).
Proof.
  intros H. unfold generateConceptCards, mapi.
  rewrite mapi_from_length. split; [ reflexivity | ].
  rewrite mapi_from_nth_error, H. cbn [option_map Nat.add].
  eexists. split; [ reflexivity | ].
  cbn [card_x card_y card_width card_caption card_color card_label List.length].
  unfold Layout.canvas_width.
  repeat split; try lia.
  apply substring_length_le.
Qed.

(** The fifth of five concepts: its card starts at x = 648 and crosses the
    right edge of the canvas. *)
Lemma concept_card_layout_example :
  let concepts := ["Stack"; "Queue"; "Heap"; "Trie"; "Segment tree & lazy propagation"] in
  List.length (generateConceptCards concepts theme_dsa) = 5%nat
  /\ exists card,
       nth_error (generateConceptCards concepts theme_dsa) 4 = Some card
       /\ card_x card = (36 + 153 * Z.of_nat 4)%Z
       /\ card_y card = 152%Z
       /\ card_width card = 145%Z
       /\ card_caption card = (Z.of_nat 4 + 1)%Z
       /\ card_color card
          = nth (4 mod 4) [accent theme_dsa; accentAlt theme_dsa; "#10b981"; "#f59e0b"] ""
       /\ card_label card = substring 0 18 "Segment tree & lazy propagation"
       /\ (String.length (card_label card) <= 18)%nat
       /\ ((card_x card + card_width card <= Layout.canvas_width)%Z <-> (4 < 4)%nat).
Proof.
  cbv zeta.
  apply (concept_card_layout
           ["Stack"; "Queue"; "Heap"; "Trie"; "Segment tree & lazy propagation"]
           theme_dsa 4 "Segment tree & lazy propagation").
  reflexivity.
Defined.

Lemma get_field (meta : JSValue) (key : string) :
  nullish meta = false -> get meta key = Returned (Shape.field meta key).
Proof. destruct meta; simpl; intros H; try discriminate; reflexivity. Qed.

Lemma as_string_or (v : JSValue) (d m : string) :
  if Shape.text_or_falsy v
  then exists s, as_string (js_or v (JStr d)) m = Returned s
  else exists e, as_string (js_or v (JStr d)) m = Thrown e.
Proof.
  destruct v as [ | | [] | n | numeral | s | items | fields]; unfold js_or; cbn; eauto.
  - destruct (n =? 0)%Z; cbn; eauto.
  - destruct (s =? ""); cbn; eauto.
Qed.

Lemma escapeXml_value_or (v : JSValue) (d : string) :
  if Shape.text_or_falsy v
  then exists s, escapeXml_value (js_or v (JStr d)) = Returned s
  else exists e, escapeXml_value (js_or v (JStr d)) = Thrown e.
Proof.
  unfold escapeXml_value.
  pose proof (as_string_or v d "str.replace") as H.
  destruct (Shape.text_or_falsy v); destruct H as [x ->]; cbn; eauto.
Qed.

Lemma map_escape_texts (items : list JSValue) :
  if forallb Shape.is_text items
  then exists l, map_outcome escapeXml_value items = Returned l
  else exists e, map_outcome escapeXml_value items = Thrown e.
Proof.
  induction items as [ | v items IH]; cbn [forallb map_outcome]; [ eauto | ].
  destruct v; cbn; eauto.
  destruct (forallb Shape.is_text items); destruct IH as [x ->]; cbn; eauto.
Qed.

Lemma concepts_or (v : JSValue) :
  if Shape.texts_or_falsy v
  then exists l, forall (B : Type) (k : list string -> Outcome B),
         (let? items := as_array (js_or v (JArr [])) in
          let? concepts := map_outcome escapeXml_value items in
          k concepts) = k l
  else exists e, forall (B : Type) (k : list string -> Outcome B),
         (let? items := as_array (js_or v (JArr [])) in
          let? concepts := map_outcome escapeXml_value items in
          k concepts) = Thrown e.
Proof.
  destruct v as [ | | [] | n | numeral | s | items | fields]; unfold js_or; cbn;
    try (eexists; intros; reflexivity).
  - destruct (n =? 0)%Z; cbn; eexists; intros; reflexivity.
  - destruct (s =? ""); cbn; eexists; intros; reflexivity.
  - pose proof (map_escape_texts items) as H.
    destruct (forallb Shape.is_text items); destruct H as [x ->];
      eexists; intros; reflexivity.
Qed.

Lemma theme_slot (key : string) :
  (existsb (String.eqb key) object_prototype_keys = true
   /\ CATEGORY_THEMES key = PrototypeMember)
  \/ (existsb (String.eqb key) object_prototype_keys = false
      /\ (CATEGORY_THEMES key = NoProperty \/ exists t, CATEGORY_THEMES key = OwnTheme t)).
Proof.
  unfold CATEGORY_THEMES.
  repeat match goal with
         | |- context [if key =? ?s then _ else _] =>
             destruct (key =? s) eqn:?E;
             [ apply String.eqb_eq in E; subst key; right; split; [ reflexivity | eauto ] | clear E ]
         end.
  destruct (existsb (String.eqb key) object_prototype_keys); [ left | right ]; eauto.
Qed.

(** X3.  [generateTopicSVG] throws exactly on the metadata that are not
    renderable: [null] or [undefined]; a title, subtitle, code snippet,
    interview tip or category that is truthy and no string; key concepts
    that are truthy and no array of strings; a category that names a
    member of [Object.prototype].  On every other value, an object with
    missing fields or no object at all included, it returns a document. *)
Theorem renderer_throws_exactly_on_ill_typed_metadata (meta : JSValue) :
  is_thrown (generateTopicSVG meta) = negb (Shape.renderable meta).
Proof.
  unfold Shape.renderable.
  destruct (nullish meta) eqn:Hn.
  { destruct meta; try discriminate; reflexivity. }
  cbn [negb andb]. unfold generateTopicSVG.
  rewrite !(get_field meta _ Hn). cbn [Outcome.bind].
  pose proof (escapeXml_value_or (Shape.field meta "title") "Topic") as H1.
  destruct (Shape.text_or_falsy (Shape.field meta "title"));
    destruct H1 as [x1 ->]; cbn [Outcome.bind andb negb is_thrown]; [ | reflexivity ].
  pose proof (escapeXml_value_or (Shape.field meta "subtitle") "") as H2.
  destruct (Shape.text_or_falsy (Shape.field meta "subtitle"));
    destruct H2 as [x2 ->]; cbn [Outcome.bind andb negb is_thrown]; [ | reflexivity ].
  pose proof (concepts_or (Shape.field meta "keyConcepts")) as H3.
  destruct (Shape.texts_or_falsy (Shape.field meta "keyConcepts"));
    destruct H3 as [x3 H3]; rewrite H3; cbn [Outcome.bind andb negb is_thrown];
    [ | reflexivity ].
  pose proof (as_string_or (Shape.field meta "codeSnippet") "" "substring") as H4.
  destruct (Shape.text_or_falsy (Shape.field meta "codeSnippet"));
    destruct H4 as [x4 ->]; cbn [Outcome.bind andb negb is_thrown]; [ | reflexivity ].
  pose proof (as_string_or (Shape.field meta "interviewTip") "" "substring") as H5.
  destruct (Shape.text_or_falsy (Shape.field meta "interviewTip"));
    destruct H5 as [x5 ->]; cbn [Outcome.bind andb negb is_thrown]; [ | reflexivity ].
  pose proof (as_string_or (Shape.field meta "category") "general" "toUpperCase") as H6.
  destruct (theme_slot (ToString (Shape.field meta "category")))
    as [[Hk ->] | [Hk [-> | [t ->]]]]; rewrite Hk; cbn [Outcome.bind andb negb is_thrown].
  - now rewrite andb_false_r.
  - rewrite andb_true_r.
    destruct (Shape.text_or_falsy (Shape.field meta "category"));
      destruct H6 as [x6 ->]; reflexivity.
  - rewrite andb_true_r.
    destruct (Shape.text_or_falsy (Shape.field meta "category"));
      destruct H6 as [x6 ->]; reflexivity.
Qed.

(** ** More on the stages *)

Lemma from_char_skips (c : ascii) (a r : string) :
  Text.lacks c a = true ->
  from_char c (a ++ String c r) = Some (String c r).
Proof.
  unfold Text.lacks. induction a as [ | d a IH]; cbn; intros H.
  - now rewrite Ascii.eqb_refl.
  - apply andb_prop in H as [Hd Ha].
    destruct (Ascii.eqb d c); [ discriminate | auto ].
Qed.

Lemma from_char_inv (c : ascii) (s t : string) :
  from_char c s = Some t ->
  exists a r, s = a ++ t /\ t = String c r /\ Text.lacks c a = true.
Proof.
  unfold Text.lacks. induction s as [ | d s IH]; cbn; intros H; [ discriminate | ].
  destruct (Ascii.eqb d c) eqn:E.
  - injection H as <-. apply Ascii.eqb_eq in E. subst d.
    exists "", s. repeat split.
  - destruct (IH H) as [a [r [Hs [Ht Ha]]]].
    exists (String d a), r. cbn. rewrite E, Ha. repeat split; auto.
    now rewrite <- Hs.
Qed.

Lemma lacks_rev (c : ascii) (s : string) :
  Text.lacks c (rev_string s) = Text.lacks c s.
Proof.
  unfold Text.lacks, rev_string.
  rewrite list_ascii_of_string_of_list_ascii.
  induction (list_ascii_of_string s) as [ | d l IH]; [ reflexivity | ].
  cbn [rev forallb]. rewrite forallb_app, IH. cbn. rewrite andb_true_r. apply andb_comm.
Qed.

Lemma rev_string_cons (c : ascii) (s : string) :
  rev_string (String c s) = rev_string s ++ String c "".
Proof. exact (rev_string_app (String c "") s). Qed.

(** X6.  What the media stage cuts out of the answer of the model for
    [JSON.parse]: the text from the first opening brace to the last
    closing brace after it, whatever stands before and behind (a code
    fence, prose); there is no match exactly when no closing brace follows
    the first opening one. *)
Theorem match_braces_is_outermost_pair (raw m : string) :
  match_braces raw = Some m
  <-> exists a body b,
        raw = a ++ "{" ++ body ++ "}" ++ b
        /\ Text.lacks "{" a = true
        /\ Text.lacks "}" b = true
        /\ m = "{" ++ body ++ "}".
Proof.
  unfold match_braces. split.
  - intros H.
    destruct (from_char "{" raw) as [s | ] eqn:E1; [ | discriminate ].
    destruct (from_char "}" (rev_string s)) as [t | ] eqn:E2; [ | discriminate ].
    injection H as <-.
    apply from_char_inv in E1 as [a [r [Hraw [Hs Ha]]]].
    apply from_char_inv in E2 as [b' [r' [Hrev [Ht Hb]]]].
    assert (Hs' : s = rev_string t ++ rev_string b').
    { rewrite <- (rev_string_involutive s), Hrev. apply rev_string_app. }
    subst t. rewrite rev_string_cons in Hs' |- *.
    destruct (rev_string r') as [ | c body] eqn:Er.
    + exfalso. rewrite Hs in Hs'. discriminate Hs'.
    + assert (c = "{"%char) as ->.
      { rewrite Hs in Hs'. cbn in Hs'. now injection Hs' as <- _. }
      exists a, body, (rev_string b'). repeat split.
      * rewrite Hraw, Hs'. cbn. f_equal. f_equal.
        now rewrite <- !string_app_assoc.
      * exact Ha.
      * now rewrite lacks_rev.
  - intros [a [body [b [-> [Ha [Hb ->]]]]]].
    change (a ++ "{" ++ body ++ "}" ++ b) with (a ++ String "{" (body ++ "}" ++ b)).
    rewrite (from_char_skips _ _ _ Ha).
    replace (rev_string (String "{" (body ++ "}" ++ b)))
      with (rev_string b ++ String "}" (rev_string (String "{" body))).
    + rewrite from_char_skips by now rewrite lacks_rev.
      f_equal. rewrite rev_string_cons, rev_string_involutive. reflexivity.
    + change (String "{" (body ++ "}" ++ b)) with ((String "{" body) ++ (String "}" "") ++ b).
      rewrite !rev_string_app.
      now rewrite <- string_app_assoc.
Qed.

(** An object in a fenced block, with braces inside a string. *)
Lemma match_braces_in_code_fence :
  match_braces ("```json" ++ nl ++ "{" ++ quoted "title" ++ ":" ++ quoted "Graphs {DFS}" ++ "}" ++ nl ++ "```")
  = Some ("{" ++ quoted "title" ++ ":" ++ quoted "Graphs {DFS}" ++ "}").
Proof.
  apply (proj2 (match_braces_is_outermost_pair _ _)).
  exists ("```json" ++ nl), (quoted "title" ++ ":" ++ quoted "Graphs {DFS}"), (nl ++ "```").
  repeat split.
Defined.

Lemma trimStart_fixed_app (t r : string) :
  t <> "" -> trimStart t = t -> trimStart (t ++ r) = t ++ r.
Proof.
  destruct t as [ | c t]; [ congruence | ].
  intros _. cbn. destruct (is_ws c) eqn:E; [ | reflexivity ].
  intros H. exfalso.
  destruct (trimStart_is_suffix t) as [a [Ha _]].
  assert (L : String.length t = (String.length a + String.length (trimStart t))%nat).
  { rewrite Ha at 1. clear. induction a; cbn; auto. }
  rewrite H in L. cbn in L. lia.
Qed.

Lemma trimEnd_app_nl (t : string) : trimEnd (t ++ nl) = trimEnd t.
Proof.
  unfold trimEnd. rewrite rev_string_app. reflexivity.
Qed.

Lemma string_length_app (a b : string) :
  String.length (a ++ b) = (String.length a + String.length b)%nat.
Proof. induction a; cbn; auto. Qed.

Lemma substring_app_exact (a b : string) :
  substring 0 (String.length a) (a ++ b) = a.
Proof. induction a as [ | c a IH]; cbn; [ now destruct b | now rewrite IH ]. Qed.

Lemma toLowerCase_length (s : string) :
  String.length (toLowerCase s) = String.length s.
Proof. induction s; cbn; auto. Qed.

(** The leading fence with its info string [tag] ("json" in any letter
    case, or nothing) is removed together with the line break after it. *)
Lemma strip_leading_fence_tagged (tag t r : string) :
  tag = "" \/ toLowerCase tag = "json" ->
  trimStart (t ++ r) = t ++ r ->
  Supervisor.strip_leading_fence ("```" ++ tag ++ nl ++ t ++ r) = t ++ r.
Proof.
  intros Htag Ht. unfold Supervisor.strip_leading_fence.
  cbn [append prefix Ascii.eqb Ascii.ascii_dec]. cbn [drop].
  change (if prefix "```" (String "`" (String "`" (String "`" (tag ++ nl ++ t ++ r)))) then ?x else ?y) with x.
  cbv zeta.
  destruct Htag as [-> | Hj].
  - cbn [append]. 
    replace (prefix "json" (toLowerCase (substring 0 4 (nl ++ t ++ r)))) with false.
    + cbn. exact Ht.
    + unfold nl. cbn. reflexivity.
  - assert (L : String.length tag = 4%nat).
    { rewrite <- toLowerCase_length, Hj. reflexivity. }
    destruct tag as [ | c1 [ | c2 [ | c3 [ | c4 [ | c5 tag]]]]]; try discriminate L.
    cbn [append substring].
    replace (substring 0 0 (nl ++ t ++ r)) with "" by (now destruct (nl ++ t ++ r)).
    rewrite Hj. cbn [drop]. exact Ht.
Qed.

Lemma endsWith_app (a p : string) : endsWith (a ++ p) p = true.
Proof.
  unfold endsWith. rewrite rev_string_app.
  generalize (rev_string p) (rev_string a). clear.
  intros x y. induction x as [ | c x IH]; cbn.
  - now destruct y.
  - now rewrite Ascii.eqb_refl || (destruct (ascii_dec c c); [ exact IH | congruence ]).
Qed.

Lemma strip_trailing_fence_closed (t : string) :
  trimEnd t = t ->
  Supervisor.strip_trailing_fence (t ++ nl ++ "```") = t.
Proof.
  intros Ht. unfold Supervisor.strip_trailing_fence.
  rewrite string_app_assoc, endsWith_app.
  rewrite string_length_app. cbn [String.length].
  replace (String.length (t ++ nl) + 3 - 3)%nat with (String.length (t ++ nl)) by lia.
  rewrite substring_app_exact, trimEnd_app_nl. exact Ht.
Qed.

Lemma trimEnd_fixed_app (a t : string) :
  t <> "" -> trimEnd t = t -> trimEnd (a ++ t) = a ++ t.
Proof.
  intros Hne Ht. unfold trimEnd in *. rewrite rev_string_app.
  assert (Hr : trimStart (rev_string t) = rev_string t).
  { rewrite <- (rev_string_involutive (trimStart (rev_string t))), Ht. reflexivity. }
  rewrite trimStart_fixed_app; [ | | exact Hr ].
  - now rewrite <- rev_string_app, rev_string_involutive.
  - intros E. apply Hne. rewrite <- (rev_string_involutive t), E. reflexivity.
Qed.

(** X7.  A classification answer wrapped in a Markdown code fence, the info
    string being "json" in any letter case or absent, reaches [JSON.parse]
    of the supervisor without the fence; an answer that neither starts nor
    ends with a fence reaches it as it is. *)
Theorem unfenced_strips_a_code_fence (tag t : string) :
  tag = "" \/ toLowerCase tag = "json" ->
  trimStart t = t ->
  trimEnd t = t ->
  t <> "" ->
  Supervisor.unfenced ("```" ++ tag ++ nl ++ t ++ nl ++ "```") = t
  /\ (prefix "```" t = false -> endsWith t "```" = false -> Supervisor.unfenced t = t).
Proof.
  intros Htag Hs He Hne. unfold Supervisor.unfenced. split.
  - assert (Htrim : trim ("```" ++ tag ++ nl ++ t ++ nl ++ "```")
                    = "```" ++ tag ++ nl ++ t ++ nl ++ "```").
    { unfold trim. cbn [append trimStart].
      change (is_ws "`") with false. cbv iota.
      change (String "`" (String "`" (String "`" (tag ++ nl ++ t ++ nl ++ "```"))))
        with ("```" ++ tag ++ nl ++ t ++ nl ++ "```").
      rewrite !string_app_assoc.
      apply trimEnd_fixed_app; [ discriminate | reflexivity ]. }
    rewrite Htrim.
    rewrite (strip_leading_fence_tagged tag t (nl ++ "```") Htag).
    + now apply strip_trailing_fence_closed.
    + now apply trimStart_fixed_app.
  - intros Hp Hq. unfold trim. rewrite Hs, He.
    unfold Supervisor.strip_leading_fence. rewrite Hp.
    unfold Supervisor.strip_trailing_fence. now rewrite Hq.
Qed.

(** The accepted answer of the examples in a fence tagged "JSON". *)
Lemma unfenced_strips_a_code_fence_example :
  Supervisor.unfenced ("```JSON" ++ nl ++ Sample.accepted_text ++ nl ++ "```")
  = Sample.accepted_text
  /\ (prefix "```" Sample.accepted_text = false ->
      endsWith Sample.accepted_text "```" = false ->
      Supervisor.unfenced Sample.accepted_text = Sample.accepted_text).
Proof.
  apply (unfenced_strips_a_code_fence "JSON" Sample.accepted_text);
    [ right; reflexivity | reflexivity | reflexivity | discriminate ].
Defined.

(** The supervisor either rejects, with the notice that fits the
    classification and without any effect, or accepts. *)
Lemma runSupervisor_outcomes (rt : Runtime) (w : World) (st : PipelineState) (sys : Sys) :
  (exists reason cls,
      strict_eq_str cls "placement_topic" = false
      /\ Supervisor.runSupervisor rt w st sys
         = (Returned
              (with_rejection st
                 (if strict_eq_str cls "harmful"
                  then Supervisor.harmful_notice reason
                  else Supervisor.irrelevant_notice reason) cls), sys))
  \/ (exists sys',
        Supervisor.runSupervisor rt w st sys
        = (Returned (with_acceptance st (query st) (JStr "placement_topic")), sys')
        /\ files sys' = files sys).
Proof.
  unfold Supervisor.runSupervisor. run_monad.
  destruct (classifier w (query st)) as [e | content]; simpl; [ right; eauto | ].
  destruct (as_string content _) as [text | e]; simpl; [ | right; eauto ].
  unfold Supervisor.parse.
  destruct (JSON_parse rt _) as [result | ]; simpl; [ | right; eauto ].
  destruct (get result "classification") as [cls | e] eqn:Hcls; simpl; [ | right; eauto ].
  destruct (strict_eq_str cls "placement_topic") eqn:Hacc; simpl.
  - apply strict_eq_str_true in Hacc. subst cls. right; eauto.
  - destruct (get result "reason") as [reason | e] eqn:Hreason; simpl.
    + left. exists reason, cls. split; [ exact Hacc | reflexivity ].
    + right; eauto.
Qed.

(** The run of the graph on any state: the three stages in turn, the
    later two skipped after a rejection. *)
Lemma invoke_unfold (rt : Runtime) (w : World) (s0 : PipelineState) (sys : Sys) :
  Graph.run rt w Graph.recursion_limit Graph.supervisor s0 sys
  = match Supervisor.runSupervisor rt w s0 sys with
    | (Thrown e, out) => (Thrown e, out)
    | (Returned u1, sys1) =>
        let s1 := Graph.apply_update s0 u1 in
        if rejected s1 then (Returned s1, sys1)
        else
          match Researcher.runResearcher rt w s1 sys1 with
          | (Thrown e, out) => (Thrown e, out)
          | (Returned u2, sys2) =>
              let s2 := Graph.apply_update s1 u2 in
              match runMediaEngine rt w s2 sys2 with
              | (Thrown e, out) => (Thrown e, out)
              | (Returned u3, sys3) => (Returned (Graph.apply_update s2 u3), sys3)
              end
          end
    end.
Proof.
  unfold Graph.recursion_limit.
  rewrite run_step. cbv beta iota. unfold Graph.node_action at 1.
  unfold Eff.bind at 1.
  destruct (Supervisor.runSupervisor rt w s0 sys) as [[u1 | e] sys1]; [ | reflexivity ].
  cbv zeta. unfold Eff.bind at 1, Eff.lift.
  cbn [Graph.next_node]. unfold Graph.routeAfterSupervisor.
  destruct (rejected (Graph.apply_update s0 u1)).
  - change (Graph.conditional_edges "end") with (Some Graph.END).
    cbv iota. rewrite run_step. reflexivity.
  - change (Graph.conditional_edges "researcher") with (Some Graph.researcher).
    cbv iota.
    rewrite run_step. cbv beta iota. unfold Graph.node_action at 1.
    unfold Eff.bind at 1.
    destruct (Researcher.runResearcher rt w _ sys1) as [[u2 | e] sys2]; [ | reflexivity ].
    unfold Eff.bind at 1, Eff.lift. cbn [Graph.next_node].
    rewrite run_step. cbv beta iota. unfold Graph.node_action at 1.
    unfold Eff.bind at 1.
    destruct (runMediaEngine rt w _ sys2) as [[u3 | e] sys3]; [ | reflexivity ].
    unfold Eff.bind at 1, Eff.lift. cbn [Graph.next_node].
    rewrite run_step. reflexivity.
Qed.

(** The run of the graph from an initial state, stage by stage. *)
Lemma invoke_stages (rt : Runtime) (w : World) (q : string) (d : JSNum) (sys : Sys) :
  let s0 := Graph.createInitialState q d in
  (exists reason cls,
      strict_eq_str cls "placement_topic" = false
      /\ Supervisor.runSupervisor rt w s0 sys
         = (Returned
              (with_rejection s0
                 (if strict_eq_str cls "harmful"
                  then Supervisor.harmful_notice reason
                  else Supervisor.irrelevant_notice reason) cls), sys)
      /\ Graph.invoke rt w s0 sys
         = (Returned
              (Graph.apply_update s0
                 (with_rejection s0
                    (if strict_eq_str cls "harmful"
                     then Supervisor.harmful_notice reason
                     else Supervisor.irrelevant_notice reason) cls)), sys))
  \/ (exists sys1 md sys2 u3 sys3,
        let s1 := with_acceptance s0 q (JStr "placement_topic") in
        Supervisor.runSupervisor rt w s0 sys = (Returned s1, sys1)
        /\ files sys1 = files sys
        /\ Researcher.runResearcher rt w s1 sys1 = (Returned (with_markdown s1 md), sys2)
        /\ files sys2 = files sys1
        /\ runMediaEngine rt w (with_markdown s1 md) sys2 = (Returned u3, sys3)
        /\ (u3 = with_markdown s1 md
            \/ exists img aud failed, u3 = with_media (with_markdown s1 md) img aud failed)
        /\ Graph.invoke rt w s0 sys
           = (Returned (Graph.apply_update (with_markdown s1 md) u3), sys3)).
Proof.
  cbv zeta. unfold Graph.invoke.
  change (Graph.apply_update Graph.channel_defaults (Graph.createInitialState q d))
    with (Graph.createInitialState q d).
  set (s0 := Graph.createInitialState q d).
  rewrite invoke_unfold.
  destruct (runSupervisor_outcomes rt w s0 sys)
    as [[reason [cls [Hne Hrun1]]] | [sys1 [Hrun1 Hf1]]].
  - left. exists reason, cls. rewrite Hrun1. repeat split; assumption.
  - right. rewrite Hrun1. cbv zeta.
    change (Graph.apply_update s0 (with_acceptance s0 (query s0) (JStr "placement_topic")))
      with (with_acceptance s0 q (JStr "placement_topic")).
    set (s1 := with_acceptance s0 q (JStr "placement_topic")).
    change (rejected s1) with false. cbv iota.
    destruct (runResearcher_cases rt w s1 sys1 eq_refl) as [md [sys2 [Hrun2 [Hf2 _]]]].
    rewrite Hrun2.
    change (Graph.apply_update s1 (with_markdown s1 md)) with (with_markdown s1 md).
    destruct (runMediaEngine_cases rt w (with_markdown s1 md) sys2) as [u3 [sys3 [Hrun3 Hu3]]].
    rewrite Hrun3.
    exists sys1, md, sys2, u3, sys3.
    repeat split; assumption.
Qed.

(** X11.  Every run of the graph from an initial state ends in a state
    that holds the query it was given and the clamped duration, and whose
    other fields follow the verdict.  After a rejection: no topic, the
    rejection notice that fits the classification, a classification other
    than ["placement_topic"], [mediaFailed] false, and no effect at all on
    files or console.  After an acceptance: the query as the topic, no
    rejection reason, and the classification ["placement_topic"]. *)
Theorem final_state_by_verdict
  (rt : Runtime) (w : World) (q : string) (d : JSNum) (sys : Sys) :
  exists final sys',
    Graph.invoke rt w (Graph.createInitialState q d) sys = (Returned final, sys')
    /\ query final = q
    /\ duration final = Z.min 5 (Z.max 2 (num_or d 3))
    /\ ((rejected final = true
         /\ topic final = None
         /\ (exists reason,
               rejectionReason final
               = Some (if strict_eq_str (classification final) "harmful"
                       then Supervisor.harmful_notice reason
                       else Supervisor.irrelevant_notice reason))
         /\ strict_eq_str (classification final) "placement_topic" = false
         /\ mediaFailed final = false
         /\ sys' = sys)
        \/ (rejected final = false
            /\ topic final = Some q
            /\ rejectionReason final = None
            /\ classification final = JStr "placement_topic")).
Proof.
  destruct (invoke_stages rt w q d sys)
    as [[reason [cls [Hne [_ Hrun]]]]
       | [sys1 [md [sys2 [u3 [sys3 [_ [_ [_ [_ [_ [Hu3 Hrun]]]]]]]]]]]];
    cbv zeta in Hrun; rewrite Hrun; do 2 eexists; (split; [ reflexivity | ]).
  - split; [ reflexivity | ]. split; [ reflexivity | ].
    left. cbn. unfold Graph.coalesce_value, js_coalesce. repeat split.
    + exists reason. destruct cls; reflexivity.
    + destruct (nullish cls); [ reflexivity | exact Hne ].
  - destruct Hu3 as [-> | [img [aud [failed ->]]]];
      (split; [ reflexivity | ]); (split; [ reflexivity | ]); right; cbn; repeat split.
Qed.

Lemma prefix_app_self (p x : string) : prefix p (p ++ x) = true.
Proof.
  induction p as [ | c p IH]; cbn; [ now destruct x | ].
  destruct (ascii_dec c c); [ exact IH | congruence ].
Qed.

(** X8.  When the supervisor rejects, it has had no effect, it leaves the
    topic as it was, and the notice it stores starts with the warning
    about harmful content exactly when the classification it stores is
    ["harmful"], and with the notice about placement preparation exactly
    when it is anything else. *)
Theorem rejection_notice_tells_harmful_apart
  (rt : Runtime) (w : World) (st st' : PipelineState) (sys sys' : Sys) :
  Supervisor.runSupervisor rt w st sys = (Returned st', sys') ->
  rejected st' = true ->
  sys' = sys
  /\ topic st' = topic st
  /\ exists notice,
       rejectionReason st' = Some notice
       /\ (prefix "⚠️ This query was flagged as harmful: " notice = true
           <-> classification st' = JStr "harmful")
       /\ (prefix "🚫 This query is not related to placement preparation: " notice = true
           <-> classification st' <> JStr "harmful").
Proof.
  intros Hrun Hrej.
  destruct (runSupervisor_outcomes rt w st sys)
    as [[reason [cls [Hne Hrun1]]] | [sys1 [Hrun1 _]]];
    rewrite Hrun1 in Hrun; injection Hrun as <- <-; [ | discriminate Hrej ].
  split; [ reflexivity | ]. split; [ reflexivity | ].
  eexists. split; [ reflexivity | ].
  cbn [classification with_rejection].
  destruct (strict_eq_str cls "harmful") eqn:E.
  - apply strict_eq_str_true in E. subst cls.
    split; split; intros H.
    + reflexivity.
    + apply prefix_app_self.
    + exfalso. cbn in H. discriminate H.
    + now contradiction H.
  - assert (Hc : cls <> JStr "harmful") by (intros ->; discriminate E).
    split; split; intros H.
    + exfalso. cbn in H. discriminate H.
    + contradiction.
    + exact Hc.
    + apply prefix_app_self.
Qed.

(** The classification ["maybe"]. *)
Lemma rejection_notice_tells_harmful_apart_example :
  let w := Sample.world (ModelReturns (JStr Sample.unsure_text)) Sample.lesson
             (Sample.says "x") (Sample.says "y") true None in
  let st' := with_rejection Sample.state0
               (Supervisor.irrelevant_notice (JStr "unsure")) (JStr "maybe") in
  fresh = fresh
  /\ topic st' = topic Sample.state0
  /\ exists notice,
       rejectionReason st' = Some notice
       /\ (prefix "⚠️ This query was flagged as harmful: " notice = true
           <-> classification st' = JStr "harmful")
       /\ (prefix "🚫 This query is not related to placement preparation: " notice = true
           <-> classification st' <> JStr "harmful").
Proof.
  cbv zeta.
  apply (rejection_notice_tells_harmful_apart Sample.runtime
           (Sample.world (ModelReturns (JStr Sample.unsure_text)) Sample.lesson
              (Sample.says "x") (Sample.says "y") true None)
           Sample.state0); reflexivity.
Defined.

(** X9.  The content stage consults the model at one request only: the
    reading time is [state.duration || 3], the word count is that of
    [DURATION_MAP] for it (450 where the map has no entry), the subject is
    the topic, or the query when there is none.  Two worlds whose teachers
    agree on that request give the same run.  For a duration between 2 and
    5, as every initial state has it, the request asks for 150 words a
    minute of the stored duration. *)
Theorem teacher_is_asked_for_the_stored_duration
  (rt rt' : Runtime) (w w' : World) (st : PipelineState) (sys : Sys) :
  (forall req,
      req_minutes req = Budget.minutes st ->
      req_words req = Budget.words (Budget.minutes st) ->
      req_subject req = (if present (topic st) then show_nullable (topic st) else query st) ->
      teacher w req = teacher w' req) ->
  Researcher.runResearcher rt w st sys = Researcher.runResearcher rt' w' st sys
  /\ ((2 <= duration st <= 5)%Z ->
      Budget.minutes st = duration st
      /\ Budget.words (Budget.minutes st) = (150 * duration st)%Z).
Proof.
  intros Hagree. split.
  - unfold Researcher.runResearcher.
    destruct (rejected st); [ reflexivity | ].
    cbv zeta. rewrite Hagree; [ reflexivity | reflexivity | | reflexivity ].
    cbn [req_words]. unfold Budget.words, Budget.minutes, Researcher.DURATION_MAP.
    set (m := num_or (Num (duration st)) 3).
    destruct (m =? 2)%Z eqn:E2; [ apply Z.eqb_eq in E2; rewrite E2; reflexivity | ].
    destruct (m =? 3)%Z eqn:E3; [ apply Z.eqb_eq in E3; rewrite E3; reflexivity | ].
    destruct (m =? 4)%Z eqn:E4; [ apply Z.eqb_eq in E4; rewrite E4; reflexivity | ].
    destruct (m =? 5)%Z eqn:E5; [ apply Z.eqb_eq in E5; rewrite E5; reflexivity | ].
    apply Z.eqb_neq in E2, E3, E4, E5. cbn [Researcher.words Researcher.moderate].
    destruct ((2 <=? m) && (m <=? 5))%Z eqn:E; [ | reflexivity ].
    apply andb_prop in E as [Ea Eb]. apply Z.leb_le in Ea, Eb. lia.
  - intros Hd. unfold Budget.minutes, Budget.words, num_or.
    destruct (duration st =? 0)%Z eqn:E0; [ apply Z.eqb_eq in E0; lia | ].
    split; [ reflexivity | ].
    destruct (2 <=? duration st)%Z eqn:Ea; [ | apply Z.leb_gt in Ea; lia ].
    destruct (duration st <=? 5)%Z eqn:Eb; [ reflexivity | apply Z.leb_gt in Eb; lia ].
Qed.

(** A teacher that answers requests for 4 minutes and 600 words only. *)
Lemma teacher_is_asked_for_the_stored_duration_example :
  let st := with_acceptance (Graph.createInitialState "Explain heaps" (Num 4))
              "Explain heaps" (JStr "placement_topic") in
  let four := fun req =>
                if ((req_minutes req =? 4) && (req_words req =? 600))%Z
                then Sample.lesson else ModelThrows Sample.timeout in
  let w := {| classifier := fun _ => Sample.lesson; teacher := four;
              illustrator := fun _ => Sample.says "x"; narrator := fun _ => Sample.says "y";
              VERCEL := true; Date_now := 0; publicDir := "";
              writeFileSync := fun _ _ => None |} in
  let w' := Sample.world Sample.lesson Sample.lesson (Sample.says "x") (Sample.says "y")
              true None in
  Researcher.runResearcher Sample.runtime w st fresh
  = Researcher.runResearcher Sample.runtime w' st fresh
  /\ ((2 <= duration st <= 5)%Z ->
      Budget.minutes st = duration st
      /\ Budget.words (Budget.minutes st) = (150 * duration st)%Z).
Proof.
  cbv zeta.
  apply teacher_is_asked_for_the_stored_duration.
  intros req Hm Hw _. cbn in Hm, Hw. cbn [teacher Sample.world].
  rewrite Hm, Hw. reflexivity.
Defined.

(** X10.  The narration sub-task consults the model at one request only:
    [state.duration || 3] minutes, 150 words a minute, and the first 3000
    characters of the markdown at most.  Two worlds whose narrators agree
    on such requests give the same second [try] block. *)
Theorem narrator_is_asked_for_150_words_a_minute
  (w w' : World) (st : PipelineState) (l : Locals) (sys : Sys) :
  (forall req,
      nar_minutes req = Budget.minutes st ->
      nar_words req = (150 * Budget.minutes st)%Z ->
      (String.length (nar_content req) <= 3000)%nat ->
      (exists md rest, markdown st = Some md /\ md = nar_content req ++ rest) ->
      narrator w req = narrator w' req) ->
  audio_block w st l sys = audio_block w' st l sys.
Proof.
  intros Hagree. unfold audio_block, audio_try.
  destruct (markdown st) as [md | ] eqn:Hmd; [ | reflexivity ].
  unfold try_catch, Eff.bind, Eff.lift. cbv beta iota zeta.
  rewrite Hagree; [ reflexivity | reflexivity | | | ].
  - cbn [nar_words]. unfold Budget.minutes. lia.
  - cbn [nar_content]. apply substring_length_le.
  - cbn [nar_content]. destruct (substring_is_prefix 3000 md) as [r Hr]. eauto.
Qed.

(** A narrator that answers requests for 3 minutes and 450 words only. *)
Lemma narrator_is_asked_for_150_words_a_minute_example :
  let brief := fun req =>
                 if ((nar_minutes req =? 3) && (nar_words req =? 450))%Z
                 then Sample.says "Today we look at REST."
                 else GroqThrows Sample.timeout in
  let w := {| classifier := fun _ => Sample.lesson; teacher := fun _ => Sample.lesson;
              illustrator := fun _ => Sample.says "x"; narrator := brief;
              VERCEL := true; Date_now := 0; publicDir := "";
              writeFileSync := fun _ _ => None |} in
  let w' := Sample.world Sample.lesson Sample.lesson (Sample.says "x")
              (Sample.says "Today we look at REST.") true None in
  audio_block w Sample.taught initial_locals fresh
  = audio_block w' Sample.taught initial_locals fresh.
Proof.
  cbv zeta.
  apply narrator_is_asked_for_150_words_a_minute.
  intros req Hm Hw _ _. cbn in Hm, Hw. cbn [narrator Sample.world].
  rewrite Hm, Hw. reflexivity.
Defined.

(** The files of the media stage: none, or the one image of the local
    deployment. *)
Lemma runMediaEngine_files (rt : Runtime) (w : World) (st : PipelineState) (sys : Sys) :
  exists st' out,
    runMediaEngine rt w st sys = (Returned st', out)
    /\ (files out = files sys
        \/ (VERCEL w = false
            /\ rejected st = false
            /\ exists content,
                 files out = push (files sys) (Subtask.imagePath w, content)
                 /\ imageUrl st' = Some ("/public/" ++ Subtask.imageFileName w))).
Proof.
  destruct (rejected st) eqn:Hrej.
  { exists st, sys. unfold runMediaEngine. rewrite Hrej. split; [ reflexivity | now left ]. }
  destruct (present (markdown st)) eqn:Hmd.
  2:{ exists st, sys. unfold runMediaEngine. rewrite Hrej, Hmd.
      split; [ reflexivity | now left ]. }
  destruct (runMediaEngine_decomposed rt w st sys Hrej Hmd) as [out [Hrun Hfiles]].
  rewrite Hrun. do 2 eexists. split; [ reflexivity | ].
  rewrite Hfiles, visual_files_unfold.
  cbn [imageUrl with_media]. rewrite visual_unfold.
  destruct (illustrator w _) as [e | c]; [ left; apply app_nil_r | ].
  destruct (generateTopicSVG _) as [doc | e]; [ | left; apply app_nil_r ].
  destruct (VERCEL w); [ left; apply app_nil_r | ].
  destruct (writeFileSync w _ _) as [e | ]; [ left; apply app_nil_r | ].
  right. repeat split. eexists. split; reflexivity.
Qed.

(** X12.  A run of the graph writes at most one file: the image of the
    local deployment, at [publicDir/topic-<now>.svg], and then [imageUrl]
    is its [/public/] path.  It writes none when [process.env.VERCEL] is
    set, none when the query is rejected, and none when the final state
    has no image. *)
Theorem run_writes_at_most_the_local_image
  (rt : Runtime) (w : World) (q : string) (d : JSNum) (sys : Sys) :
  exists final sys',
    Graph.invoke rt w (Graph.createInitialState q d) sys = (Returned final, sys')
    /\ (files sys' = files sys
        \/ (exists content,
              files sys' = push (files sys) (Subtask.imagePath w, content)
              /\ imageUrl final = Some ("/public/" ++ Subtask.imageFileName w)))
    /\ (VERCEL w = true -> files sys' = files sys)
    /\ (rejected final = true -> files sys' = files sys)
    /\ (imageUrl final = None -> files sys' = files sys).
Proof.
  destruct (invoke_stages rt w q d sys)
    as [[reason [cls [_ [_ Hrun]]]]
       | [sys1 [md [sys2 [u3 [sys3 [_ [Hf1 [_ [Hf2 [Hrun3 [Hu3 Hrun]]]]]]]]]]]];
    cbv zeta in Hrun; rewrite Hrun; do 2 eexists; (split; [ reflexivity | ]).
  - repeat split; auto.
  - match type of Hrun3 with
    | runMediaEngine _ _ ?s _ = _ =>
        destruct (runMediaEngine_files rt w s sys2) as [u3' [out [Hrun3' Hfiles]]]
    end.
    rewrite Hrun3 in Hrun3'. injection Hrun3' as <- <-.
    rewrite Hf2, Hf1 in Hfiles.
    destruct Hfiles as [Hsame | [Hv [_ [content [Hpush Hurl]]]]].
    + repeat split; auto.
    + assert (Hfinal : imageUrl (Graph.apply_update
                                   (with_markdown
                                      (with_acceptance (Graph.createInitialState q d) q
                                         (JStr "placement_topic")) md) u3)
                       = Some ("/public/" ++ Subtask.imageFileName w)).
      { cbn [imageUrl Graph.apply_update]. rewrite Hurl. reflexivity. }
      split; [ right; eauto | ].
      split; [ intros Hv'; congruence | ].
      split; [ intros Hr; exfalso;
               destruct Hu3 as [-> | [img [aud [failed ->]]]]; discriminate Hr | ].
      intros Hn. rewrite Hfinal in Hn. discriminate Hn.
Qed.

(** The query and the duration of the initial state reach the final
    state. *)
Lemma invoke_keeps_inputs
  (rt : Runtime) (w : World) (q : string) (d : JSNum) (sys : Sys) :
  exists final sys',
    Graph.invoke rt w (Graph.createInitialState q d) sys = (Returned final, sys')
    /\ query final = q
    /\ duration final = Z.min 5 (Z.max 2 (num_or d 3))
    /\ (2 <= duration final <= 5)%Z.
Proof.
  destruct (invoke_stages rt w q d sys)
    as [[reason [cls [_ [_ Hrun]]]]
       | [sys1 [md [sys2 [u3 [sys3 [_ [_ [_ [_ [_ [Hu3 Hrun]]]]]]]]]]]];
    cbv zeta in Hrun; rewrite Hrun; do 2 eexists; (split; [ reflexivity | ]).
  - cbn. repeat split; lia.
  - destruct Hu3 as [-> | [img [aud [failed ->]]]]; cbn; repeat split; lia.
Qed.

(** X13.  When the content model answers an accepted query with a blank
    text, [markdown] is the empty string, which the media stage takes for
    no content: the run ends without image and narration, with
    [mediaFailed] false, and without a file. *)
Theorem blank_lesson_skips_the_media_stage
  (rt : Runtime) (w : World) (q : string) (d : JSNum) (sys : Sys) (text : string) :
  (forall req, teacher w req = ModelReturns (JStr text)) ->
  trim text = "" ->
  exists final sys',
    Graph.invoke rt w (Graph.createInitialState q d) sys = (Returned final, sys')
    /\ (rejected final = false ->
        markdown final = Some ""
        /\ imageUrl final = None
        /\ audioText final = None
        /\ mediaFailed final = false
        /\ files sys' = files sys).
Proof.
  intros Hteach Hblank.
  destruct (invoke_stages rt w q d sys)
    as [[reason [cls [_ [_ Hrun]]]]
       | [sys1 [md [sys2 [u3 [sys3 [_ [Hf1 [Hrun2 [Hf2 [Hrun3 [_ Hrun]]]]]]]]]]]];
    cbv zeta in Hrun; rewrite Hrun; do 2 eexists; (split; [ reflexivity | ]).
  - intros H. discriminate H.
  - intros _.
    assert (Hmd : md = "").
    { unfold Researcher.runResearcher in Hrun2. cbn [rejected with_acceptance] in Hrun2.
      cbv zeta in Hrun2. rewrite Hteach in Hrun2. cbn in Hrun2.
      rewrite Hblank in Hrun2. injection Hrun2 as H _. congruence. }
    subst md. cbn in Hrun3. injection Hrun3 as <- <-.
    cbn. repeat split. congruence.
Qed.

(** A lesson of three spaces, after a classifier that timed out. *)
Lemma blank_lesson_skips_the_media_stage_example :
  let w := Sample.world (ModelThrows Sample.timeout) (ModelReturns (JStr "   "))
             (Sample.says "x") (Sample.says "y") false None in
  exists final sys',
    Graph.invoke Sample.runtime w (Graph.createInitialState "Explain heaps" (Num 2)) fresh
    = (Returned final, sys')
    /\ (rejected final = false ->
        markdown final = Some ""
        /\ imageUrl final = None
        /\ audioText final = None
        /\ mediaFailed final = false
        /\ files sys' = files fresh).
Proof.
  cbv zeta.
  apply (blank_lesson_skips_the_media_stage Sample.runtime _ "Explain heaps" (Num 2)
           fresh "   "); reflexivity.
Defined.

(** X14.  A narration answer that is missing or blank leaves [audioText]
    [null] without setting [mediaFailed]: the flag is then set by the
    visual sub-task alone. *)
Theorem blank_narration_is_no_failure
  (rt : Runtime) (w : World) (st : PipelineState) (sys : Sys) (v : JSValue) :
  rejected st = false ->
  present (markdown st) = true ->
  (forall req, narrator w req = GroqReturns (FirstContent v)) ->
  nullish v = true \/ (exists s, v = JStr s /\ trim s = "") ->
  exists final out,
    runMediaEngine rt w st sys = (Returned final, out)
    /\ audioText final = None
    /\ mediaFailed final = is_thrown (Subtask.visual rt w st).
Proof.
  intros Hrej Hmd Hnar Hv.
  destruct (runMediaEngine_decomposed rt w st sys Hrej Hmd) as [out [Hrun _]].
  rewrite Hrun. do 2 eexists. split; [ reflexivity | ].
  cbn [audioText mediaFailed with_media].
  assert (Hn : Subtask.narration w st = Returned None).
  { unfold Subtask.narration, audio_try.
    destruct (markdown st) as [md | ]; [ | discriminate Hmd ].
    run_monad. cbv beta iota zeta. rewrite Hnar. cbv beta iota zeta.
    unfold first_content_trimmed.
    destruct Hv as [Hn | [s [-> Hs]]].
    - rewrite Hn. reflexivity.
    - cbn. rewrite Hs. reflexivity. }
  rewrite Hn. cbn. split; [ reflexivity | apply orb_false_r ].
Qed.

(** A narration of two spaces. *)
Lemma blank_narration_is_no_failure_example :
  let w := Sample.world Sample.lesson Sample.lesson
             (Sample.says "I am not JSON") (Sample.says "  ") true None in
  exists final out,
    runMediaEngine Sample.runtime w Sample.taught fresh = (Returned final, out)
    /\ audioText final = None
    /\ mediaFailed final = is_thrown (Subtask.visual Sample.runtime w Sample.taught).
Proof.
  cbv zeta.
  apply (blank_narration_is_no_failure Sample.runtime _ Sample.taught fresh (JStr "  "));
    [ reflexivity | reflexivity | reflexivity | right; exists "  "; split; reflexivity ].
Defined.

(** X15.  POST /api/chat always answers: with 400 and without any effect
    when [query] is no string or a blank one; otherwise ([query] an ASCII
    text, so that its white space is the one JavaScript trims) with 500,
    after one line on [console.error] and no file, when
    [parseInt(duration)] throws, and with 200 when it returns.  The body of
    a 200 holds the trimmed query and the duration the handler stores,
    between 2 and 5.  [parseInt] is the only source of a 500, as no
    exception leaves the graph. *)
Theorem chat_route_answers
  (rt : Runtime) (w : World) (query duration : JSValue) (sys : Sys) :
  exists r sys',
    Route.post rt w query duration sys = (Returned r, sys')
    /\ match query with
       | JStr q =>
           if (String.length (trim q) =? 0)%nat
           then r = Route.Status400 "Query is required" /\ sys' = sys
           else Text.is_ascii q = true ->
                match parseInt duration with
                | Thrown e =>
                    r = Route.Status500 "An error occurred while processing your query"
                          (message e)
                    /\ files sys' = files sys
                    /\ console sys'
                       = push (console sys) ("Chat route error: " ++ message e)
                | Returned _ =>
                    exists body,
                      r = Route.Status200 body
                      /\ State.query body = trim q
                      /\ Route.stored_duration duration = Returned (State.duration body)
                      /\ (2 <= State.duration body <= 5)%Z
                end
       | _ => r = Route.Status400 "Query is required" /\ sys' = sys
       end.
Proof.
  unfold Route.post, try_catch.
  destruct query as [ | | b | n | numeral | q | items | fields];
    try (do 2 eexists; split; [ reflexivity | split; reflexivity ]).
  destruct (String.length (trim q) =? 0)%nat eqn:Hlen.
  - rewrite orb_true_r. do 2 eexists. split; [ reflexivity | split; reflexivity ].
  - assert (Hq : (q =? "") = false).
    { destruct (q =? "") eqn:E; [ | reflexivity ].
      apply String.eqb_eq in E. subst q. discriminate Hlen. }
    rewrite Hq. cbn [orb]. unfold Eff.bind at 1, Eff.lift.
    unfold Route.stored_duration, Route.durationVal.
    destruct (parseInt duration) as [n | e]; cbn [Outcome.bind].
    + unfold Eff.bind.
      destruct (invoke_keeps_inputs rt w (trim q) (Num (num_or n 3)) sys)
        as [final [sys' [Hrun [Hquery [Hdur Hrange]]]]].
      rewrite Hrun. unfold Eff.ret.
      do 2 eexists. split; [ reflexivity | ]. intros _.
      exists final. split; [ reflexivity | ]. split; [ exact Hquery | ].
      split; [ | exact Hrange ].
      rewrite Hdur. reflexivity.
    + run_monad. do 2 eexists. split; [ reflexivity | ]. intros _. repeat split.
Qed.

(** ** The topics and their route *)

Import KnowledgeBase.

(** *** The identifiers of topics *)

Lemma alnum_not_dash (c : ascii) : Topics.alnum c = true -> Ascii.eqb c "-" = false.
Proof.
  destruct (Ascii.eqb c "-") eqn:E; [ | reflexivity ].
  apply Ascii.eqb_eq in E. subst c. discriminate.
Qed.

Lemma dash_runs_tidy (s : string) : forall b, Topics.tidy b (Topics.dash_runs b s) = true.
Proof.
  induction s as [ | c r IH]; intros b; [ reflexivity | ].
  cbn [Topics.dash_runs]. destruct (Topics.alnum c) eqn:E.
  - cbn [Topics.tidy]. unfold Topics.slug_char. rewrite E, (alnum_not_dash c E).
    rewrite andb_false_r. cbn. apply IH.
  - destruct b; [ apply IH | ].
    cbn [Topics.tidy]. change (Ascii.eqb "-" "-") with true. rewrite (IH true). reflexivity.
Qed.

Lemma tidy_weaken (s : string) (b : bool) : Topics.tidy b s = true -> Topics.tidy false s = true.
Proof.
  destruct s as [ | c r]; [ reflexivity | ]. cbn [Topics.tidy].
  destruct b; [ | exact (fun H => H) ].
  intros H. apply andb_prop in H as [H1 H3]. apply andb_prop in H1 as [H1 _].
  now rewrite H1, H3.
Qed.

Lemma tidy_prefix (a r : string) : forall b, Topics.tidy b (a ++ r) = true -> Topics.tidy b a = true.
Proof.
  induction a as [ | c a IH]; intros b H; [ reflexivity | ].
  cbn [append Topics.tidy] in *.
  apply andb_prop in H as [H1 H3]. rewrite H1. cbn. eauto.
Qed.

Lemma tidy_chars (s : string) :
  forall b, Topics.tidy b s = true -> forallb Topics.slug_char (list_ascii_of_string s) = true.
Proof.
  induction s as [ | c r IH]; intros b H; [ reflexivity | ].
  cbn [Topics.tidy list_ascii_of_string forallb] in *.
  apply andb_prop in H as [H1 H3]. apply andb_prop in H1 as [H1 _].
  rewrite H1. eauto.
Qed.

Lemma tidy_no_double_dash (a r : string) : forall b, Topics.tidy b (a ++ "--" ++ r) = false.
Proof.
  induction a as [ | c a IH]; intros b.
  - cbn. now rewrite !andb_false_r.
  - cbn [append Topics.tidy]. rewrite IH. apply andb_false_r.
Qed.

Lemma ends_with_char (s : string) (c : ascii) :
  endsWith s (String c "") = true ->
  s = substring 0 (String.length s - 1) s ++ String c "".
Proof.
  unfold endsWith. intros H.
  change (rev_string (String c "")) with (String c "") in H.
  destruct (rev_string s) as [ | d y] eqn:E; [ discriminate H | ].
  cbn in H. destruct (ascii_dec c d) as [<- | ]; [ | discriminate H ].
  assert (Hs : s = rev_string y ++ String c "").
  { rewrite <- (rev_string_involutive s), E. apply rev_string_cons. }
  rewrite Hs at 2 3. rewrite string_length_app. cbn [String.length].
  replace (String.length (rev_string y) + 1 - 1)%nat with (String.length (rev_string y)) by lia.
  now rewrite substring_app_exact.
Qed.

Lemma prefix_char (a b : ascii) (r : string) :
  prefix (String a "") (String b r) = Ascii.eqb a b.
Proof.
  cbn [prefix]. destruct (ascii_dec a b) as [-> | Hn].
  - rewrite Ascii.eqb_refl. now destruct r.
  - symmetry. now apply Ascii.eqb_neq.
Qed.

Lemma strip_dashes_tidy (s : string) :
  Topics.tidy false s = true ->
  Topics.tidy false (Topics.strip_dashes s) = true
  /\ prefix "-" (Topics.strip_dashes s) = false
  /\ endsWith (Topics.strip_dashes s) "-" = false.
Proof.
  intros Hs. unfold Topics.strip_dashes.
  set (s1 := match s with String "-" r => r | _ => s end).
  assert (H1 : Topics.tidy false s1 = true /\ prefix "-" s1 = false).
  { subst s1. destruct s as [ | c r]; [ now split | ].
    destruct (Ascii.eqb c "-") eqn:E.
    - apply Ascii.eqb_eq in E. subst c.
      assert (Hr : Topics.tidy true r = true) by exact Hs.
      split; [ exact (tidy_weaken _ _ Hr) | ].
      destruct r as [ | d r]; [ reflexivity | ].
      cbn [Topics.tidy] in Hr. apply andb_prop in Hr as [Hr _]. apply andb_prop in Hr as [_ Hr].
      cbn [andb] in Hr. change "-" with (String "-" ""). rewrite prefix_char.
      rewrite Ascii.eqb_sym. now destruct (Ascii.eqb d "-").
    - assert (Hc : c <> "-"%char) by (now apply Ascii.eqb_neq).
      assert (Hm : match String c r with String "-" r0 => r0 | _ => String c r end = String c r).
      { destruct c as [[] [] [] [] [] [] [] []]; try reflexivity. now contradiction Hc. }
      rewrite Hm. split; [ exact Hs | ].
      change "-" with (String "-" ""). rewrite prefix_char.
      now rewrite Ascii.eqb_sym. }
  destruct H1 as [Ht Hp].
  destruct (endsWith s1 "-") eqn:He; [ | now repeat split ].
  pose proof (ends_with_char s1 "-" He) as Hx.
  set (x := substring 0 (String.length s1 - 1) s1) in *.
  split; [ | split ].
  - rewrite Hx in Ht. exact (tidy_prefix _ _ _ Ht).
  - destruct x as [ | d x']; [ reflexivity | ].
    rewrite Hx in Hp. cbn [append] in Hp.
    change "-" with (String "-" "") in Hp |- *.
    rewrite prefix_char in Hp |- *. exact Hp.
  - destruct (endsWith x "-") eqn:Hx2; [ | reflexivity ].
    apply ends_with_char in Hx2.
    rewrite Hx2 in Hx. rewrite Hx in Ht.
    rewrite string_app_assoc' in Ht. cbn [append] in Ht.
    now rewrite (tidy_no_double_dash _ "" false) in Ht.
Qed.

Lemma slug_tidy (name : string) :
  Topics.tidy false (Topics.slug name) = true
  /\ prefix "-" (Topics.slug name) = false
  /\ endsWith (Topics.slug name) "-" = false.
Proof. apply strip_dashes_tidy, dash_runs_tidy. Qed.

Lemma toLowerCase_slug_chars (s : string) :
  forallb Topics.slug_char (list_ascii_of_string s) = true -> toLowerCase s = s.
Proof.
  induction s as [ | c r IH]; [ reflexivity | ].
  cbn [list_ascii_of_string forallb toLowerCase]. intros H.
  apply andb_prop in H as [Hc Hr]. rewrite (IH Hr). f_equal.
  clear - Hc. destruct c as [[] [] [] [] [] [] [] []]; try reflexivity; discriminate Hc.
Qed.

Lemma dash_runs_fixed (s : string) :
  forall b, Topics.tidy b s = true -> Topics.dash_runs b s = s.
Proof.
  induction s as [ | c r IH]; intros b H; [ reflexivity | ].
  cbn [Topics.tidy] in H. apply andb_prop in H as [H1 H3]. apply andb_prop in H1 as [H1 H2].
  cbn [Topics.dash_runs]. unfold Topics.slug_char in H1.
  destruct (Topics.alnum c) eqn:E.
  - rewrite (alnum_not_dash c E) in H3. now rewrite (IH false H3).
  - cbn in H1. rewrite H1 in H2, H3. rewrite andb_true_r in H2.
    apply Ascii.eqb_eq in H1. subst c.
    destruct b; [ discriminate H2 | ]. now rewrite (IH true H3).
Qed.

Lemma strip_dashes_fixed (s : string) :
  prefix "-" s = false -> endsWith s "-" = false -> Topics.strip_dashes s = s.
Proof.
  intros Hp He. unfold Topics.strip_dashes.
  assert (Hm : match s with String "-" r => r | _ => s end = s).
  { destruct s as [ | c r]; [ reflexivity | ].
    destruct c as [[] [] [] [] [] [] [] []]; try reflexivity.
    change "-" with (String "-" "") in Hp. rewrite prefix_char in Hp. discriminate Hp. }
  rewrite Hm, He. reflexivity.
Qed.

Lemma slug_idempotent (name : string) : Topics.slug (Topics.slug name) = Topics.slug name.
Proof.
  destruct (slug_tidy name) as [Ht [Hp He]].
  unfold Topics.slug at 1.
  rewrite (toLowerCase_slug_chars _ (tidy_chars _ _ Ht)), (dash_runs_fixed _ _ Ht).
  now apply strip_dashes_fixed.
Qed.

(** X16.  The id of a topic is made of lower-case letters, digits and
    dashes, begins and ends with none, holds no two dashes in a row, is
    its own id, and is a member of [Object.prototype] only when it is
    ["constructor"]. *)
Theorem slug_is_a_clean_identifier (name : string) :
  let id := Topics.slug name in
  forallb Topics.slug_char (list_ascii_of_string id) = true
  /\ prefix "-" id = false
  /\ endsWith id "-" = false
  /\ (forall a b, id <> a ++ "--" ++ b)
  /\ Topics.slug id = id
  /\ (In id object_prototype_keys -> id = "constructor").
Proof.
  cbv zeta. destruct (slug_tidy name) as [Ht [Hp He]].
  pose proof (tidy_chars _ _ Ht) as Hc.
  split; [ exact Hc | ]. split; [ exact Hp | ]. split; [ exact He | ].
  split; [ | split ].
  - intros a b E. rewrite E in Ht. now rewrite tidy_no_double_dash in Ht.
  - apply slug_idempotent.
  - intros Hin. unfold object_prototype_keys in Hin. cbn [In] in Hin.
    repeat (destruct Hin as [Hin | Hin];
            [ try (symmetry; exact Hin);
              rewrite <- Hin in Hc; discriminate Hc | ]).
    contradiction.
Qed.

(** *** Lookup and assignment *)

Lemma own_assign_same (id : string) (t : Topic) (ts : Topics) :
  own id (assign id t ts) = Some t.
Proof.
  induction ts as [ | [k v] rest IH]; cbn [assign own].
  - now rewrite String.eqb_refl.
  - destruct (k =? id) eqn:E; cbn [own]; rewrite E; [ reflexivity | exact IH ].
Qed.

Lemma own_assign_other (id id' : string) (t : Topic) (ts : Topics) :
  id' <> id -> own id' (assign id t ts) = own id' ts.
Proof.
  intros Hne. induction ts as [ | [k v] rest IH]; cbn [assign own].
  - destruct (id =? id') eqn:E; [ apply String.eqb_eq in E; congruence | reflexivity ].
  - destruct (k =? id) eqn:E; cbn [own].
    + apply String.eqb_eq in E. subst k.
      destruct (id =? id') eqn:E'; [ apply String.eqb_eq in E'; congruence | reflexivity ].
    + now rewrite IH.
Qed.

Lemma own_in_keys (id : string) (ts : Topics) :
  own id ts = None <-> ~ In id (map fst ts).
Proof.
  induction ts as [ | [k v] rest IH]; cbn [own map fst In]; [ tauto | ].
  destruct (k =? id) eqn:E.
  - apply String.eqb_eq in E. split; [ discriminate | intros H; exfalso; auto ].
  - apply String.eqb_neq in E. rewrite IH. tauto.
Qed.

Lemma keys_assign (id : string) (t : Topic) (ts : Topics) :
  map fst (assign id t ts)
  = match own id ts with
    | Some _ => map fst ts
    | None => (map fst ts ++ [id])%list
    end.
Proof.
  induction ts as [ | [k v] rest IH]; cbn [assign own map fst app]; [ reflexivity | ].
  destruct (k =? id) eqn:E; cbn [map fst]; [ reflexivity | ].
  rewrite IH. now destruct (own id rest).
Qed.

Lemma own_In (id : string) (t : Topic) (ts : Topics) :
  own id ts = Some t -> In (id, t) ts.
Proof.
  induction ts as [ | [k v] rest IH]; cbn [own In]; [ discriminate | ].
  destruct (k =? id) eqn:E.
  - apply String.eqb_eq in E. intros H. injection H as <-. left. now subst.
  - auto.
Qed.

Lemma In_own (id : string) (t : Topic) (ts : Topics) :
  NoDup (map fst ts) -> In (id, t) ts -> own id ts = Some t.
Proof.
  induction ts as [ | [k v] rest IH]; cbn [own In map fst]; [ contradiction | ].
  intros Hnd Hin. inversion Hnd as [ | ? ? Hk Hrest]; subst.
  destruct Hin as [Heq | Hin].
  - injection Heq as -> ->. now rewrite String.eqb_refl.
  - destruct (k =? id) eqn:E; [ | auto ].
    apply String.eqb_eq in E. subst k. exfalso. apply Hk.
    now apply (in_map fst) in Hin.
Qed.

(** *** The order of the listing *)

Lemma insert_by_index_perm (e : string * Topic) (l : Topics) :
  Permutation (insert_by_index e l) (e :: l).
Proof.
  induction l as [ | x rest IH]; cbn [insert_by_index]; [ reflexivity | ].
  destruct (decimal (fst e) <=? decimal (fst x))%N; [ reflexivity | ].
  rewrite IH. apply perm_swap.
Qed.

Lemma sort_by_index_perm (l : Topics) :
  Permutation (fold_right insert_by_index [] l) l.
Proof.
  induction l as [ | x rest IH]; cbn [fold_right]; [ reflexivity | ].
  rewrite insert_by_index_perm. now constructor.
Qed.

Lemma filter_split_perm {A : Type} (f : A -> bool) (l : list A) :
  Permutation (filter f l ++ filter (fun x => negb (f x)) l) l.
Proof.
  induction l as [ | x rest IH]; cbn [filter app]; [ reflexivity | ].
  destruct (f x); cbn [negb app].
  - now constructor.
  - rewrite <- Permutation_middle. now constructor.
Qed.

Lemma entries_perm (ts : Topics) : Permutation (entries ts) ts.
Proof.
  unfold entries. rewrite sort_by_index_perm. apply filter_split_perm.
Qed.

Lemma entries_without_indices (ts : Topics) :
  forallb (fun e => negb (is_index e)) ts = true -> entries ts = ts.
Proof.
  intros H. unfold entries.
  assert (H1 : filter is_index ts = []).
  { induction ts as [ | x rest IH]; [ reflexivity | ].
    cbn [forallb filter] in *. apply andb_prop in H as [Hx Hr].
    destruct (is_index x); [ discriminate Hx | auto ]. }
  assert (H2 : filter (fun e => negb (is_index e)) ts = ts).
  { induction ts as [ | x rest IH]; [ reflexivity | ].
    cbn [forallb filter] in *. apply andb_prop in H as [Hx Hr].
    rewrite Hx. f_equal. apply IH; [ exact Hr | ].
    destruct (is_index x); [ discriminate Hx | exact H1 ]. }
  now rewrite H1, H2.
Qed.

(** *** What a request can do to the topics *)

Lemma member_own (ts : Topics) (id : string) (t : Topic) :
  member ts id = Own t <-> own id ts = Some t.
Proof.
  unfold member. destruct (own id ts) as [t' | ].
  - split; intros H; injection H as ->; reflexivity.
  - split; [ | discriminate ].
    destruct (existsb _ _); discriminate.
Qed.

Lemma member_missing (ts : Topics) (id : string) :
  member ts id = Missing -> own id ts = None.
Proof.
  unfold member. destruct (own id ts); [ discriminate | reflexivity ].
Qed.

(** The cases of a request: it leaves the topics as they are, adds a topic
    under a free id that is the slug of a name, or appends a subtopic to a
    topic. *)
Lemma serve_cases (r : Topics.Request) (ts : Topics) :
  snd (Topics.serve r ts) = ts
  \/ (exists n d items,
        member ts (Topics.slug n) = Missing
        /\ snd (Topics.serve r ts)
           = assign (Topics.slug n)
               {| name := trim n; description := d; subtopics := items |} ts)
  \/ (exists id t s,
        own id ts = Some t
        /\ snd (Topics.serve r ts)
           = assign id {| name := name t; description := description t;
                          subtopics := push (subtopics t) (JStr s) |} ts).
Proof.
  destruct r as [nm description subs | id sub]; cbn [Topics.serve].
  - unfold Topics.post.
    destruct nm as [ | | b | z | numeral | n | items | fields]; try (left; reflexivity).
    destruct ((n =? "") || (String.length (trim n) =? 0)%nat); [ left; reflexivity | ].
    cbv zeta. unfold getTopicById.
    destruct (member ts (Topics.slug n)) eqn:Hm; try (left; reflexivity).
    destruct (Topics.trimmed_description description) as [d | e]; [ | left; reflexivity ].
    right. left. unfold addTopic. cbn [snd].
    do 3 eexists. split; [ exact Hm | reflexivity ].
  - unfold Topics.post_subtopic.
    destruct sub as [ | | b | z | numeral | s | items | fields]; try (left; reflexivity).
    destruct (s =? ""); [ left; reflexivity | ].
    unfold addSubtopic.
    destruct (member ts id) eqn:Hm; try (left; reflexivity).
    right. right. cbn [snd].
    do 3 eexists. split; [ exact (proj1 (member_own _ _ _) Hm) | reflexivity ].
Qed.

Lemma length_assign_new (id : string) (t : Topic) (ts : Topics) :
  own id ts = None -> List.length (assign id t ts) = S (List.length ts).
Proof.
  intros H. rewrite <- (length_map fst), keys_assign, H, length_app, length_map.
  cbn. lia.
Qed.

Lemma nonblank_name (n : string) :
  String.length (trim n) <> 0%nat ->
  (n =? "") || (String.length (trim n) =? 0)%nat = false.
Proof.
  intros H. apply orb_false_intro.
  - destruct (n =? "") eqn:E; [ | reflexivity ].
    apply String.eqb_eq in E. subst n. now contradiction H.
  - now apply Nat.eqb_neq.
Qed.

(** X17.  A topic created by POST /api/topics is stored under the slug of
    its name, is found by [getTopicById] and listed by GET, leaves every
    other topic as it was, and makes every later POST of a name with the
    same slug answer 409 without changing anything. *)
Theorem created_topic_is_found_and_refused_again
  (nm description subtopics : JSValue) (ts ts' : Topics) (id : string) (t : Topic) :
  Topics.post nm description subtopics ts = (Returned (Topics.Status201 id t), ts') ->
  (exists n, nm = JStr n /\ id = Topics.slug n /\ name t = trim n)
  /\ own id ts = None
  /\ getTopicById ts' id = Own t
  /\ In (id, t) (getAllTopics ts')
  /\ List.length (getAllTopics ts') = S (List.length (getAllTopics ts))
  /\ (forall id', id' <> id -> own id' ts' = own id' ts)
  /\ (forall n' d' s',
        Topics.slug n' = id ->
        String.length (trim n') <> 0%nat ->
        Topics.post (JStr n') d' s' ts'
        = (Returned (Topics.Status409 "Topic already exists"), ts')).
Proof.
  unfold Topics.post.
  destruct nm as [ | | b | z | numeral | n | items | fields]; try discriminate.
  destruct ((n =? "") || (String.length (trim n) =? 0)%nat); [ discriminate | ].
  cbv zeta. unfold getTopicById.
  destruct (member ts (Topics.slug n)) eqn:Hm; try discriminate.
  destruct (Topics.trimmed_description description) as [d | e]; [ | discriminate ].
  unfold addTopic. intros H. injection H as <- <- <-.
  set (t := {| name := trim n; description := _; subtopics := _ |}).
  pose proof (member_missing _ _ Hm) as Hown.
  split; [ exists n; repeat split | ].
  split; [ exact Hown | ].
  assert (Hfound : own (Topics.slug n) (assign (Topics.slug n) t ts) = Some t)
    by apply own_assign_same.
  split; [ unfold member; now rewrite Hfound | ].
  split; [ | split; [ | split ] ].
  - unfold getAllTopics.
    apply (Permutation_in _ (Permutation_sym (entries_perm _))).
    now apply own_In.
  - unfold getAllTopics.
    rewrite !(Permutation_length (entries_perm _)).
    now apply length_assign_new.
  - intros id' Hne. now apply own_assign_other.
  - intros n' d' s' Hslug Hn'.
    rewrite (nonblank_name n' Hn'), Hslug.
    unfold member. now rewrite Hfound.
Qed.

(** "  Dynamic Programming " on the built-in topics. *)
Lemma created_topic_is_found_and_refused_again_example :
  let t := {| name := "Dynamic Programming";
              description := "Dynamic Programming — placement preparation topic";
              subtopics := [JStr "Knapsack"] |} in
  let ts' := (topics ++ [("dynamic-programming", t)])%list in
  (exists n,
      JStr "  Dynamic Programming " = JStr n
      /\ "dynamic-programming" = Topics.slug n /\ name t = trim n)
  /\ own "dynamic-programming" topics = None
  /\ getTopicById ts' "dynamic-programming" = Own t
  /\ In ("dynamic-programming", t) (getAllTopics ts')
  /\ List.length (getAllTopics ts') = S (List.length (getAllTopics topics))
  /\ (forall id', id' <> "dynamic-programming" -> own id' ts' = own id' topics)
  /\ (forall n' d' s',
        Topics.slug n' = "dynamic-programming" ->
        String.length (trim n') <> 0%nat ->
        Topics.post (JStr n') d' s' ts'
        = (Returned (Topics.Status409 "Topic already exists"), ts')).
Proof.
  cbv zeta.
  apply (created_topic_is_found_and_refused_again
           (JStr "  Dynamic Programming ") (JStr "   ") (JArr [JStr "Knapsack"]) topics).
  reflexivity.
Defined.


(** *** Invariants of the topics of a running server *)

(** One request keeps the ids distinct, each the slug of itself and no
    member of [Object.prototype], and keeps every topic, with its name and
    description and with the subtopics it had at the front of its list. *)
Lemma serve_keeps (r : Topics.Request) (ts : Topics) :
  (NoDup (map fst ts) -> NoDup (map fst (snd (Topics.serve r ts))))
  /\ ((forall id, In id (map fst ts) ->
         Topics.slug id = id
         /\ existsb (String.eqb id) object_prototype_keys = false) ->
      forall id, In id (map fst (snd (Topics.serve r ts))) ->
         Topics.slug id = id
         /\ existsb (String.eqb id) object_prototype_keys = false)
  /\ (forall id t, own id ts = Some t ->
        exists t', own id (snd (Topics.serve r ts)) = Some t'
                   /\ name t' = name t
                   /\ description t' = description t
                   /\ exists more, subtopics t' = (subtopics t ++ more)%list
                                   /\ (List.length more <= 1)%nat).
Proof.
  destruct (serve_cases r ts)
    as [-> | [[n [d [items [Hm ->]]]] | [id0 [t0 [s [Hown ->]]]]]].
  - split; [ auto | ]. split; [ auto | ].
    intros id t H. exists t. repeat split; [ exact H | ].
    exists []. split; [ now rewrite app_nil_r | cbn; lia ].
  - pose proof (member_missing _ _ Hm) as Hown.
    split; [ | split ].
    + intros Hnd. rewrite keys_assign, Hown.
      apply NoDup_app; [ exact Hnd | repeat constructor; intros [] | ].
      intros x Hx [<- | []]. now apply (proj1 (own_in_keys _ _) Hown).
    + intros Hids id Hin. rewrite keys_assign, Hown in Hin.
      apply in_app_or in Hin as [Hin | [<- | []]]; [ auto | ].
      split.
      * apply slug_idempotent.
      * unfold member in Hm. rewrite Hown in Hm.
        destruct (existsb _ _); [ discriminate Hm | reflexivity ].
    + intros id t H.
      assert (Hne : id <> Topics.slug n) by (intros ->; congruence).
      exists t. rewrite (own_assign_other _ _ _ _ Hne).
      repeat split; [ exact H | ].
      exists []. split; [ now rewrite app_nil_r | cbn; lia ].
  - split; [ | split ].
    + intros Hnd. now rewrite keys_assign, Hown.
    + intros Hids id Hin. rewrite keys_assign, Hown in Hin. auto.
    + intros id t H.
      destruct (String.eqb id id0) eqn:E.
      * apply String.eqb_eq in E. subst id0.
        rewrite own_assign_same. rewrite Hown in H. injection H as ->.
        eexists. split; [ reflexivity | ]. cbn [name description subtopics].
        repeat split. exists [JStr s]. split; [ reflexivity | cbn; lia ].
      * apply String.eqb_neq in E.
        exists t. rewrite (own_assign_other _ _ _ _ E).
        repeat split; [ exact H | ].
        exists []. split; [ now rewrite app_nil_r | cbn; lia ].
Qed.

(** X18.  No request deletes or renames a topic: whatever POST /api/topics
    or POST /api/topics/:id/subtopic is sent, a topic that was stored is
    still stored under its id, with the same name and description, and its
    list of subtopics is the old one with at most one more at the end. *)
Theorem no_request_drops_a_topic
  (r : Topics.Request) (ts : Topics) (id : string) (t : Topic) :
  own id ts = Some t ->
  exists t',
    own id (snd (Topics.serve r ts)) = Some t'
    /\ name t' = name t
    /\ description t' = description t
    /\ exists more, subtopics t' = (subtopics t ++ more)%list
                    /\ (List.length more <= 1)%nat.
Proof. exact (proj2 (proj2 (serve_keeps r ts)) id t). Qed.

(** The built-in topic "os" after a subtopic was added to it. *)
Lemma no_request_drops_a_topic_example :
  let os := {| name := "Operating Systems";
               description := "OS concepts frequently asked in placement interviews";
               subtopics :=
                 [ JStr "Process Scheduling"; JStr "Memory Management"; JStr "Deadlocks";
                   JStr "Virtual Memory & Paging"; JStr "File Systems";
                   JStr "Threads & Concurrency" ] |} in
  let r := Topics.PostSubtopic "os" (JStr " Semaphores ") in
  exists t',
    own "os" (snd (Topics.serve r topics)) = Some t'
    /\ name t' = name os
    /\ description t' = description os
    /\ exists more, subtopics t' = (subtopics os ++ more)%list
                    /\ (List.length more <= 1)%nat.
Proof.
  cbv zeta.
  apply (no_request_drops_a_topic (Topics.PostSubtopic "os" (JStr " Semaphores ")) topics "os").
  reflexivity.
Defined.

Lemma after_snoc (requests : list Topics.Request) (r : Topics.Request) :
  Topics.after (requests ++ [r]) = snd (Topics.serve r (Topics.after requests)).
Proof. unfold Topics.after. now rewrite fold_left_app. Qed.

(** X19.  Whatever requests a freshly started server has answered, the ids
    of its topics are distinct (in the store and in the listing of GET),
    each id is the slug of itself and no member of [Object.prototype] (so
    neither ["constructor"] nor ["__proto__"] is ever an id), and each of
    the nine built-in topics is still there with its name, its
    description and its built-in subtopics at the front of its list. *)
Theorem running_server_keeps_its_topics (requests : list Topics.Request) :
  let ts := Topics.after requests in
  NoDup (map fst ts)
  /\ NoDup (map fst (getAllTopics ts))
  /\ (9 <= List.length (getAllTopics ts))%nat
  /\ (forall id, In id (map fst ts) ->
        Topics.slug id = id /\ ~ In id object_prototype_keys)
  /\ (forall id t, own id topics = Some t ->
        exists t', own id ts = Some t'
                   /\ name t' = name t
                   /\ description t' = description t
                   /\ exists more, subtopics t' = (subtopics t ++ more)%list).
Proof.
  cbv zeta.
  assert (H : NoDup (map fst (Topics.after requests))
              /\ (forall id, In id (map fst (Topics.after requests)) ->
                    Topics.slug id = id
                    /\ existsb (String.eqb id) object_prototype_keys = false)
              /\ (forall id t, own id topics = Some t ->
                    exists t', own id (Topics.after requests) = Some t'
                               /\ name t' = name t
                               /\ description t' = description t
                               /\ exists more, subtopics t' = (subtopics t ++ more)%list)).
  { induction requests as [ | r requests IH] using rev_ind.
    - split; [ | split ].
      + unfold Topics.after. cbn.
        repeat constructor; cbn; intuition discriminate.
      + unfold Topics.after. cbn [fold_left]. intros id Hin. cbn in Hin.
        repeat (destruct Hin as [<- | Hin]; [ split; reflexivity | ]).
        contradiction.
      + intros id t Hown. exists t. repeat split; [ exact Hown | ].
        exists []. now rewrite app_nil_r.
    - destruct IH as [Hnd [Hids Hbuilt]]. rewrite after_snoc.
      destruct (serve_keeps r (Topics.after requests)) as [K1 [K2 K3]].
      split; [ auto | ]. split; [ auto | ].
      intros id t Hown.
      destruct (Hbuilt id t Hown) as [t1 [H1 [Hn1 [Hd1 [more1 Hs1]]]]].
      destruct (K3 id t1 H1) as [t2 [H2 [Hn2 [Hd2 [more2 [Hs2 _]]]]]].
      exists t2. repeat split; try congruence.
      exists (more1 ++ more2)%list. rewrite Hs2, Hs1. now rewrite app_assoc. }
  destruct H as [Hnd [Hids Hbuilt]].
  split; [ exact Hnd | ].
  split; [ | split; [ | split ] ].
  - unfold getAllTopics.
    apply (Permutation_NoDup (Permutation_map fst (Permutation_sym (entries_perm _))) Hnd).
  - unfold getAllTopics. rewrite (Permutation_length (entries_perm _)).
    assert (Hincl : incl (map fst topics) (map fst (Topics.after requests))).
    { intros id Hin. apply in_map_iff in Hin as [[k t] [<- Hin]]. cbn [fst].
      assert (Hown : own k topics = Some t).
      { apply In_own; [ | exact Hin ].
        cbn. repeat constructor; cbn; intuition discriminate. }
      destruct (Hbuilt k t Hown) as [t' [H' _]].
      apply own_In in H'. now apply (in_map fst) in H'. }
    rewrite <- (length_map fst).
    change 9%nat with (List.length (map fst topics)).
    apply NoDup_incl_length; [ | exact Hincl ].
    cbn. repeat constructor; cbn; intuition discriminate.
  - intros id Hin. destruct (Hids id Hin) as [H1 H2].
    split; [ exact H1 | ]. intros Hp.
    assert (H3 : existsb (String.eqb id) object_prototype_keys = true).
    { apply existsb_exists. exists id. split; [ exact Hp | apply String.eqb_refl ]. }
    congruence.
  - exact Hbuilt.
Qed.

(** X20.  POST /api/topics/:id/subtopic with a non-empty string: on a stored
    topic the trimmed text is appended to the end of its subtopics (also
    when it is there already, and also as the empty string when the text
    is blank), the answer carries the updated topic, and nothing else
    changes; on an id that is neither stored nor a member of
    [Object.prototype] the answer is 404 and nothing changes. *)
Theorem subtopic_is_appended_or_not_found
  (id s : string) (ts : Topics) :
  s <> "" ->
  match own id ts with
  | Some t =>
      let t' := {| name := name t; description := description t;
                   subtopics := (subtopics t ++ [JStr (trim s)])%list |} in
      exists ts',
        Topics.post_subtopic id (JStr s) ts
        = (Returned (Topics.Status200_added "Subtopic added" (Own t')), ts')
        /\ own id ts' = Some t'
        /\ map fst ts' = map fst ts
        /\ (forall id', id' <> id -> own id' ts' = own id' ts)
  | None =>
      member ts id = Missing ->
      Topics.post_subtopic id (JStr s) ts
      = (Returned (Topics.Status404 "Topic not found"), ts)
  end.
Proof.
  intros Hs. unfold Topics.post_subtopic.
  assert (E : (s =? "") = false) by (now apply String.eqb_neq).
  rewrite E. unfold addSubtopic, member.
  destruct (own id ts) as [t | ] eqn:Hown.
  - cbv zeta. eexists. split; [ | split; [ | split ] ].
    + unfold getTopicById, member. rewrite own_assign_same. reflexivity.
    + apply own_assign_same.
    + now rewrite keys_assign, Hown.
    + intros id' Hne. now apply own_assign_other.
  - intros Hm. now rewrite Hm.
Qed.

(** A subtopic of three spaces is stored as the empty string. *)
Lemma subtopic_is_appended_or_not_found_example :
  let t' := {| name := "Computer Networks";
               description := "Networking fundamentals and protocols for placements";
               subtopics :=
                 [ JStr "OSI & TCP/IP Models"; JStr "HTTP/HTTPS Protocol";
                   JStr "DNS & DHCP"; JStr "Subnetting & IP Addressing";
                   JStr "TCP vs UDP"; JStr "Network Security Basics"; JStr "" ] |} in
  exists ts',
    Topics.post_subtopic "cn" (JStr "   ") topics
    = (Returned (Topics.Status200_added "Subtopic added" (Own t')), ts')
    /\ own "cn" ts' = Some t'
    /\ map fst ts' = map fst topics
    /\ (forall id', id' <> "cn" -> own id' ts' = own id' topics).
Proof.
  cbv zeta.
  apply (subtopic_is_appended_or_not_found "cn" "   " topics).
  discriminate.
Defined.

(** X21.  The name ["constructor"] (in any letter case, with any
    punctuation around it) can never be added: POST /api/topics answers
    409 on every state of the server although no such topic is stored, and
    POST /api/topics/constructor/subtopic ends with a [TypeError] instead
    of 404. *)
Theorem constructor_is_taken_by_the_prototype
  (requests : list Topics.Request) (n : string) (d s : JSValue) (sub : string) :
  Topics.slug n = "constructor" ->
  String.length (trim n) <> 0%nat ->
  sub <> "" ->
  let ts := Topics.after requests in
  own "constructor" ts = None
  /\ Topics.post (JStr n) d s ts = (Returned (Topics.Status409 "Topic already exists"), ts)
  /\ Topics.post_subtopic "constructor" (JStr sub) ts
     = (Thrown (TypeError "Cannot read properties of undefined"), ts).
Proof.
  intros Hslug Hn Hsub. cbv zeta.
  assert (Hown : own "constructor" (Topics.after requests) = None).
  { apply own_in_keys. intros Hin.
    assert (H : existsb (String.eqb "constructor") object_prototype_keys = false).
    { clear - Hin. revert Hin. generalize "constructor".
      induction requests as [ | r requests IH] using rev_ind; intros id Hin.
      - unfold Topics.after in Hin. cbn in Hin.
        repeat (destruct Hin as [<- | Hin]; [ reflexivity | ]). contradiction.
      - rewrite after_snoc in Hin.
        destruct (serve_cases r (Topics.after requests))
          as [E | [[n [d [items [Hm E]]]] | [id0 [t0 [s [Hown E]]]]]];
          rewrite E in Hin.
        + auto.
        + pose proof (member_missing _ _ Hm) as Hown.
          rewrite keys_assign, Hown in Hin.
          apply in_app_or in Hin as [Hin | [<- | []]]; [ auto | ].
          unfold member in Hm. rewrite Hown in Hm.
          destruct (existsb _ _); [ discriminate Hm | reflexivity ].
        + rewrite keys_assign, Hown in Hin. auto. }
    discriminate H. }
  split; [ exact Hown | ]. split.
  - unfold Topics.post. rewrite (nonblank_name n Hn), Hslug.
    cbv zeta. unfold getTopicById, member. now rewrite Hown.
  - unfold Topics.post_subtopic.
    assert (E : (sub =? "") = false) by (now apply String.eqb_neq).
    rewrite E. unfold addSubtopic, member. now rewrite Hown.
Qed.

(** "Constructor!" after one topic was added. *)
Lemma constructor_is_taken_by_the_prototype_example :
  let ts := Topics.after [Topics.PostTopic (JStr "Heaps") JUndefined JUndefined] in
  own "constructor" ts = None
  /\ Topics.post (JStr "Constructor!") JUndefined JUndefined ts
     = (Returned (Topics.Status409 "Topic already exists"), ts)
  /\ Topics.post_subtopic "constructor" (JStr "super()") ts
     = (Thrown (TypeError "Cannot read properties of undefined"), ts).
Proof.
  apply (constructor_is_taken_by_the_prototype
           [Topics.PostTopic (JStr "Heaps") JUndefined JUndefined]
           "Constructor!" JUndefined JUndefined "super()");
    [ reflexivity | discriminate | discriminate ].
Defined.

Lemma join_In (sep x : string) (l : list string) :
  In x l -> exists a b, join sep l = a ++ x ++ b.
Proof.
  induction l as [ | y l IH]; [ contradiction | ].
  intros [-> | Hin].
  - destruct l as [ | z l].
    + exists "", "". cbn. clear. induction x; cbn; congruence.
    + exists "", (sep ++ join sep (z :: l)). reflexivity.
  - destruct (IH Hin) as [a [b Hab]].
    destruct l as [ | z l]; [ contradiction | ].
    exists (y ++ sep ++ a), b.
    change (join sep (y :: z :: l)) with (y ++ sep ++ join sep (z :: l)).
    rewrite Hab. now rewrite !string_app_assoc'.
Qed.

Lemma map_outcome_thrown {A B : Type} (f : A -> Outcome B) (l : list A) :
  is_thrown (map_outcome f l) = existsb (fun x => is_thrown (f x)) l.
Proof.
  induction l as [ | x l IH]; [ reflexivity | ].
  cbn [map_outcome existsb]. destruct (f x) as [y | e]; cbn; [ | reflexivity ].
  rewrite <- IH. destruct (map_outcome f l); reflexivity.
Qed.

Lemma map_outcome_In {A B : Type} (f : A -> Outcome B) (l : list A) (ys : list B) (x : A) :
  map_outcome f l = Returned ys -> In x l -> exists y, f x = Returned y /\ In y ys.
Proof.
  revert ys. induction l as [ | a l IH]; intros ys H Hin; [ contradiction | ].
  cbn [map_outcome] in H.
  destruct (f a) as [y | e] eqn:Ea; cbn in H; [ | discriminate H ].
  destruct (map_outcome f l) as [ys' | e] eqn:El; cbn in H; [ | discriminate H ].
  injection H as <-.
  destruct Hin as [-> | Hin].
  - exists y. split; [ exact Ea | now left ].
  - destruct (IH ys' eq_refl Hin) as [y' [Hy' Hin']]. exists y'. split; [ exact Hy' | now right ].
Qed.

Lemma existsb_perm {A : Type} (f : A -> bool) (l l' : list A) :
  Permutation l l' -> existsb f l = existsb f l'.
Proof.
  induction 1 as [ | x l l' _ IH | x y l | l l' l'' _ IH1 _ IH2]; cbn.
  - reflexivity.
  - now rewrite IH.
  - destruct (f x), (f y); reflexivity.
  - congruence.
Qed.

Lemma context_line_thrown (t : Topic) :
  is_thrown (context_line t) = is_thrown (join_values ", " (subtopics t)).
Proof. unfold context_line. destruct (join_values ", " (subtopics t)); reflexivity. Qed.

Lemma join_values_thrown (sep : string) (items : list JSValue) :
  is_thrown (join_values sep items)
  = existsb (fun v => negb (nullish v) && is_thrown (to_text v)) items.
Proof.
  unfold join_values.
  transitivity (is_thrown (map_outcome
                             (fun v => if nullish v then Returned "" else to_text v) items)).
  { destruct (map_outcome _ items); reflexivity. }
  rewrite map_outcome_thrown. induction items as [ | v items IH]; [ reflexivity | ].
  cbn [existsb]. rewrite IH. destruct (nullish v); reflexivity.
Qed.

(** X22.  [toContextString], whose text is put into the prompts, throws
    exactly when the subtopics of some stored topic cannot be joined, which
    is when one of them, other than [null] and [undefined], cannot be
    converted to a string; POST /api/topics can store such a subtopic.
    When it returns, the text names every stored topic: for each it holds
    the line made of a bullet, the name, a colon and the subtopics
    separated by commas.  It returns on the built-in topics, and the line
    of a topic whose subtopics are all strings is made of these strings. *)
Theorem context_names_every_topic (ts : Topics) :
  is_thrown (toContextString ts)
  = existsb (fun e => is_thrown (join_values ", " (subtopics (snd e)))) ts
  /\ (forall items,
        is_thrown (join_values ", " items)
        = existsb (fun v => negb (nullish v) && is_thrown (to_text v)) items)
  /\ (forall text,
        toContextString ts = Returned text ->
        forall id t,
          own id ts = Some t ->
          exists listed before after,
            join_values ", " (subtopics t) = Returned listed
            /\ text = before ++ ("• " ++ name t ++ ": " ++ listed) ++ after)
  /\ (forall items,
        join_values ", " (map JStr items) = Returned (join ", " items))
  /\ is_thrown (toContextString topics) = false
  /\ is_thrown
       (toContextString
          (Topics.after
             [Topics.PostTopic (JStr "Heaps") JUndefined
                (JArr [JObj [("toString", JNum 1)]])]))
     = true.
Proof.
  split.
  { unfold toContextString.
    transitivity (is_thrown (map_outcome (fun e => context_line (snd e)) (entries ts))).
    { destruct (map_outcome _ (entries ts)); reflexivity. }
    rewrite map_outcome_thrown.
    rewrite (existsb_perm _ _ _ (entries_perm ts)).
    induction ts as [ | e ts IH]; [ reflexivity | ].
    cbn [existsb]. now rewrite IH, context_line_thrown. }
  split; [ apply join_values_thrown | ].
  split.
  { intros text Htext id t Hown. unfold toContextString in Htext.
    destruct (map_outcome (fun e => context_line (snd e)) (entries ts))
      as [lines | e] eqn:Hlines; [ | discriminate Htext ].
    cbn in Htext. injection Htext as <-.
    assert (Hin : In (id, t) (entries ts)).
    { apply (Permutation_in _ (Permutation_sym (entries_perm ts))). now apply own_In. }
    destruct (map_outcome_In _ _ _ _ Hlines Hin) as [line [Hline Hinl]].
    cbn [snd] in Hline. unfold context_line in Hline.
    destruct (join_values ", " (subtopics t)) as [listed | e]; [ | discriminate Hline ].
    cbn in Hline. injection Hline as <-.
    destruct (join_In nl _ _ Hinl) as [before [after Hjoin]].
    exists listed, before, after. split; [ reflexivity | exact Hjoin ]. }
  split.
  { intros items. unfold join_values.
    assert (H : map_outcome (fun v => if nullish v then Returned "" else to_text v)
                  (map JStr items) = Returned items).
    { induction items as [ | x items IH]; [ reflexivity | ].
      cbn [map map_outcome nullish to_text ToString Outcome.bind].
      rewrite IH. reflexivity. }
    rewrite H. reflexivity. }
  split; vm_compute; reflexivity.
Qed.

(** The line of the built-in topic "os". *)
Lemma context_names_every_topic_example :
  exists text,
    toContextString topics = Returned text
    /\ exists before after,
         text
         = before
           ++ ("• Operating Systems: Process Scheduling, Memory Management, Deadlocks, "
               ++ "Virtual Memory & Paging, File Systems, Threads & Concurrency")
           ++ after.
Proof.
  destruct (toContextString topics) as [text | e] eqn:H; [ | discriminate H ].
  exists text. split; [ reflexivity | ].
  destruct (proj1 (proj2 (proj2 (context_names_every_topic topics))) text H "os" _ eq_refl)
    as [listed [before [after [Hlisted Htext]]]].
  vm_compute in Hlisted. injection Hlisted as <-.
  exists before, after. exact Htext.
Defined.

(** X23.  GET /api/topics lists exactly the stored topics.  Topics whose id
    is no array index are listed in the order of their creation, as the
    nine built-in ones are; a topic whose id is an array index (a name
    such as "2024") is listed before them, not after. *)
Theorem listing_puts_array_indices_first (ts : Topics) (id : string) (t : Topic) (n : N) :
  Permutation (getAllTopics ts) ts
  /\ getAllTopics topics = topics
  /\ (forallb (fun e => negb (is_index e)) ts = true ->
      getAllTopics ts = ts
      /\ (own id ts = None ->
          array_index id = Some n ->
          getAllTopics (fst (addTopic ts id (name t) (description t) (subtopics t)))
          = (id, t) :: ts)).
Proof.
  split; [ apply entries_perm | ].
  split; [ reflexivity | ].
  intros Hno. split; [ now apply entries_without_indices | ].
  intros Hown Hidx. unfold addTopic, getAllTopics, entries. cbn [fst].
  assert (Ht : {| name := name t; description := description t; subtopics := subtopics t |} = t)
    by (now destruct t).
  rewrite Ht.
  assert (Ha : assign id t ts = (ts ++ [(id, t)])%list).
  { clear - Hown. induction ts as [ | [k v] rest IH]; [ reflexivity | ].
    cbn [own] in Hown. cbn [assign app]. destruct (k =? id); [ discriminate | ].
    now rewrite IH. }
  rewrite Ha, !filter_app. cbn [filter]. unfold is_index at 2 4. cbn [fst]. rewrite Hidx.
  cbn [negb]. rewrite app_nil_r.
  assert (H1 : filter is_index ts = []).
  { clear - Hno. induction ts as [ | x rest IH]; [ reflexivity | ].
    cbn [forallb filter] in *. apply andb_prop in Hno as [Hx Hr].
    destruct (is_index x); [ discriminate Hx | auto ]. }
  assert (H2 : filter (fun e => negb (is_index e)) ts = ts).
  { clear - Hno. induction ts as [ | x rest IH]; [ reflexivity | ].
    cbn [forallb filter] in *. apply andb_prop in Hno as [Hx Hr].
    rewrite Hx. f_equal. now apply IH. }
  rewrite H1, H2. reflexivity.
Qed.

(** A topic named "2024" on the built-in topics. *)
Lemma listing_puts_array_indices_first_example :
  let t := {| name := "2024"; description := "2024 — placement preparation topic";
              subtopics := [] |} in
  Permutation (getAllTopics topics) topics
  /\ getAllTopics topics = topics
  /\ (forallb (fun e => negb (is_index e)) topics = true ->
      getAllTopics topics = topics
      /\ (own "2024" topics = None ->
          array_index "2024" = Some 2024%N ->
          getAllTopics (fst (addTopic topics "2024" (name t) (description t) (subtopics t)))
          = ("2024", t) :: topics)).
Proof.
  cbv zeta. apply listing_puts_array_indices_first.
Defined.

(** ** The serverless handler *)

Lemma serverless_wrap_loop (words : list string) :
  all_well_escaped words ->
  forall lines currentLine,
    all_well_escaped lines ->
    well_escaped currentLine = true ->
    all_well_escaped (fst (fold_left Serverless.wrap_step words (lines, currentLine)))
    /\ well_escaped (snd (fold_left Serverless.wrap_step words (lines, currentLine))) = true.
Proof.
  induction 1 as [ | word words Hw Hws IH]; intros lines currentLine Hl Hc.
  - now split.
  - cbn [fold_left].
    assert (Hst : all_well_escaped (fst (Serverless.wrap_step (lines, currentLine) word))
                  /\ well_escaped (snd (Serverless.wrap_step (lines, currentLine) word)) = true).
    { unfold Serverless.wrap_step.
      destruct (45 <? _)%nat; cbn [fst snd]; split; auto with escaped. }
    destruct (Serverless.wrap_step (lines, currentLine) word) as [lines' currentLine'].
    now apply IH.
Qed.

(** X24.  In the picture of the serverless handler every text is well
    escaped: the title and each line of the description need no further
    escaping (the description is cut to 120 characters before it is
    escaped, and the lines are split at spaces, which no entity holds);
    at most four lines are kept. *)
Theorem serverless_picture_text_is_escaped
  (topic description : JSValue) (svg : Serverless.Svg) :
  Serverless.generateTopicSVG topic description = Returned svg ->
  well_escaped (Serverless.svg_title svg) = true
  /\ all_well_escaped (Serverless.svg_lines svg)
  /\ (List.length (Serverless.svg_lines svg) <= 4)%nat.
Proof.
  unfold Serverless.generateTopicSVG. intros H.
  bind_inv H. bind_inv H.
  apply escapeXml_value_inv in E as [raw ->].
  match type of H with
  | context [substring 0 120 ?text] =>
      set (words := split (escapeXml (substring 0 120 text)) " ") in H
  end.
  assert (Hwords : all_well_escaped words).
  { apply (split_well_escaped " " ""); [ reflexivity | apply escapeXml_well_escaped ]. }
  destruct (serverless_wrap_loop words Hwords [] "" (Forall_nil _) eq_refl) as [Hl Hc].
  destruct (fold_left Serverless.wrap_step words ([], "")) as [lines currentLine].
  cbn [fst snd] in Hl, Hc. injection H as <-.
  cbn [Serverless.svg_title Serverless.svg_lines].
  split; [ apply escapeXml_well_escaped | ].
  split;
    [ | apply (Nat.le_trans _ _ _
                 (Nat.eq_le_incl _ _
                    (length_firstn 4
                       (if trim currentLine =? "" then lines
                        else push lines (trim currentLine))))); lia ].
  apply (Forall_firstn (fun p => well_escaped p = true) 4
           (if trim currentLine =? "" then lines else push lines (trim currentLine))).
  destruct (trim currentLine =? ""); [ exact Hl | ].
  apply all_well_escaped_push; [ exact Hl | now apply trim_well_escaped ].
Qed.

(** A title and a description with reserved characters. *)
Lemma serverless_picture_text_is_escaped_example :
  let svg := {| Serverless.svg_title := "Trees &amp; Graphs";
                Serverless.svg_lines :=
                  [ "A tree is a graph &lt;V, E&gt; with no";
                    "cycle; DFS &amp; BFS visit it" ] |} in
  well_escaped (Serverless.svg_title svg) = true
  /\ all_well_escaped (Serverless.svg_lines svg)
  /\ (List.length (Serverless.svg_lines svg) <= 4)%nat.
Proof.
  cbv zeta.
  apply (serverless_picture_text_is_escaped
           (JStr "Trees & Graphs")
           (JStr "A tree is a graph <V, E> with no cycle; DFS & BFS visit it")).
  reflexivity.
Defined.




(** X26.  The two deployments differ when the classifier fails.  If its
    model call throws, or its answer is an ASCII text that is no JSON, the
    serverless handler answers 500 with the message of the exception.  The
    route of the server, on the same body, answers 200 with the query
    accepted and taken as the topic; unless [parseInt] throws on the
    [duration] of the body, on which the route answers 500 before it runs
    the classifier. *)
Theorem serverless_handler_does_not_fail_open
  (rt : Runtime) (w : World) (p : Serverless.Provider) (body : JSValue)
  (q : string) (sys : Sys) :
  nullish body = false ->
  Shape.field body "query" = JStr q ->
  Text.is_ascii q = true ->
  trim q <> "" ->
  Serverless.GROQ_API_KEY p = true ->
  (exists e, classifier w (trim q) = ModelThrows e)
  \/ (exists content,
        classifier w (trim q) = ModelReturns (JStr content)
        /\ Text.is_ascii content = true
        /\ JSON_parse rt (trim content) = None
        /\ JSON_parse rt (Supervisor.unfenced content) = None) ->
  (exists msg sys',
      Serverless.handler rt w p "POST" body sys
      = (Returned (Serverless.Failed 500 ("AI processing failed: " ++ msg)), sys'))
  /\ match parseInt (Shape.field body "duration") with
     | Returned _ =>
         exists answer sys',
           Route.post rt w (Shape.field body "query") (Shape.field body "duration") sys
           = (Returned (Route.Status200 answer), sys')
           /\ rejected answer = false
           /\ topic answer = Some (trim q)
           /\ classification answer = JStr "placement_topic"
     | Thrown e =>
         exists sys',
           Route.post rt w (Shape.field body "query") (Shape.field body "duration") sys
           = (Returned (Route.Status500 "An error occurred while processing your query"
                          (message e)), sys')
     end.
Proof.
  intros Hn Hq _ Hblank Hkey Hfail. split.
  - unfold Serverless.handler. cbn [String.eqb Ascii.eqb Bool.eqb negb].
    change ("POST" =? "OPTIONS") with false. change ("POST" =? "POST") with true.
    cbv iota. cbn [negb]. cbv iota.
    unfold try_catch. unfold Eff.bind at 1, Eff.lift at 1.
    rewrite (get_field body "query" Hn).
    unfold Eff.bind at 1, Eff.lift at 1.
    rewrite (get_field body "duration" Hn).
    rewrite Hq.
    destruct (trim q =? "") eqn:E; [ apply String.eqb_eq in E; contradiction | ].
    rewrite Hkey. cbn [negb]. unfold Eff.bind at 1.
    unfold Api.runSupervisor.
    destruct Hfail as [[e He] | [content [Hc [_ [Hp _]]]]]; rewrite ?He, ?Hc.
    + run_monad. cbn. eauto.
    + run_monad. cbn. unfold Supervisor.parse. rewrite Hp. cbn. eauto.
  - rewrite Hq.
    destruct (parseInt (Shape.field body "duration")) as [n | e] eqn:Hparse.
    2:{ eexists. now apply post_on_unconvertible_duration. }
    unfold Route.post, try_catch.
    assert (Hlen : (String.length (trim q) =? 0)%nat = false).
    { destruct (trim q); [ contradiction | reflexivity ]. }
    assert (Hne : (q =? "") = false).
    { destruct (q =? "") eqn:E; [ | reflexivity ].
      apply String.eqb_eq in E. subst q. discriminate Hlen. }
    rewrite Hne, Hlen. cbn [orb]. unfold Eff.bind at 1, Eff.lift.
    unfold Route.durationVal. rewrite Hparse. cbn [Outcome.bind].
    unfold Eff.bind.
    set (d := Num (num_or n 3)).
    assert (Hsup : exists sys1,
               Supervisor.runSupervisor rt w (Graph.createInitialState (trim q) d) sys
               = (Returned (with_acceptance (Graph.createInitialState (trim q) d)
                              (trim q) (JStr "placement_topic")), sys1)).
    { unfold Supervisor.runSupervisor. cbn [query Graph.createInitialState].
      destruct Hfail as [[e He] | [content [Hc [_ [_ Hp]]]]]; rewrite ?He, ?Hc.
      - run_monad. cbn. eauto.
      - run_monad. cbn. unfold Supervisor.parse. rewrite Hp. cbn. eauto. }
    destruct Hsup as [sys1' Hsup].
    destruct (invoke_stages rt w (trim q) d sys)
      as [[reason [cls [_ [Hrej _]]]]
         | [sys1 [md [sys2 [u3 [sys3 [_ [_ [_ [_ [_ [Hu3 Hrun]]]]]]]]]]]].
    + rewrite Hsup in Hrej. discriminate Hrej.
    + cbv zeta in Hrun. rewrite Hrun. unfold Eff.ret.
      do 2 eexists. split; [ reflexivity | ].
      destruct Hu3 as [-> | [img [aud [failed ->]]]]; repeat split.
Qed.

(** The classifier times out. *)
Lemma serverless_handler_does_not_fail_open_example :
  let w := Sample.world (ModelThrows Sample.timeout) Sample.lesson
             (Sample.says "x") (Sample.says "y") true None in
  let p := {| Serverless.teach := fun _ _ => Sample.lesson;
              Serverless.illustrate := fun _ => Sample.says "x";
              Serverless.narrate := fun _ _ => Sample.says "y";
              Serverless.GROQ_API_KEY := true;
              Serverless.svg_text := fun svg => Serverless.svg_title svg |} in
  let body := JObj [("query", JStr " Explain heaps "); ("duration", JNum 9)] in
  (exists msg sys',
      Serverless.handler Sample.runtime w p "POST" body fresh
      = (Returned (Serverless.Failed 500 ("AI processing failed: " ++ msg)), sys'))
  /\ (exists answer sys',
        Route.post Sample.runtime w (Shape.field body "query") (Shape.field body "duration")
          fresh
        = (Returned (Route.Status200 answer), sys')
        /\ rejected answer = false
        /\ topic answer = Some (trim " Explain heaps ")
        /\ classification answer = JStr "placement_topic").
Proof.
  cbv zeta.
  apply (serverless_handler_does_not_fail_open Sample.runtime
           (Sample.world (ModelThrows Sample.timeout) Sample.lesson
              (Sample.says "x") (Sample.says "y") true None)
           _ (JObj [("query", JStr " Explain heaps "); ("duration", JNum 9)])
           " Explain heaps " fresh);
    [ reflexivity | reflexivity | reflexivity | discriminate | reflexivity | ].
  left. exists Sample.timeout. reflexivity.
Defined.
